(** * Perfarce: the changelist reconciliation engine of [perfarce.py]

    A shallow embedding of the parts of the Mercurial/Perforce bridge that
    map depot changelists to repository changesets and back: the revision
    marker embedded in changelist descriptions, the sync-point search, the
    pending-state cache, the classification of depot file actions, the push
    plan and the pull commit.

    Python [bytes] are modelled as [string], revision numbers as [Z] with
    [nullrev = -1], Python [dict]s and [set]s as [gmap] and [gset].  The
    Mercurial repository and the depot transport are black boxes: a record of
    operations for the former, a response function over the command history
    for the latter.  Output that the source guards by [ui.debugflag] and the
    progress bars are left out. *)

From Stdlib Require Import ZArith List Ascii String Bool Lia.
From stdpp Require Import base tactics option list gmap sets strings pretty.

Open Scope string_scope.
Open Scope Z_scope.

(** ** Byte strings *)

Definition bytes := string.

(** the line feed *)
Definition nl : bytes := String "010"%char EmptyString.

(** [bytes.startswith(prefix)] *)
Definition startswith (p s : bytes) : bool := String.prefix p s.

(** [sep.join(items)] *)
Definition join (sep : bytes) (items : list bytes) : bytes := String.concat sep items.

(** [b'%d' % n] *)
Definition fmt_d (n : Z) : bytes := pretty n.

Definition hexchar (n : N) : ascii :=
  match n with
  | 0 => "0" | 1 => "1" | 2 => "2" | 3 => "3" | 4 => "4" | 5 => "5"
  | 6 => "6" | 7 => "7" | 8 => "8" | 9 => "9" | 10 => "a" | 11 => "b"
  | 12 => "c" | 13 => "d" | 14 => "e" | _ => "f"
  end%N%char.

(** [mercurial.node.hex]: [binascii.hexlify], two lowercase hexadecimal
    digits per byte. *)
Fixpoint hex (s : bytes) : bytes :=
  match s with
  | EmptyString => EmptyString
  | String c s' =>
      String (hexchar (N_of_ascii c / 16)) (String (hexchar (N_of_ascii c mod 16)) (hex s'))
  end.

(** [bytes[:n]] *)
Fixpoint take_bytes (n : nat) (s : bytes) : bytes :=
  match n, s with
  | S k, String c s' => String c (take_bytes k s')
  | _, _ => EmptyString
  end.

(** [mercurial.node.short]: [hex(node[:6])] *)
Definition short (n : bytes) : bytes := hex (take_bytes 6 n).

(** the class [[0-9a-f]] *)
Definition is_hexdigit (c : ascii) : bool :=
  let n := N_of_ascii c in
  ((48 <=? n) && (n <=? 57) || (97 <=? n) && (n <=? 102))%N.

Definition all_hexdigits (s : bytes) : bool := forallb is_hexdigit (list_ascii_of_string s).

(** ** The revision marker [re_hgid]

    [{{mercurial (([0-9a-f]{40})(:([0-9a-f]{40}))?)}}] *)

Fixpoint strip_prefix (p s : bytes) : option bytes :=
  match p with
  | EmptyString => Some s
  | String a p' =>
      match s with
      | String b s' => if Ascii.eqb a b then strip_prefix p' s' else None
      | EmptyString => None
      end
  end.

(** [[0-9a-f]{n}] at the head of [s]: the digits and the rest *)
Fixpoint take_hex (n : nat) (s : bytes) : option (bytes * bytes) :=
  match n with
  | O => Some (EmptyString, s)
  | S k =>
      match s with
      | String c s' =>
          if is_hexdigit c
          then match take_hex k s' with
               | Some (h, r) => Some (String c h, r)
               | None => None
               end
          else None
      | EmptyString => None
      end
  end.

(** The pattern anchored at the head of [s]: groups 2 and 4 and the text
    after the match.  The optional group is greedy: it is tried first and
    given up when the closing braces do not follow. *)
Definition re_hgid_match (s : bytes) : option (bytes * option bytes * bytes) :=
  match strip_prefix "{{mercurial " s with
  | None => None
  | Some s1 =>
      match take_hex 40 s1 with
      | None => None
      | Some (g2, s2) =>
          let ranged :=
            match strip_prefix ":" s2 with
            | None => None
            | Some s3 =>
                match take_hex 40 s3 with
                | None => None
                | Some (g4, s4) =>
                    match strip_prefix "}}" s4 with
                    | None => None
                    | Some rest => Some (g2, Some g4, rest)
                    end
                end
            end in
          match ranged with
          | Some r => Some r
          | None =>
              match strip_prefix "}}" s2 with
              | None => None
              | Some rest => Some (g2, None, rest)
              end
          end
      end
  end.

(** A match object: [start(0)], [end(0)], [group(2)], [group(4)] *)
Record hgid_match := {
  m_start : nat;
  m_end : nat;
  group2 : bytes;
  group4 : option bytes;
}.

(** [m.group(1)]: the id, or the two ids around the colon *)
Definition group1 (m : hgid_match) : bytes :=
  match group4 m with
  | Some g4 => group2 m +:+ ":" +:+ g4
  | None => group2 m
  end.

Fixpoint re_hgid_search_from (i : nat) (s : bytes) : option hgid_match :=
  match re_hgid_match s with
  | Some (g2, g4, rest) =>
      Some {| m_start := i;
              m_end := (i + (String.length s - String.length rest))%nat;
              group2 := g2; group4 := g4 |}
  | None =>
      match s with
      | EmptyString => None
      | String _ s' => re_hgid_search_from (S i) s'
      end
  end.

(** [re_hgid.search(desc)]: the leftmost match *)
Definition re_hgid_search (desc : bytes) : option hgid_match := re_hgid_search_from 0 desc.

(** [re_hgid.sub(b"{{}}", d)]: every non-overlapping match, left to right;
    [skip] counts the bytes of the current match still to drop. *)
Fixpoint re_hgid_sub_go (skip : nat) (s : bytes) : bytes :=
  match s with
  | EmptyString => EmptyString
  | String c s' =>
      match skip with
      | S k => re_hgid_sub_go k s'
      | O =>
          match re_hgid_match s with
          | Some (_, _, rest) =>
              "{{}}" +:+ re_hgid_sub_go (String.length s - String.length rest - 1) s'
          | None => String c (re_hgid_sub_go 0 s')
          end
      end
  end.

Definition noid (d : bytes) : bytes := re_hgid_sub_go 0 d.

(** [bytes[a:b]] for [0 <= a], and [bytes[a:]] *)
Fixpoint drop_bytes (n : nat) (s : bytes) : bytes :=
  match n, s with
  | S k, String _ s' => drop_bytes k s'
  | _, _ => s
  end.

(** ** The Mercurial repository

    A changeset context is identified by its revision number; the null
    revision is [-1] and is the only falsy context.  [repo_lookup] is
    [repo[key]] for a binary node, a hexadecimal id or a symbolic name, and
    is [None] where Mercurial raises a lookup error. *)

Definition rev := Z.
Definition node := bytes.
Definition nullrev : rev := -1.

Record hgrepo := {
  ctx_node : rev -> node;
  ctx_extra : rev -> gmap bytes bytes;
  ctx_files : rev -> list bytes;
  ctx_parents : rev -> list rev;
  ctx_children : rev -> list rev;
  ctx_description : rev -> bytes;
  ctx_flags : rev -> bytes -> bytes;
  ctx_data : rev -> bytes -> bytes;
  repo_lookup : bytes -> option rev;
  (** [changelog.nodesbetween(roots, heads)[0]] *)
  nodesbetween : list node -> list node -> list node;
  (** [scmutil.revpair]; the second context is [None] for the working
      directory, whose [node()] is falsy *)
  revpair : list bytes -> option (rev * option rev);
  (** [repo.status(node1, node2)[:3]]: modified, added, removed *)
  repo_status : node -> node -> list bytes * list bytes * list bytes;
  (** [copies.pathcopies(ctx1, ctx2)]: destination to source *)
  pathcopies : rev -> rev -> gmap bytes bytes;
  (** [for f in repo[n]]: the files of the manifest *)
  ctx_manifest : rev -> list bytes;
}.

Definition ctx_hex (repo : hgrepo) (ctx : rev) : bytes := hex (ctx_node repo ctx).

(** [mercurial.node.nullid] *)
Definition nullid : node :=
  String.string_of_list_ascii (repeat Ascii.zero 20).

(** ** Exceptions *)

Inductive exn :=
  | Abort (msg : bytes)
  | KeyError (key : bytes)
  | ValueError
  | TypeError
  | IndexError
  | RepoLookupError (key : bytes)
  (** the iteration bound of the model was reached; not a behaviour of the
      program *)
  | Unbounded.

Inductive result (A : Type) :=
  | Ok (a : A)
  | Raise (e : exn).
Arguments Ok {A} a.
Arguments Raise {A} e.

Section Model.

(** Python's builtin [int] on [bytes]; [None] where it raises [ValueError]. *)
Variable py_int : bytes -> option Z.

(** ** The sync-point search [p4client.find] *)

(** [dothgonly(ctx)]: True if only .hg files in this context *)
Definition dothgonly (repo : hgrepo) (ctx : rev) : bool :=
  match ctx_files repo ctx with
  | [] => false
  | fs => forallb (startswith ".hg") fs
  end.

(** The value of [path] after the [while path:] loop: the tuple it was
    sliced down to, or the list [[]] assigned by the [else] branch. *)
Inductive pyseq :=
  | Tuple (t : list rev)
  | EmptyList.

(** [mqnode and self.repo.changelog.nodesbetween(mqnode, [ctx.node()])[0]] *)
Definition in_mq (repo : hgrepo) (mqnode : option (list node)) (ctx : rev) : bool :=
  match mqnode with
  | None => false
  | Some mq =>
      match nodesbetween repo mq [ctx_node repo ctx] with
      | [] => false
      | _ => true
      end
  end.

(** The [while path:] loop taken when [base] is set. *)
Fixpoint base_walk (repo : hgrepo) (mqnode : option (list node))
    (ctx : rev) (path : list rev) : rev * pyseq :=
  match path with
  | [] => (ctx, Tuple [])
  | c :: rest =>
      if dothgonly repo c && negb (in_mq repo mqnode ctx)
      then base_walk repo mqnode c rest
      else (ctx, EmptyList)
  end.

(** [for p in ctx.parents(): if p and p not in seen: ...]; appending
    [(ctx,) + path] raises when [path] is a list. *)
Fixpoint add_parents (ctx : rev) (path : pyseq) (ps : list rev)
    (seen : gset rev) (next_items : list (rev * list rev))
    : result (gset rev * list (rev * list rev)) :=
  match ps with
  | [] => Ok (seen, next_items)
  | p :: ps' =>
      if bool_decide (p ≠ nullrev) && bool_decide (p ∉ seen)
      then match path with
           | Tuple t => add_parents ctx path ps' ({[p]} ∪ seen) (next_items ++ [(p, ctx :: t)])
           | EmptyList => Raise TypeError
           end
      else add_parents ctx path ps' seen next_items
  end.

Inductive level_result :=
  | LReturn (n : node) (p4 : Z)
  | LRaise (e : exn)
  | LNext (seen : gset rev) (next_items : list (rev * list rev)).

(** [not p4rev or p4 == p4rev] *)
Definition p4rev_accepts (p4rev : option Z) (p4 : Z) : bool :=
  match p4rev with
  | None => true
  | Some want => (want =? 0) || (p4 =? want)
  end.

(** One pass of [for ctx,path in current:] *)
Fixpoint find_level (repo : hgrepo) (mqnode : option (list node)) (base : bool)
    (p4rev : option Z) (current : list (rev * list rev))
    (seen : gset rev) (next_items : list (rev * list rev)) : level_result :=
  match current with
  | [] => LNext seen next_items
  | (ctx, path) :: rest =>
      let visit ctx' path' :=
        match add_parents ctx' path' (ctx_parents repo ctx') seen next_items with
        | Raise e => LRaise e
        | Ok (seen', next') => find_level repo mqnode base p4rev rest seen' next'
        end in
      match ctx_extra repo ctx !! "p4" with
      | Some v =>
          let '(ctx', path') :=
            if base then base_walk repo mqnode ctx path else (ctx, Tuple path) in
          match py_int v with
          | None => LRaise ValueError
          | Some p4 =>
              if p4rev_accepts p4rev p4
              then LReturn (ctx_node repo ctx') p4
              else visit ctx' path'
          end
      | None => visit ctx (Tuple path)
      end
  end.

Inductive find_outcome :=
  | Found (n : node) (p4 : Z)
  | Exhausted
  | Raised (e : exn)
  | OutOfFuel.

(** The [while current:] loop.  Beside the outcome it yields the frontiers
    handed to [ui.debug(b"find: ...")], one per iteration. *)
Fixpoint find_loop (repo : hgrepo) (mqnode : option (list node)) (base : bool)
    (p4rev : option Z) (fuel : nat) (current : list (rev * list rev))
    (seen : gset rev) : find_outcome * list (list rev) :=
  match current with
  | [] => (Exhausted, [])
  | _ :: _ =>
      match fuel with
      | O => (OutOfFuel, [])
      | S k =>
          let frontier := map fst current in
          match find_level repo mqnode base p4rev current seen [] with
          | LReturn n p4 => (Found n p4, [frontier])
          | LRaise e => (Raised e, [frontier])
          | LNext seen' next_items =>
              let '(o, levels) := find_loop repo mqnode base p4rev k next_items seen' in
              (o, frontier :: levels)
          end
      end
  end.

(** [mqnode = [self.repo[revsymbol(self.repo, b'qbase')].node()]], or
    [None] when the lookup raises *)
Definition find_mqnode (repo : hgrepo) : option (list node) :=
  match repo_lookup repo "qbase" with
  | Some q => Some [ctx_node repo q]
  | None => None
  end.

(** The walk of [find] from the changeset [start].  A frontier at depth [k]
    holds revisions at most [start - k], so [start + 2] iterations are
    enough on a repository whose parents have smaller revision numbers; the
    bound stands in for the unbounded [while]. *)
Definition find_walk (repo : hgrepo) (base : bool) (p4rev : option Z) (start : rev)
    : find_outcome * list (list rev) :=
  find_loop repo (find_mqnode repo) base p4rev (S (Z.to_nat (start + 1))) [(start, [])] ∅.

(** ** The session: depot transport, user interface and caches *)

(** A record of the [p4 -G] stream: a dictionary of named fields *)
Definition p4record := gmap bytes bytes.

(** A depot command as the server receives it: the words of the command
    line after the global options, the file arguments (on the command line
    or through [-x]), the [client] override and the form piped to standard
    input. *)
Record p4cmd := {
  cmd_argv : list bytes;
  cmd_files : list bytes;
  cmd_client : option bytes;
  cmd_input : option (gmap bytes bytes);
}.

Inductive ui_event :=
  | UiStatus (msg : bytes)
  | UiNote (msg : bytes)
  | UiWarn (msg : bytes)
  | UiDebug (msg : bytes).

(** An entry of the pending list:
    [(change, submitted, nodes, desc, client)] *)
Definition pending_entry : Type := Z * bool * list node * bytes * bytes.

Definition entry_change (e : pending_entry) : Z := e.1.1.1.1.
Definition entry_submitted (e : pending_entry) : bool := e.1.1.1.2.
Definition entry_nodes (e : pending_entry) : list node := e.1.1.2.
Definition entry_desc (e : pending_entry) : bytes := e.1.2.
Definition entry_client (e : pending_entry) : bytes := e.2.

(** The arguments of a [context.memctx] handed to [repo.commitctx]: the
    parents [(p1, p2)], either of which may be [None], the description, the
    files, the user, the date and the extra data *)
Record memctx := {
  mc_p1 : option bytes;
  mc_p2 : option node;
  mc_desc : bytes;
  mc_files : list bytes;
  mc_user : bytes;
  mc_date : Z * Z;
  mc_extra : gmap bytes bytes;
}.

(** The state a command runs in.  [w_depot] answers a command given the
    commands issued before it; [w_p4stat] and [w_p4pending] are the caches
    [self.p4stat] and [self.p4pending] of the client. *)
Record world := {
  w_depot : list p4cmd -> p4cmd -> list p4record;
  w_log : list p4cmd;
  w_ui : list ui_event;
  w_p4stat : option (gset node);
  w_p4pending : list pending_entry;
  w_commits : list memctx;
}.

Definition M (A : Type) : Type := world -> result A * world.

Definition ret {A} (a : A) : M A := fun w => (Ok a, w).

Definition raise {A} (e : exn) : M A := fun w => (Raise e, w).

Definition bind {A B} (m : M A) (k : A -> M B) : M B :=
  fun w =>
    match m w with
    | (Ok a, w') => k a w'
    | (Raise e, w') => (Raise e, w')
    end.

Notation "x <~ m ;; k" := (bind m (fun x => k))
  (at level 100, m at next level, right associativity).
Notation "m ;;; k" := (bind m (fun _ => k))
  (at level 100, right associativity).

Definition ui_emit (e : ui_event) : M unit :=
  fun w => (Ok tt, {| w_depot := w_depot w; w_log := w_log w; w_ui := w_ui w ++ [e];
                      w_p4stat := w_p4stat w; w_p4pending := w_p4pending w;
                      w_commits := w_commits w |}).

Definition ui_status (msg : bytes) : M unit := ui_emit (UiStatus msg).
Definition ui_note (msg : bytes) : M unit := ui_emit (UiNote msg).
Definition ui_warn (msg : bytes) : M unit := ui_emit (UiWarn msg).
Definition ui_debug (msg : bytes) : M unit := ui_emit (UiDebug msg).

(** [for x in xs: body(x)] *)
Fixpoint for_each {A} (xs : list A) (body : A -> M unit) : M unit :=
  match xs with
  | [] => ret tt
  | x :: xs' => body x ;;; for_each xs' body
  end.

(** [d[key]] of a dictionary *)
Definition getitem (d : gmap bytes bytes) (key : bytes) : M bytes :=
  match d !! key with
  | Some v => ret v
  | None => raise (KeyError key)
  end.

(** [int(b)] *)
Definition int (b : bytes) : M Z :=
  match py_int b with
  | Some z => ret z
  | None => raise ValueError
  end.

(** [repo[key]] *)
Definition repo_getitem (repo : hgrepo) (key : bytes) : M rev :=
  match repo_lookup repo key with
  | Some r => ret r
  | None => raise (RepoLookupError key)
  end.

(** The client object: the fields of [p4client] fixed by the constructor
    and the configuration it reads. *)
Record p4client := {
  c_repo : hgrepo;
  c_server : bytes;
  c_client : bytes;
  c_partial : bytes;
  c_rootpart : bytes;
  c_keep : bool;
  c_ignorecase : bool;
  (** [ui.verbose] *)
  c_verbose : bool;
  (** [ui.configbool(b'perfarce', b'move', None)] and the same for [copy] *)
  c_move : option bool;
  c_copy : option bool;
  (** [ui.configbool(b'perfarce', b'pull_trim_log', False)] *)
  c_pull_trim_log : bool;
  (** [self.encode]: text to the character set of the depot *)
  c_encode : bytes -> bytes;
  (** [self.decode] *)
  c_decode : bytes -> bytes;
  (** [os.path.join] *)
  c_pathjoin : bytes -> bytes -> bytes;
  (** [self.normcase]: [os.path.normpath(name).lower()] *)
  c_normcase : bytes -> bytes;
  (** the path [repopath] checks against [rootpart]: the client path with
      its directory lowercased when [lowercasepaths] is set, through
      [util.pconvert] *)
  c_pconvert : bytes -> bytes;
  (** [self.getuser(user, client)] *)
  c_getuser : bytes -> bytes -> bytes;
}.

(** ASCII whitespace, as removed by [bytes.strip()] *)
Definition is_space (c : ascii) : bool :=
  let n := N_of_ascii c in ((n =? 32) || (9 <=? n) && (n <=? 13))%N.

Fixpoint lstrip (s : bytes) : bytes :=
  match s with
  | String c s' => if is_space c then lstrip s' else s
  | EmptyString => EmptyString
  end.

Fixpoint rstrip (s : bytes) : bytes :=
  match s with
  | String c s' =>
      match rstrip s' with
      | EmptyString => if is_space c then EmptyString else String c EmptyString
      | r => String c r
      end
  | EmptyString => EmptyString
  end.

Definition strip (s : bytes) : bytes := rstrip (lstrip s).

(** [loaditer]: the stream ends at the first empty object *)
Fixpoint loaditer (ds : list p4record) : list p4record :=
  match ds with
  | [] => []
  | d :: ds' => if bool_decide (d = ∅) then [] else d :: loaditer ds'
  end.

(** Spawning the command: it is appended to the history and the depot
    answers. *)
Definition popen (c : p4cmd) : M (list p4record) :=
  fun w => (Ok (loaditer (w_depot w (w_log w) c)),
            {| w_depot := w_depot w; w_log := w_log w ++ [c]; w_ui := w_ui w;
               w_p4stat := w_p4stat w; w_p4pending := w_p4pending w;
               w_commits := w_commits w |}).

(** The check [run] makes on a record before yielding it *)
Definition run_check (abort : bool) (d : p4record) : M unit :=
  match d !! "code", d !! "data" with
  | Some code, Some data =>
      let data := strip data in
      if abort && bool_decide (code = "error")
      then raise (Abort ("p4: " +:+ data))
      else if bool_decide (code = "info")
           then ui_note ("p4: " +:+ data +:+ nl)
           else ret tt
  | _, _ => ret tt
  end.

(** [for d in self.run(cmd, files=..., abort=..., client=...): body]; the
    records are consumed as they arrive, so the body has run on those
    before an error record.  [acc] carries the local variables the body
    updates. *)
Fixpoint run_records {S} (abort : bool) (ds : list p4record)
    (body : S -> p4record -> M S) (acc : S) : M S :=
  match ds with
  | [] => ret acc
  | d :: ds' =>
      run_check abort d ;;;
      acc' <~ body acc d ;;
      run_records abort ds' body acc'
  end.

Definition run_fold {S} (c : p4cmd) (abort : bool) (body : S -> p4record -> M S)
    (acc : S) : M S :=
  ds <~ popen c ;; run_records abort ds body acc.

Definition run (c : p4cmd) (abort : bool) (body : p4record -> M unit) : M unit :=
  run_fold c abort (fun _ d => body d) tt.

Definition p4 (argv : list bytes) : p4cmd :=
  {| cmd_argv := argv; cmd_files := []; cmd_client := None; cmd_input := None |}.

(** ** [p4client.find] and [p4client.parsenodes] *)

Definition find (cl : p4client) (rev_ : option bytes) (base : bool) (p4rev : option Z)
    (abort : bool) : M (node * Z) :=
  let repo := c_repo cl in
  current <~ repo_getitem repo (default "default" rev_) ;;
  let '(outcome, levels) := find_walk repo base p4rev current in
  for_each levels (fun frontier =>
    ui_debug ("find: " +:+ join " " (map (ctx_hex repo) frontier) +:+ nl)) ;;;
  match outcome with
  | Found n p4 => ret (n, p4)
  | Raised e => raise e
  | OutOfFuel => raise Unbounded
  | Exhausted =>
      if abort then raise (Abort "no p4 changelist revision found")
      else ret (nullid, 0)
  end.

(** The [try] block of [parsenodes]: the nodes between the two ends of the
    marker, or [None] where a lookup raises *)
Definition resolve_marker (repo : hgrepo) (m : hgid_match) : option (list node) :=
  match repo_lookup repo (group2 m),
        repo_lookup repo (default (group2 m) (group4 m)) with
  | Some r1, Some r2 => Some (nodesbetween repo [ctx_node repo r1] [ctx_node repo r2])
  | _, _ => None
  end.

(** [parsenodes(desc)]: find revisions in p4 changelist description *)
Definition parsenodes (cl : p4client) (desc : bytes) : M (list node * option hgid_match) :=
  match re_hgid_search desc with
  | None => ret ([], None)
  | Some m =>
      match resolve_marker (c_repo cl) m with
      | Some nodes => ret (nodes, Some m)
      | None =>
          ui_note ("ignoring hg revision range " +:+ group1 m +:+ " from p4" +:+ nl) ;;;
          ret ([], Some m)
      end
  end.

(** ** The pending-state cache *)

Definition set_p4stat (stat : option (gset node)) : M unit :=
  fun w => (Ok tt, {| w_depot := w_depot w; w_log := w_log w; w_ui := w_ui w;
                      w_p4stat := stat; w_p4pending := w_p4pending w;
                      w_commits := w_commits w |}).

Definition set_p4pending (pending : list pending_entry) : M unit :=
  fun w => (Ok tt, {| w_depot := w_depot w; w_log := w_log w; w_ui := w_ui w;
                      w_p4stat := w_p4stat w; w_p4pending := pending;
                      w_commits := w_commits w |}).

Definition get_world : M world := fun w => (Ok w, w).

(** [self.p4stat.add(n)]; the set exists whenever the helper runs *)
Definition p4stat_add (n : node) : M unit :=
  w <~ get_world ;;
  set_p4stat (Some ({[n]} ∪ default ∅ (w_p4stat w))).

Definition p4pending_append (e : pending_entry) : M unit :=
  w <~ get_world ;;
  set_p4pending (w_p4pending w ++ [e]).

(** The order of Python tuples, lists and [bytes]: lexicographic *)
Fixpoint list_compare (xs ys : list bytes) : comparison :=
  match xs, ys with
  | [], [] => Eq
  | [], _ :: _ => Lt
  | _ :: _, [] => Gt
  | x :: xs', y :: ys' =>
      match String.compare x y with
      | Eq => list_compare xs' ys'
      | c => c
      end
  end.

Definition entry_compare (a b : pending_entry) : comparison :=
  match Z.compare (entry_change a) (entry_change b) with
  | Eq =>
      match Bool.compare (entry_submitted a) (entry_submitted b) with
      | Eq =>
          match list_compare (entry_nodes a) (entry_nodes b) with
          | Eq =>
              match String.compare (entry_desc a) (entry_desc b) with
              | Eq => String.compare (entry_client a) (entry_client b)
              | c => c
              end
          | c => c
          end
      | c => c
      end
  | c => c
  end.

Fixpoint entry_insert (e : pending_entry) (l : list pending_entry) : list pending_entry :=
  match l with
  | [] => [e]
  | x :: l' =>
      match entry_compare e x with
      | Gt => x :: entry_insert e l'
      | _ => e :: l
      end
  end.

(** [self.p4pending.sort()] *)
Definition sort_entries (l : list pending_entry) : list pending_entry :=
  foldr entry_insert [] l.

(** The [helper] of [_readp4stat] *)
Definition readp4stat_helper (cl : p4client) (p4id : Z) (d : p4record) : M unit :=
  cb <~ getitem d "change" ;;
  c <~ int cb ;;
  if c =? p4id then ret tt
  else
    desc <~ getitem d "desc" ;;
    nm <~ parsenodes cl desc ;;
    let nodes := nm.1 in
    status <~ getitem d "status" ;;
    client <~ getitem d "client" ;;
    p4pending_append (c, bool_decide (status = "submitted"), nodes, desc, client) ;;;
    for_each nodes p4stat_add.

(** The body of [_readp4stat] once the two caches are emptied *)
Definition read_changes (cl : p4client) : M unit :=
  r <~ find cl None false None false ;;
  let p4id := r.2 in
  let change := c_partial cl +:+ "...@" +:+ fmt_d p4id +:+ ",#head" in
  run (p4 ["changes"; "-l"; "-c"; c_client cl; change]) true
      (readp4stat_helper cl p4id) ;;;
  run (p4 ["changes"; "-l"; "-c"; c_client cl; "-s"; "pending"]) true
      (readp4stat_helper cl p4id) ;;;
  w <~ get_world ;;
  set_p4pending (sort_entries (w_p4pending w)).

(** [_readp4stat]: read pending and submitted changelists into pending cache *)
Definition _readp4stat (cl : p4client) : M unit :=
  set_p4stat (Some ∅) ;;;
  set_p4pending [] ;;;
  read_changes cl.

Definition ensure_p4stat (cl : p4client) : M unit :=
  w <~ get_world ;;
  match w_p4stat w with
  | None => _readp4stat cl
  | Some _ => ret tt
  end.

(** [getpending(node)]: True if node is pending in p4 or has been submitted
    to p4; [n] is a changeset context *)
Definition getpending (cl : p4client) (n : rev) : M bool :=
  ensure_p4stat cl ;;;
  w <~ get_world ;;
  ret (bool_decide (ctx_node (c_repo cl) n ∈ default ∅ (w_p4stat w))).

(** [getpendinglist()]: the p4 submission state *)
Definition getpendinglist (cl : p4client) : M (list pending_entry) :=
  ensure_p4stat cl ;;;
  w <~ get_world ;;
  ret (w_p4pending w).

(** ** Single-answer commands *)

(** [runs]: run a P4 command, discarding any output (except errors) *)
Definition runs (c : p4cmd) (abort : bool) : M unit :=
  run c abort (fun _ => ret tt).

Fixpoint runone_records (name : bytes) (abort : bool) (ds : list p4record)
    (value : option p4record) : M (option p4record) :=
  match ds with
  | [] => ret value
  | d :: ds' =>
      run_check abort d ;;;
      match value with
      | None => runone_records name abort ds' (Some d)
      | Some _ => raise (Abort ("p4 " +:+ name +:+ " returned more than one object"))
      end
  end.

(** [runone]: run a P4 command and return the object returned; [name] is
    the command line as the messages print it *)
Definition runone (name : bytes) (c : p4cmd) (abort : bool) : M p4record :=
  ds <~ popen c ;;
  value <~ runone_records name abort ds None ;;
  match value with
  | Some d => ret d
  | None => raise (Abort ("p4 " +:+ name +:+ " returned no objects"))
  end.

(** ** [p4client.change] *)

Fixpoint take_digits (s : bytes) : bytes * bytes :=
  match s with
  | String c s' =>
      if ((48 <=? N_of_ascii c) && (N_of_ascii c <=? 57))%N
      then let '(ds, r) := take_digits s' in (String c ds, r)
      else (EmptyString, s)
  | EmptyString => (EmptyString, EmptyString)
  end.

(** [re_changeno.match(data)]: group 1 of [Change ([0-9]+) created.+] *)
Definition re_changeno_match (data : bytes) : option bytes :=
  match strip_prefix "Change " data with
  | None => None
  | Some s1 =>
      let '(ds, s2) := take_digits s1 in
      match ds, strip_prefix " created" s2 with
      | String _ _, Some (String c _) =>
          if bool_decide (c = "010"%char) then None else Some ds
      | _, _ => None
      end
  end.

(** [for i,j in enumerate(jobs): changelist[b'Jobs%d'%i] = self.encode(j)] *)
Fixpoint set_jobs (cl : p4client) (i : Z) (jobs : list bytes)
    (changelist : gmap bytes bytes) : gmap bytes bytes :=
  match jobs with
  | [] => changelist
  | j :: jobs' =>
      set_jobs cl (i + 1) jobs' (<["Jobs" +:+ fmt_d i := c_encode cl j]> changelist)
  end.

(** [change(change, description, update, jobs)]: create a new p4 changelist
    or update an existing changelist with the given description; returns the
    changelist number.  [chg] is the number as text, empty for a new
    changelist. *)
Definition change (cl : p4client) (chg : bytes) (description : option bytes)
    (update : bool) (jobs : list bytes) : M bytes :=
  let spec := match chg with EmptyString => [] | _ => [chg] end in
  changelist <~ runone ("change -o " +:+ chg) (p4 (["change"; "-o"] ++ spec)) true ;;
  let changelist := set_jobs cl 0 jobs changelist in
  let changelist :=
    match description with
    | Some text => <["Description" := c_encode cl text]> changelist
    | None => changelist
    end in
  d <~ runone ("change -i" +:+ (if update then " -u" else EmptyString))
         {| cmd_argv := ["change"; "-i"] ++ (if update then ["-u"] else []);
            cmd_files := []; cmd_client := None; cmd_input := Some changelist |} true ;;
  data <~ getitem d "data" ;;
  code <~ getitem d "code" ;;
  chg' <~ (if bool_decide (code = "info")
           then
             (if c_verbose cl then ret tt else ui_status ("p4: " +:+ data +:+ nl)) ;;;
             match chg with
             | EmptyString => ret (default chg (re_changeno_match data))
             | _ => ret chg
             end
           else raise (Abort ("error creating p4 change: " +:+ data))) ;;
  match chg' with
  | EmptyString => raise (Abort "did not get changelist number from p4")
  | _ =>
      (* invalidate cache *)
      set_p4stat None ;;;
      ret chg'
  end.

(** ** Changelist descriptors: [actions], [describe], [fstat] *)

(** The table [p4client.actions] *)
Definition actions : gmap bytes bytes :=
  list_to_map
    [ ("add", "A"); ("branch", "A"); ("move/add", "A");
      ("edit", "M"); ("integrate", "M"); ("import", "A");
      ("delete", "R"); ("move/delete", "R"); ("purge", "R") ].

(** A file of a changelist: [(depotname, revision, type, action)], with
    the local name as fifth component where it was collected *)
Record file_entry := {
  f_depot : bytes;
  f_rev : Z;
  f_type : bytes;
  f_action : bytes;
  f_local : option bytes;
}.

(** The object [describe] returns *)
Record description := {
  d_change : bytes;
  d_desc : bytes;
  d_user : bytes;
  d_date : Z * Z;
  d_status : bytes;
  d_client : bytes;
  d_files : list file_entry;
  d_jobs : list bytes;
}.

(** The [while True:] loop of [describe] over [depotFile%d], [rev%d],
    [type%d], [action%d]; it leaves at the first missing index, within
    [size d + 1] rounds. *)
Fixpoint describe_files (fuel : nat) (d : p4record) (i : Z) : M (list file_entry) :=
  match fuel with
  | O => raise Unbounded
  | S k =>
      match d !! ("depotFile" +:+ fmt_d i) with
      | None => ret []
      | Some df =>
          rv <~ getitem d ("rev" +:+ fmt_d i) ;;
          tp <~ getitem d ("type" +:+ fmt_d i) ;;
          ac <~ getitem d ("action" +:+ fmt_d i) ;;
          rvn <~ int rv ;;
          a <~ getitem actions ac ;;
          rest <~ describe_files k d (i + 1) ;;
          ret ({| f_depot := df; f_rev := rvn; f_type := tp; f_action := a;
                  f_local := None |} :: rest)
      end
  end.

Fixpoint describe_jobs (fuel : nat) (d : p4record) (i : Z) : M (list bytes) :=
  match fuel with
  | O => raise Unbounded
  | S k =>
      match d !! ("job" +:+ fmt_d i) with
      | None => ret []
      | Some j => rest <~ describe_jobs k d (i + 1) ;; ret (j :: rest)
      end
  end.

(** [repopath]: convert a p4 client path to a path relative to the hg root *)
Definition repopath (cl : p4client) (path : bytes) : M bytes :=
  let path := c_pconvert cl path in
  if startswith (c_rootpart cl) path
  then ret (drop_bytes (String.length (c_rootpart cl)) path)
  else raise (Abort ("invalid p4 local path " +:+ path)).

(** The dictionary [files] of [describe]: the last entry stored under a
    depot name *)
Definition files_dict (files : list file_entry) : gmap bytes file_entry :=
  foldl (fun m f => <[f_depot f := f]> m) ∅ files.

(** The keys of that dictionary in insertion order *)
Fixpoint dict_keys (seen : gset bytes) (ks : list bytes) : list bytes :=
  match ks with
  | [] => []
  | k :: ks' =>
      if bool_decide (k ∈ seen) then dict_keys seen ks'
      else k :: dict_keys ({[k]} ∪ seen) ks'
  end.

(** [describe(change, local, shelve)]: the changelist description object.
    The test [status=='submitted'] compares [bytes] with [str] and is never
    true, so the file list always comes from the record itself. *)
Definition describe (cl : p4client) (chg : bytes) (local shelve : bool) : M description :=
  let flag := if shelve then "-S" else "-s" in
  d <~ runone ("describe " +:+ flag +:+ " " +:+ chg) (p4 ["describe"; flag; chg]) true ;;
  client <~ getitem d "client" ;;
  status <~ getitem d "status" ;;
  chg' <~ getitem d "change" ;;
  desc <~ getitem d "desc" ;;
  user <~ getitem d "user" ;;
  time <~ getitem d "time" ;;
  date <~ int time ;;
  files <~ describe_files (S (size d)) d 0 ;;
  jobs <~ describe_jobs (S (size d)) d 0 ;;
  files' <~ (if local && negb (bool_decide (files = []))
             then
               let dict := files_dict files in
               run_fold {| cmd_argv := ["where"];
                           cmd_files := dict_keys ∅ (map f_depot files);
                           cmd_client := None; cmd_input := None |} true
                 (fun acc w =>
                    df <~ getitem w "depotFile" ;;
                    match dict !! df with
                    | None => raise (KeyError df)
                    | Some f =>
                        path <~ getitem w "path" ;;
                        lf <~ repopath cl path ;;
                        ret (acc ++ [ {| f_depot := f_depot f; f_rev := f_rev f;
                                         f_type := f_type f; f_action := f_action f;
                                         f_local := Some lf |} ])%list
                    end) []
             else ret files) ;;
  ret {| d_change := chg'; d_desc := c_decode cl desc;
         d_user := c_getuser cl (c_decode cl user) client;
         d_date := (date, 0); d_status := status; d_client := client;
         d_files := files'; d_jobs := jobs |}.

(** ** [sync], [hasmovecopy] *)

(** [sync(change, fake, force, files)]: synchronize the client with the
    depot at the given change.  The integer fields [generic] and [severity]
    of an error record are held as their decimal text. *)
Definition sync (cl : p4client) (chg : Z) (fake force : bool) (files : list bytes) : M unit :=
  let opt := if fake then ["-k"] else if force then ["-f"] else [] in
  let spec :=
    match files with
    | [] => [c_partial cl +:+ "...@" +:+ fmt_d chg]
    | _ => []
    end in
  n <~ run_fold
         {| cmd_argv := ["sync"] ++ opt ++ spec;
            cmd_files := map (fun f => c_pathjoin cl (c_partial cl) f +:+ "@" +:+ fmt_d chg) files;
            cmd_client := None; cmd_input := None |} false
         (fun n d =>
            (if bool_decide (d !! "code" = Some "error")
             then
               data <~ getitem d "data" ;;
               generic <~ getitem d "generic" ;;
               if bool_decide (generic = "17") then ui_note ("p4: " +:+ strip data +:+ nl)
               else
                 severity <~ getitem d "severity" ;;
                 if bool_decide (severity = "2") then ui_note ("p4: " +:+ strip data +:+ nl)
                 else raise (Abort ("p4: " +:+ strip data))
             else ret tt) ;;;
            ret (S n)) O ;;
  match files with
  | _ :: _ =>
      if (n <? length files)%nat
      then raise (Abort "incomplete reply from p4, reduce maxargs")
      else ret tt
  | [] => ret tt
  end.

(** One round of the loop of [hasmovecopy] *)
Definition has_op (op : bytes) (cfg : option bool) : M bool :=
  match cfg with
  | Some v => ret v
  | None =>
      ui_note ("checking if p4 " +:+ op +:+ " is supported, set perfarce." +:+ op
               +:+ " to skip this test" +:+ nl) ;;;
      d <~ runone ("help " +:+ op) (p4 ["help"; op]) false ;;
      code <~ getitem d "code" ;;
      let v := bool_decide (code = "info") in
      ui_debug ("p4 " +:+ op +:+ " is " +:+ (if v then EmptyString else "not ") +:+ "supported" +:+ nl) ;;;
      ret v
  end.

(** [hasmovecopy()]: detect whether p4 move and p4 copy are supported *)
Definition hasmovecopy (cl : p4client) : M (bool * bool) :=
  move <~ has_op "move" (c_move cl) ;;
  copy <~ has_op "copy" (c_copy cl) ;;
  ret (move, copy).

(** [encodename]: escape @ # % * characters in a p4 filename *)
Fixpoint encodename (name : bytes) : bytes :=
  match name with
  | EmptyString => EmptyString
  | String c s =>
      (if bool_decide (c = "%"%char) then "%25"
       else if bool_decide (c = "@"%char) then "%40"
       else if bool_decide (c = "#"%char) then "%23"
       else if bool_decide (c = "*"%char) then "%2A"
       else String c EmptyString) +:+ encodename s
  end.

(** ** The push plan: [_pushcommon] *)

Record pushopts := {
  o_force : bool;
  o_rev : list bytes;
  (** [opts[b'submit'] or ui.configbool(b'perfarce', b'submit')] *)
  o_submit : bool;
  o_job : list bytes;
}.

(** The tuple [_pushcommon] returns *)
Record pushplan := {
  pp_p4rev : node;
  pp_p4id : Z;
  pp_nodes : list node;
  pp_ctx : rev;
  pp_desc : bytes;
  pp_mod : list (bytes * bytes);
  pp_add : list (bytes * bytes);
  pp_rem : list (bytes * bytes);
  pp_cpy : gmap bytes (bytes * bool);
}.

(** [ctx.parents()[0]] *)
Definition first_parent (repo : hgrepo) (ctx : rev) : M rev :=
  match ctx_parents repo ctx with
  | p :: _ => ret p
  | [] => raise IndexError
  end.

(** The candidate range: the sync point, the two ends and
    [nodesbetween(...)[0][bool(p4id):]] *)
Definition push_range (cl : p4client) (opts : pushopts)
    : M (node * Z * rev * rev * list node) :=
  let repo := c_repo cl in
  r <~ find cl None true None (negb (o_force opts)) ;;
  let p4rev := r.1 in
  let p4id := r.2 in
  ends <~ match o_rev opts with
          | _ :: _ =>
              match revpair repo (o_rev opts) with
              | None => raise (RepoLookupError (join " " (o_rev opts)))
              | Some (c1, c2) =>
                  let ctx2 :=
                    match c2 with
                    | Some c => if bool_decide (ctx_node repo c = EmptyString) then c1 else c
                    | None => c1
                    end in
                  ctx1 <~ first_parent repo c1 ;;
                  ret (ctx1, ctx2)
              end
          | [] =>
              ctx1 <~ repo_getitem repo p4rev ;;
              ctx2 <~ repo_getitem repo "tip" ;;
              ret (ctx1, ctx2)
          end ;;
  let nodes := nodesbetween repo [ctx_node repo ends.1] [ctx_node repo ends.2] in
  ret (p4rev, p4id, ends.1, ends.2, if p4id =? 0 then nodes else drop 1 nodes).

(** [nodes[end]] and [del nodes[end]] for [end] in [0, -1] *)
Definition end_item (at_back : bool) (nodes : list node) : option node :=
  if at_back then last nodes else head nodes.

Definition del_end (at_back : bool) (nodes : list node) : list node :=
  if at_back then removelast nodes else drop 1 nodes.

(** The [while nodes:] loop that trims pushed nodes off one end; a round
    deletes a node, so [length nodes] rounds are enough. *)
Fixpoint trim_end (cl : p4client) (fuel : nat) (at_back : bool) (nodes : list node)
    (trim : bool) : M (list node * bool) :=
  match fuel with
  | O => ret (nodes, trim)
  | S k =>
      match end_item at_back nodes with
      | None => ret (nodes, trim)
      | Some x =>
          n <~ repo_getitem (c_repo cl) x ;;
          pending <~ getpending cl n ;;
          if pending then trim_end cl k at_back (del_end at_back nodes) true
          else ret (nodes, trim)
      end
  end.

(** [for end in [0, -1]: ...]: trim off nodes at either end that have
    already been pushed *)
Definition trim_pushed (cl : p4client) (nodes : list node) : M (list node * bool) :=
  r <~ trim_end cl (length nodes) false nodes false ;;
  trim_end cl (length r.1) true r.1 r.2.

(** [b'p4' in ctx3.extra()] for some child [ctx3] *)
Definition has_p4_child (repo : hgrepo) (n : rev) : bool :=
  existsb (fun ctx3 => bool_decide (is_Some (ctx_extra repo ctx3 !! "p4")))
          (ctx_children repo n).

(** The loop that checks that remaining nodes have not already been pushed *)
Fixpoint check_not_pushed (cl : p4client) (nodes : list node) : M unit :=
  match nodes with
  | [] => ret tt
  | x :: rest =>
      n <~ repo_getitem (c_repo cl) x ;;
      pending <~ getpending cl n ;;
      if pending || has_p4_child (c_repo cl) n
      then raise (Abort ("can not push, changeset " +:+ short (ctx_node (c_repo cl) n)
                         +:+ " is already in p4"))
      else check_not_pushed cl rest
  end.

(** The block that recalculates the context: [if trim and nodes:] *)
Definition recalculate_context (repo : hgrepo) (trim : bool) (nodes : list node)
    (ctx1 ctx2 : rev) : M (rev * rev) :=
  match trim, nodes with
  | true, first :: _ =>
      c <~ repo_getitem repo first ;;
      ctx1 <~ first_parent repo c ;;
      ctx2 <~ repo_getitem repo (default first (last nodes)) ;;
      ret (ctx1, ctx2)
  | _, _ => ret (ctx1, ctx2)
  end.

(** The block under [if not opts[b'force']:] *)
Definition trim_and_check (cl : p4client) (ctx1 ctx2 : rev) (nodes : list node)
    : M (rev * rev * list node) :=
  r <~ trim_pushed cl nodes ;;
  ends <~ recalculate_context (c_repo cl) r.2 r.1 ctx1 ctx2 ;;
  check_not_pushed cl r.1 ;;;
  ret (ends.1, ends.2, r.1).

(** The loop that removes .hg* files from a list of changes *)
Definition drop_dothg (changes : list (bytes * bytes)) : list (bytes * bytes) :=
  List.filter (fun f => negb (startswith ".hg" f.1)) changes.

(** [mod], [add], [rem] with the flags of [ctx2], and the copies with the
    mark of those that change the data *)
Definition changed_files (repo : hgrepo) (ctx1 ctx2 : rev)
    : list (bytes * bytes) * list (bytes * bytes) * list (bytes * bytes)
      * gmap bytes (bytes * bool) :=
  let '(mod_, add_, rem_) := repo_status repo (ctx_node repo ctx1) (ctx_node repo ctx2) in
  let mod_ := map (fun f => (f, ctx_flags repo ctx2 f)) mod_ in
  let add_ := map (fun f => (f, ctx_flags repo ctx2 f)) add_ in
  let rem_ := map (fun f => (f, EmptyString)) rem_ in
  let cpy :=
    map_imap (fun c src =>
      Some (src, negb (bool_decide (ctx_flags repo ctx2 c = ctx_flags repo ctx1 c))
                 || negb (bool_decide (ctx_data repo ctx2 c = ctx_data repo ctx1 src))))
      (pathcopies repo ctx1 ctx2) in
  (drop_dothg mod_, drop_dothg add_, drop_dothg rem_, cpy).

(** The block that detects MQ *)
Definition detect_mq (repo : hgrepo) (force : bool) (nodes : list node) : M unit :=
  match repo_lookup repo "qbase" with
  | None => ret tt
  | Some q =>
      match nodesbetween repo [ctx_node repo q] nodes with
      | [] => ret tt
      | _ :: _ =>
          if force then ui_warn ("source has mq patches applied" +:+ nl)
          else raise (Abort "source has mq patches applied")
      end
  end.

(** [for x in xs: acc.append(f(x))] *)
Fixpoint map_m {A B} (f : A -> M B) (xs : list A) : M (list B) :=
  match xs with
  | [] => ret []
  | x :: xs' => y <~ f x ;; ys <~ map_m f xs' ;; ret (y :: ys)
  end.

(** The block that creates the description *)
Definition push_description (repo : hgrepo) (nodes : list node) : M bytes :=
  desc <~ map_m (fun n => c <~ repo_getitem repo n ;; ret (ctx_description repo c)) nodes ;;
  h <~ (if (1 <? length nodes)%nat
        then
          match head nodes with
          | Some first => c <~ repo_getitem repo first ;; ret [ctx_hex repo c]
          | None => raise IndexError
          end
        else ret []) ;;
  tip <~ match last nodes with
         | Some x => c <~ repo_getitem repo x ;; ret (ctx_hex repo c)
         | None => raise IndexError
         end ;;
  ret (join (nl +:+ "* * *" +:+ nl) desc +:+ nl +:+ nl +:+ "{{mercurial "
       +:+ join ":" (h ++ [tip])%list +:+ "}}" +:+ nl).

(** The first part of [_pushcommon]: the sync point, the ends of the range
    and the nodes to push, trimmed and checked unless the push is forced *)
Definition push_revisions (cl : p4client) (opts : pushopts)
    : M (node * Z * rev * rev * list node) :=
  rg <~ push_range cl opts ;;
  let '(p4rev, p4id, ctx1, ctx2, nodes) := rg in
  tc <~ (if o_force opts then ret (ctx1, ctx2, nodes)
         else trim_and_check cl ctx1 ctx2 nodes) ;;
  ret (p4rev, p4id, tc.1.1, tc.1.2, tc.2).

(** [_pushcommon]: shared code for push and outgoing; [None] after
    reporting that there are no changes *)
Definition _pushcommon (cl : p4client) (opts : pushopts) : M (option pushplan) :=
  let repo := c_repo cl in
  rv <~ push_revisions cl opts ;;
  let '(p4rev, p4id, ctx1, ctx2, nodes) := rv in
  match nodes with
  | [] => ui_status ("no changes found" +:+ nl) ;;; ret None
  | _ :: _ =>
      (* find changed files *)
      let '(mod_, add_, rem_, cpy) := changed_files repo ctx1 ctx2 in
      match (mod_ ++ add_ ++ rem_)%list with
      | [] => ui_status ("no changes found" +:+ nl) ;;; ret None
      | _ :: _ =>
          detect_mq repo (o_force opts) nodes ;;;
          desc <~ push_description repo nodes ;;
          ret (Some {| pp_p4rev := p4rev; pp_p4id := p4id; pp_nodes := nodes;
                       pp_ctx := ctx2; pp_desc := desc; pp_mod := mod_;
                       pp_add := add_; pp_rem := rem_; pp_cpy := cpy |})
      end
  end.

(** ** [push] up to the creation of the changelist *)

(** The lists built by the block that sorts out the copies from the adds *)
Record sorted_adds := {
  s_rems : gmap bytes bool;
  s_moves : list (bytes * bytes * bytes);
  s_copies : list (bytes * bytes);
  s_ntg : list (bytes * bytes);
  s_add2 : list (bytes * bytes);
  s_mod2 : list (bytes * bytes);
}.

(** [rems = {}; for f in rem: rems[f[0]] = True] *)
Definition rems_of (rem_ : list (bytes * bytes)) : gmap bytes bool :=
  foldl (fun m f => <[f.1 := true]> m) ∅ rem_.

(** The body of [for f,g in add:] *)
Definition sort_add (move copy : bool) (cpy : gmap bytes (bytes * bool))
    (acc : sorted_adds) (fg : bytes * bytes) : sorted_adds :=
  let '(f, g) := fg in
  match (cpy !! f : option (bytes * bool)) with
  | Some (r, chg) =>
      let acc1 :=
        if move && bool_decide (s_rems acc !! r = Some true)
        then {| s_rems := <[r := false]> (s_rems acc);
                s_moves := s_moves acc ++ [(r, f, g)];
                s_copies := s_copies acc; s_ntg := s_ntg acc;
                s_add2 := s_add2 acc; s_mod2 := s_mod2 acc |}
        else if copy
        then {| s_rems := s_rems acc; s_moves := s_moves acc;
                s_copies := s_copies acc ++ [(r, f)]; s_ntg := s_ntg acc;
                s_add2 := s_add2 acc; s_mod2 := s_mod2 acc |}
        else {| s_rems := s_rems acc; s_moves := s_moves acc;
                s_copies := s_copies acc; s_ntg := s_ntg acc ++ [(r, f)];
                s_add2 := s_add2 acc; s_mod2 := s_mod2 acc |} in
      if chg
      then {| s_rems := s_rems acc1; s_moves := s_moves acc1;
              s_copies := s_copies acc1; s_ntg := s_ntg acc1;
              s_add2 := s_add2 acc1; s_mod2 := s_mod2 acc1 ++ [(f, g)] |}
      else acc1
  | None =>
      {| s_rems := s_rems acc; s_moves := s_moves acc;
         s_copies := s_copies acc; s_ntg := s_ntg acc;
         s_add2 := s_add2 acc ++ [(f, g)]; s_mod2 := s_mod2 acc |}
  end.

(** The file operations of a push, as staged on the changelist:
    [mod], [mod2], [add], [rem], [copies], [moves], [ntg] *)
Record staging := {
  g_mod : list (bytes * bytes);
  g_mod2 : list (bytes * bytes);
  g_add : list (bytes * bytes);
  g_rem : list (bytes * bytes);
  g_copies : list (bytes * bytes);
  g_moves : list (bytes * bytes * bytes);
  g_ntg : list (bytes * bytes);
}.

(** The block of [push] that sorts out the copies from the adds, with the
    removals that no move has consumed *)
Definition sort_copies (move copy : bool) (cpy : gmap bytes (bytes * bool))
    (mod_ add_ rem_ : list (bytes * bytes)) : staging :=
  let acc :=
    foldl (sort_add move copy cpy)
      {| s_rems := rems_of rem_; s_moves := []; s_copies := []; s_ntg := [];
         s_add2 := []; s_mod2 := [] |} add_ in
  {| g_mod := mod_; g_mod2 := s_mod2 acc; g_add := s_add2 acc;
     g_rem := List.filter (fun r => bool_decide (s_rems acc !! r.1 = Some true)) rem_;
     g_copies := s_copies acc; g_moves := s_moves acc; g_ntg := s_ntg acc |}.

(** The local function [rev] of [push]: revert files *)
Definition revert_files (cl : p4client) (files : list bytes) (chg : bytes) (abort : bool)
    : M unit :=
  match files with
  | [] => ret tt
  | _ :: _ =>
      ui_note ("reverting: " +:+ join " " files +:+ nl) ;;;
      runs {| cmd_argv := ["revert"] ++ (match chg with EmptyString => [] | _ => ["-c"; chg] end);
              cmd_files := map (c_pathjoin cl (c_partial cl)) files;
              cmd_client := None; cmd_input := None |} abort
  end.

(** [for e in client.getpendinglist(): if e[1]: p4id = e[0]] *)
Definition last_submitted (p4id : Z) (pending : list pending_entry) : Z :=
  foldl (fun id e => if entry_submitted e then entry_change e else id) p4id pending.

(** What [push] has done when it starts to open files: the changelist in
    use and the staged operations.  The steps that follow in the source
    (opening, writing and submitting the files) are not part of the model. *)
Record pushed := {
  ps_change : bytes;
  ps_staging : staging;
}.

(** The message [push] opens with *)
Definition push_announce (cl : p4client) (opts : pushopts) : M unit :=
  if o_submit opts
  then ui_status ("pushing to p4://" +:+ c_server cl +:+ " using client "
                  +:+ c_client cl +:+ nl)
  else ui_status ("pushing to client " +:+ c_client cl +:+ nl).

(** [push]: create p4 changelist; [None] where it returns 0 for lack of
    changes *)
Definition push (cl : p4client) (opts : pushopts) : M (option pushed) :=
  push_announce cl opts ;;;
  r <~ _pushcommon cl opts ;;
  match r with
  | None => ret None
  | Some plan =>
      mc <~ hasmovecopy cl ;;
      (* sync to the last revision pulled, converted or submitted *)
      pending <~ getpendinglist cl ;;
      let p4id := last_submitted (pp_p4id plan) pending in
      (if c_keep cl then sync cl p4id false false []
       else
         sync cl p4id true false [] ;;;
         sync cl p4id false true (map (fun f => encodename f.1) (pp_mod plan))) ;;;
      (* attempt to reuse an existing changelist *)
      let noiddesc := noid (pp_desc plan) in
      use <~ run_fold (p4 ["changes"; "-s"; "pending"; "-c"; c_client cl; "-l"]) true
               (fun use d =>
                  desc <~ getitem d "desc" ;;
                  if bool_decide (noid desc = noiddesc)
                  then getitem d "change"
                  else ret use) EmptyString ;;
      (* revert any other changes in existing changelist *)
      match use with
      | EmptyString => ret tt
      | _ =>
          c <~ describe cl use false false ;;
          revert_files cl (map f_depot (d_files c)) use true
      end ;;;
      (* revert any other changes to the files *)
      revert_files cl (map fst (pp_mod plan ++ pp_add plan ++ pp_rem plan)) EmptyString false ;;;
      let staged :=
        sort_copies mc.1 mc.2 (pp_cpy plan) (pp_mod plan) (pp_add plan) (pp_rem plan) in
      (* create new changelist *)
      use <~ change cl use (Some (pp_desc plan)) false (o_job opts) ;;
      ret (Some {| ps_change := use; ps_staging := staged |})
  end.

(** ** [pull]: one changelist of the loop, up to its commit *)

(** [fstat(change, all, files)]: find local names for all the files
    belonging to a changelist *)
Definition fstat (cl : p4client) (chg : Z) (all : bool) (files : list bytes)
    : M (list file_entry) :=
  let argv :=
    match files with
    | _ :: _ => ["fstat"]
    | [] =>
        if all then ["fstat"; c_partial cl +:+ "...@" +:+ fmt_d chg]
        else ["fstat"; "-e"; fmt_d chg; c_partial cl +:+ "..."]
    end in
  result <~ run_fold {| cmd_argv := argv; cmd_files := files; cmd_client := None;
                        cmd_input := None |} true
              (fun result d =>
                 if bool_decide (is_Some (d !! "desc")) then ret result
                 else
                   df <~ getitem d "depotFile" ;;
                   cf <~ getitem d "clientFile" ;;
                   if startswith ".hg" cf then ret result
                   else
                     lf <~ repopath cl cf ;;
                     rv <~ match d !! "headRev" with
                           | Some b => int b
                           | None => ret 0
                           end ;;
                     a <~ getitem actions (default "add" (d !! "headAction")) ;;
                     ret (result ++ [ {| f_depot := df; f_rev := rv;
                                         f_type := default EmptyString (d !! "headType");
                                         f_action := a; f_local := Some lf |} ])%list) [] ;;
  ui_note (fmt_d (Z.of_nat (length result)) +:+ " files " +:+ nl) ;;;
  ret result.

(** [f[4]] of a file tuple *)
Definition localname (f : file_entry) : M bytes :=
  match f_local f with
  | Some lf => ret lf
  | None => raise IndexError
  end.

(** [entries[key] = f] on a dictionary kept in insertion order *)
Fixpoint odict_set (key : bytes) (f : file_entry) (entries : list (bytes * file_entry))
    : list (bytes * file_entry) :=
  match entries with
  | [] => [(key, f)]
  | (k, v) :: rest =>
      if bool_decide (k = key) then (k, f) :: rest
      else (k, v) :: odict_set key f rest
  end.

(** [for n in (p1, p2): if n: for f in repo[n]: manifiles[normcase(f)] = f] *)
Definition manifiles_of (cl : p4client) (parents : list (option bytes))
    : M (gmap bytes bytes) :=
  ms <~ map_m (fun n =>
                 match n with
                 | None | Some EmptyString => ret []
                 | Some key => c <~ repo_getitem (c_repo cl) key ;; ret (ctx_manifest (c_repo cl) c)
                 end) parents ;;
  ret (foldl (fun m f => <[c_normcase cl f := f]> m) ∅ (concat ms)).

(** The loop of [_entries] taken when case is ignored *)
Fixpoint entries_ignorecase (cl : p4client) (manifiles : gmap bytes bytes)
    (files : list file_entry) (seen : gset bytes) (entries : list (bytes * file_entry))
    : M (list (bytes * file_entry)) :=
  match files with
  | [] => ret entries
  | f :: rest =>
      lf <~ localname f ;;
      let g := c_normcase cl lf in
      if bool_decide (g ∈ seen) then entries_ignorecase cl manifiles rest seen entries
      else entries_ignorecase cl manifiles rest ({[g]} ∪ seen)
             (odict_set (default lf (manifiles !! g)) f entries)
  end.

Fixpoint entries_update (files : list file_entry) (entries : list (bytes * file_entry))
    : M (list (bytes * file_entry)) :=
  match files with
  | [] => ret entries
  | f :: rest => lf <~ localname f ;; entries_update rest (odict_set lf f entries)
  end.

(** [_entries(repo, files, client, p1, p2)] *)
Definition _entries (cl : p4client) (files : list file_entry) (p1 p2 : option bytes)
    : M (list (bytes * file_entry)) :=
  if c_ignorecase cl
  then manifiles <~ manifiles_of cl [p1; p2] ;; entries_ignorecase cl manifiles files ∅ []
  else entries_update files [].

(** [repo.commitctx(ctx)] *)
Definition commitctx (ctx : memctx) : M unit :=
  fun w => (Ok tt, {| w_depot := w_depot w; w_log := w_log w; w_ui := w_ui w;
                      w_p4stat := w_p4stat w; w_p4pending := w_p4pending w;
                      w_commits := w_commits w ++ [ctx] |}).

(** [_common_commit(cl, repo, getfilectx, extra, files, p1, p2)]; the
    committed context stands for the changeset it becomes *)
Definition _common_commit (d : description) (extra : gmap bytes bytes) (files : list bytes)
    (p1 p2 : option bytes) : M memctx :=
  let extra :=
    match d_jobs d with
    | [] => extra
    | _ :: _ => <["p4jobs" := join " " (d_jobs d)]> extra
    end in
  let ctx := {| mc_p1 := p1; mc_p2 := p2; mc_desc := d_desc d; mc_files := files;
                mc_user := d_user d; mc_date := d_date d; mc_extra := extra |} in
  commitctx ctx ;;;
  ret ctx.

(** [bytes.endswith(suffix)] *)
Definition endswith (suffix s : bytes) : bool :=
  (String.length suffix <=? String.length s)%nat
  && bool_decide (drop_bytes (String.length s - String.length suffix) s = suffix).

Definition with_desc (d : description) (desc : bytes) : description :=
  {| d_change := d_change d; d_desc := desc; d_user := d_user d; d_date := d_date d;
     d_status := d_status d; d_client := d_client d; d_files := d_files d;
     d_jobs := d_jobs d |}.

(** The body of [for c in changes:] in [pull], from [client.describe(c)] to
    [_common_commit]: [c] is the changelist, [p4rev] the first parent and
    [startrev] tells whether initial history is being folded. *)
Definition pull_changelist (cl : p4client) (c : Z) (p4rev : option bytes) (startrev : bool)
    : M memctx :=
  let repo := c_repo cl in
  d <~ describe cl (fmt_d c) false false ;;
  files <~ fstat cl c startrev [] ;;
  (if c_keep cl
   then
     if startrev then sync cl c false true []
     else
       runs {| cmd_argv := ["revert"; "-k"]; cmd_files := map f_depot files;
               cmd_client := None; cmd_input := None |} false ;;;
       sync cl c false true
         (map f_depot (List.filter (fun f => bool_decide (f_action f = "R")) files)
          ++ map f_depot (List.filter (fun f => negb (bool_decide (f_action f = "R"))) files))
   else ret tt) ;;;
  nm <~ parsenodes cl (d_desc d) ;;
  pd <~ match last nm.1 with
        | Some parent =>
            pctx <~ repo_getitem repo parent ;;
            let hgfiles := List.filter (startswith ".hg") (ctx_files repo pctx) in
            d' <~ (if c_pull_trim_log cl
                   then
                     (* remove mercurial id from description in p4 *)
                     let desc :=
                       match nm.2 with
                       | Some m => take_bytes (m_start m) (d_desc d)
                                   +:+ drop_bytes (m_end m) (d_desc d)
                       | None => d_desc d
                       end in
                     let desc :=
                       if endswith (nl +:+ nl +:+ nl) desc
                       then take_bytes (String.length desc - 2) desc
                       else desc in
                     change cl (fmt_d c) (Some desc) true [] ;;;
                     ret (with_desc d desc)
                   else ret d) ;;
            ret (Some parent, hgfiles, d')
        | None => ret (None, [], d)
        end ;;
  let '(parent, hgfiles, d) := pd in
  let extra : gmap bytes bytes := if startrev then ∅ else {[ "p4" := fmt_d c ]} in
  entries <~ _entries cl files p4rev parent ;;
  _common_commit d extra (map fst entries ++ hgfiles) p4rev parent.

End Model.

(** * The rest of the client *)

(** [p in s] for byte strings: [p] occurs in [s] *)
Fixpoint occurs (p s : bytes) : bool :=
  match strip_prefix p s with
  | Some _ => true
  | None =>
      match s with
      | EmptyString => false
      | String _ s' => occurs p s'
      end
  end.

(** [bytes.replace(old, new)] for a one-byte [old] *)
Fixpoint replace_byte (old : ascii) (new : bytes) (s : bytes) : bytes :=
  match s with
  | EmptyString => EmptyString
  | String c s' =>
      (if Ascii.eqb c old then new else String c EmptyString) +:+ replace_byte old new s'
  end.

(** [encodename] as the source writes it:
    [name.replace(b'%',b'%25').replace(b'@',b'%40').replace(b'#',b'%23').replace(b'*',b'%2A')] *)
Definition encodename_replaces (name : bytes) : bytes :=
  replace_byte "*" "%2A"
    (replace_byte "#" "%23" (replace_byte "@" "%40" (replace_byte "%" "%25" name))).

Section Commands.
Variable py_int : bytes -> option Z.

Notation "x <~ m ;; k" := (bind m (fun x => k))
  (at level 100, m at next level, right associativity).
Notation "m ;;; k" := (bind m (fun _ => k))
  (at level 100, right associativity).

(** ** [_pullcommon]: shared code for pull and incoming *)

(** The options of pull and incoming: [opts.get(b'rev')], [opts[b'force']]
    and [opts[b'limit']] *)
Record pullopts := {
  l_rev : list bytes;
  l_force : bool;
  l_limit : option bytes;
}.

(** [list.sort()] on integers *)
Fixpoint insert_change (c : Z) (l : list Z) : list Z :=
  match l with
  | [] => [c]
  | x :: l' => if c <=? x then c :: l else x :: insert_change c l'
  end.

Definition sort_changes (l : list Z) : list Z := foldr insert_change [] l.

(** [_pullcommon(repo, client, opts, startrev)]; [nonempty] is [len(repo)]
    being non-zero.  Returns the sync point, [None] in an empty
    repository, and the changelists to pull. *)
Definition _pullcommon (cl : p4client) (nonempty : bool) (opts : pullopts) (startrev : Z)
    : M (option node * list Z) :=
  (* if present, --rev will be the last Perforce changeset number to get *)
  revs <~ map_m (int py_int) (l_rev opts) ;;
  let stoprev := match revs with [] => 0 | r :: rs => foldl Z.max r rs end in
  found <~ (if nonempty
            then r <~ find py_int cl None true None (negb (l_force opts)) ;; ret (Some r.1, r.2)
            else ret (None, 0)) ;;
  let p4rev := found.1 in
  let p4id := Z.max found.2 startrev in
  let p4cset :=
    if stoprev =? 0 then c_partial cl +:+ "...@" +:+ fmt_d p4id +:+ ",#head"
    else c_partial cl +:+ "...@" +:+ fmt_d p4id +:+ ",@" +:+ fmt_d stoprev in
  let argv :=
    if startrev <? 0
    then (* most recent changelists *)
      ["changes"; "-s"; "submitted"; "-m"; fmt_d (- startrev); "-L"; p4cset]
    else ["changes"; "-s"; "submitted"; "-L"; p4cset] in
  changes <~ run_fold (p4 argv) true
               (fun changes d =>
                  cb <~ getitem d "change" ;;
                  c <~ int py_int cb ;;
                  if negb (startrev =? 0) || negb (c =? p4id)
                  then ret (changes ++ [c])%list
                  else ret changes) [] ;;
  ret (p4rev, sort_changes changes).

(** ** [outgoing] and [subrevcommon] *)

(** [outgoing] with [ui.quiet] unset: the exit code, 0 standing for the
    [None] the source returns, and the text handed to [ui.write].  The
    letters of [b'MAR'] come out of [zip] as integers, which [int_to_bytes]
    prints in decimal.  [pathto] is [repo.pathto(f, cwd)].  For a client
    without a name [client.client or ''] is a [str], which the [bytes]
    pattern of the first message refuses. *)
Definition outgoing (cl : p4client) (opts : pushopts) (pathto : bytes -> bytes)
    : M (Z * list bytes) :=
  match c_client cl with
  | EmptyString => raise TypeError
  | _ => ui_status ("comparing with p4://" +:+ c_server cl +:+ " using client "
                    +:+ c_client cl +:+ nl)
  end ;;;
  r <~ _pushcommon py_int cl opts ;;
  match r with
  | None => ui_status ("no changes found" +:+ nl) ;;; ret (1, [])
  | Some plan =>
      let line (char : Z) (f : bytes * bytes) := fmt_d char +:+ " " +:+ pathto f.1 +:+ nl in
      ret (0, [pp_desc plan; nl +:+ "affected files:" +:+ nl]
              ++ map (line 77) (pp_mod plan) ++ map (line 65) (pp_add plan)
              ++ map (line 82) (pp_rem plan) ++ [nl])%list
  end.

(** [[int(c) for c in changes]], [None] where an [int] raises *)
Fixpoint ints (changes : list bytes) : option (list Z) :=
  match changes with
  | [] => Some []
  | c :: rest =>
      match py_int c, ints rest with
      | Some z, Some zs => Some (z :: zs)
      | _, _ => None
      end
  end.

(** [subrevcommon]: collect the list of changelist numbers from the command
    line, for a client already made.  The message for the lack of pending
    changelists is formatted from [mode], a [str], and a [bytes] pattern,
    which raises [TypeError]. *)
Definition subrevcommon (cl : p4client) (changes : list bytes) (all : bool) : M (list Z) :=
  match changes with
  | _ :: _ =>
      match ints changes with
      | Some cs => ret cs
      | None => raise (Abort "changelist must be a number")
      end
  | [] =>
      if all
      then
        pl <~ getpendinglist py_int cl ;;
        match map entry_change (List.filter (fun e => negb (entry_submitted e)) pl) with
        | [] => raise TypeError
        | cs => ret cs
        end
      else raise (Abort "no changelists specified")
  end.

(** ** [p4client.submit] *)

(** [submit(change)]: submit one changelist to p4; [chg] is the number as
    text.  The message for an error record reads [d['data']], a [str] key
    that no record has, and the note is formatted from [cl], which is
    [None] when no record carried [submittedChange]. *)
Definition submit (cl : p4client) (chg : bytes) : M unit :=
  n <~ run_fold (p4 ["submit"; "-c"; chg]) true
         (fun n d =>
            code <~ getitem d "code" ;;
            if bool_decide (code = "error") then raise (KeyError "data")
            else ret (match d !! "submittedChange" with
                      | Some v => Some v
                      | None => n
                      end)) None ;;
  match n with
  | Some v => ui_note ("submitted changelist " +:+ v +:+ nl)
  | None => raise TypeError
  end ;;;
  (* delete the files in the p4 client directory *)
  (if c_keep cl then ret tt else sync cl 0 false false []) ;;;
  (* invalidate cache *)
  set_p4stat None.

End Commands.

(** ** The path of a client: [p4://server/client/partial]

    The part of [p4client.__init__] that takes the path apart, up to the
    query for the client specification. *)

(** [s.split(sep, 1)] for a one-byte [sep]: the text before the first
    [sep], and the text after it when there is one *)
Fixpoint split1 (sep : ascii) (s : bytes) : bytes * option bytes :=
  match s with
  | EmptyString => (EmptyString, None)
  | String c s' =>
      if Ascii.eqb c sep then (EmptyString, Some s')
      else let '(a, b) := split1 sep s' in (String c a, b)
  end.

(** [s.split(sep)] for a one-byte [sep] *)
Fixpoint split_byte (sep : ascii) (s : bytes) : list bytes :=
  match s with
  | EmptyString => [EmptyString]
  | String c s' =>
      if Ascii.eqb c sep then EmptyString :: split_byte sep s'
      else match split_byte sep s' with
           | x :: xs => String c x :: xs
           | [] => [String c EmptyString]
           end
  end.

Inductive path_error :=
  | NotClient (msg : bytes)   (** [p4notclient] *)
  | BadClient (msg : bytes)   (** [p4badclient] *)
  | Unpack.                   (** [ValueError]: not enough values to unpack *)

(** The server, and the client with the partial path when the path names
    one *)
Definition parse_path (path : bytes) : path_error + bytes * option (bytes * bytes) :=
  if negb (startswith "p4:" path) then inl (NotClient (path +:+ " not a p4 repository"))
  else if negb (startswith "p4://" path)
  then inl (BadClient (path +:+ " not a p4 repository"))
  else
    match split1 "/" (drop_bytes 5 path) with
    | (_, None) => inl Unpack
    | (s, Some c) =>
        let server := if occurs ":" s then s else s +:+ ":1666" in
        match c with
        | EmptyString => inr (server, None)
        | _ =>
            match split1 "/" c with
            | (c', Some p) =>
                let p := join "/" (List.filter (fun q => negb (String.eqb q EmptyString))
                                     (split_byte "/" p)) in
                inr (server, Some (c', match p with
                                       | EmptyString => EmptyString
                                       | _ => p +:+ "/"
                                       end))
            | (_, None) => inr (server, Some (c, EmptyString))
            end
        end
    end.

(** * A small repository and depot

    The instance the properties below are run on. *)

Module Example.

(** An instance of [int] for the decimal numerals the examples use *)
Definition decimal (b : bytes) : option Z :=
  let '(ds, r) := take_digits b in
  match ds, r with
  | String _ _, EmptyString =>
      Some (fold_left (fun acc c => acc * 10 + (Z.of_N (N_of_ascii c) - 48))
                      (list_ascii_of_string ds) 0)
  | _, _ => None
  end.

(** A linear history [0 - 1 - 2 - 3]; revision 0 was pulled from
    changelist 100. *)
Definition node_of (r : rev) : node :=
  match r with
  | 0 => "aaaaaaaaaaaaaaaaaaaa"
  | 1 => "bbbbbbbbbbbbbbbbbbbb"
  | 2 => "cccccccccccccccccccc"
  | 3 => "dddddddddddddddddddd"
  | _ => nullid
  end.

Definition revs : list rev := [0; 1; 2; 3].

Definition lookup (key : bytes) : option rev :=
  if bool_decide (key = "tip") || bool_decide (key = "default") then Some 3
  else if bool_decide (key = nullid) then Some nullrev
  else head (List.filter (fun r => bool_decide (key = node_of r)
                                   || bool_decide (key = hex (node_of r))) revs).

Definition between (roots heads : list node) : list node :=
  match roots, heads with
  | [a], [b] =>
      match lookup a, lookup b with
      | Some ra, Some rb =>
          map node_of (List.filter (fun r => (ra <=? r) && (r <=? rb)) (nullrev :: revs))
      | _, _ => []
      end
  | _, _ => []
  end.

Definition repo (status : list bytes * list bytes * list bytes) : hgrepo :=
  {| ctx_node := node_of;
     ctx_extra := fun r => if r =? 0 then {[ "p4" := "100" ]} else ∅;
     ctx_files := fun _ => ["a.txt"];
     ctx_parents := fun r => if 0 <? r then [r - 1] else [nullrev];
     ctx_children := fun r => if r <? 3 then [r + 1] else [];
     ctx_description := fun r => "change " +:+ fmt_d r;
     ctx_flags := fun _ _ => EmptyString;
     ctx_data := fun r f => f +:+ "@" +:+ fmt_d r;
     repo_lookup := lookup;
     nodesbetween := between;
     revpair := fun _ => None;
     repo_status := fun _ _ => status;
     pathcopies := fun _ _ => {[ "b.txt" := "c.txt" ]};
     ctx_manifest := fun _ => ["a.txt"; "c.txt"] |}.

Definition client (status : list bytes * list bytes * list bytes) : p4client :=
  {| c_repo := repo status; c_server := "perforce:1666"; c_client := "ws";
     c_partial := EmptyString; c_rootpart := "/ws/"; c_keep := true; c_ignorecase := false;
     c_verbose := false; c_move := Some true; c_copy := Some true;
     c_pull_trim_log := false; c_encode := id; c_decode := id;
     c_pathjoin := fun a b => a +:+ b; c_normcase := id; c_pconvert := id;
     c_getuser := fun user _ => user |}.

Definition changed : list bytes * list bytes * list bytes :=
  (["a.txt"; ".hgtags"], ["b.txt"], ["c.txt"]).

(** A depot that lists the changelists [pending] for the client, describes
    changelist 101 and accepts new changelists as number 102. *)
Definition depot (pending : list p4record) (history : list p4cmd) (c : p4cmd)
    : list p4record :=
  match cmd_argv c with
  | ["changes"; "-l"; "-c"; _; "-s"; "pending"] => pending
  | ["changes"; "-s"; "pending"; "-c"; _; "-l"] => pending
  | ["describe"; _; _] =>
      [list_to_map [("change", "101"); ("client", "ws"); ("status", "submitted");
                    ("desc", default EmptyString (head pending ≫= (.!! "desc")));
                    ("user", "alice"); ("time", "1700000000");
                    ("depotFile0", "//depot/a.txt"); ("rev0", "3");
                    ("type0", "text"); ("action0", "import")]]
  | ["change"; "-o"] => [list_to_map [("Change", "new"); ("Client", "ws")]]
  | ["change"; "-i"] =>
      [list_to_map [("code", "info"); ("data", "Change 102 created with 3 open file(s).")]]
  | _ => []
  end.

Definition world0 (pending : list p4record) : world :=
  {| w_depot := depot pending; w_log := []; w_ui := []; w_p4stat := None;
     w_p4pending := []; w_commits := [] |}.

Definition marker (a b : rev) : bytes :=
  "{{mercurial " +:+ hex (node_of a) +:+ ":" +:+ hex (node_of b) +:+ "}}".

Definition changelist (num : bytes) (desc : bytes) : p4record :=
  list_to_map [("change", num); ("desc", desc); ("status", "pending"); ("client", "ws")].

(** The depot after revision 2, and after revisions 1 to 3, went into the
    pending changelist 101 *)
Definition pushed_once : world := world0 [changelist "101" ("fix" +:+ marker 2 2)].
Definition pushed_all : world := world0 [changelist "101" ("fix" +:+ marker 1 3)].

Definition opts (force : bool) : pushopts :=
  {| o_force := force; o_rev := []; o_submit := false; o_job := [] |}.

(** A history with a merge: [3] has the parents [1] and [2], both
    children of [0]; nothing was pulled from the depot. *)
Definition diamond : hgrepo :=
  let linear := repo ([], [], []) in
  {| ctx_node := node_of;
     ctx_extra := fun _ => ∅;
     ctx_files := ctx_files linear;
     ctx_parents := fun r =>
       if r =? 3 then [1; 2] else if (r =? 1) || (r =? 2) then [0] else [nullrev];
     ctx_children := fun r =>
       if r =? 0 then [1; 2] else if (r =? 1) || (r =? 2) then [3] else [];
     ctx_description := ctx_description linear;
     ctx_flags := ctx_flags linear;
     ctx_data := ctx_data linear;
     repo_lookup := lookup;
     nodesbetween := between;
     revpair := revpair linear;
     repo_status := repo_status linear;
     pathcopies := pathcopies linear;
     ctx_manifest := ctx_manifest linear |}.

(** The files of a push that touches repository metadata only *)
Definition metadata_only : list bytes * list bytes * list bytes :=
  ([".hgtags"], [".hgignore"], []).

(** A changelist record whose file was imported *)
Definition imported : p4record :=
  list_to_map [("depotFile0", "//depot/a.txt"); ("rev0", "3"); ("type0", "text");
               ("action0", "import")].

(** Two files copied from one that is removed *)
Definition two_copies : gmap bytes (bytes * bool) :=
  {[ "b.txt" := ("a.txt", false); "c.txt" := ("a.txt", false) ]}.

End Example.

(** * More of the depot

    A depot with history and files, a depot that remembers what was
    pushed to it, a history with a merge, and clients with other
    settings. *)

Module Samples.
Import Example.

(** A client of the repository with the merge, where nothing was pulled *)
Definition unsynced : p4client :=
  {| c_repo := diamond; c_server := "perforce:1666"; c_client := "ws";
     c_partial := EmptyString; c_rootpart := "/ws/"; c_keep := true; c_ignorecase := false;
     c_verbose := false; c_move := Some true; c_copy := Some true;
     c_pull_trim_log := false; c_encode := id; c_decode := id;
     c_pathjoin := fun a b => a +:+ b; c_normcase := id; c_pconvert := id;
     c_getuser := fun user _ => user |}.

(** A client that is not told whether the depot can move files *)
Definition probing : p4client :=
  {| c_repo := repo changed; c_server := "perforce:1666"; c_client := "ws";
     c_partial := EmptyString; c_rootpart := "/ws/"; c_keep := true; c_ignorecase := false;
     c_verbose := false; c_move := None; c_copy := Some false;
     c_pull_trim_log := false; c_encode := id; c_decode := id;
     c_pathjoin := fun a b => a +:+ b; c_normcase := id; c_pconvert := id;
     c_getuser := fun user _ => user |}.

(** ASCII lower case *)
Definition lower (s : bytes) : bytes :=
  string_of_list_ascii
    (map (fun c => if ((65 <=? N_of_ascii c) && (N_of_ascii c <=? 90))%N
                   then ascii_of_N (N_of_ascii c + 32) else c)
       (list_ascii_of_string s)).

(** A client that leaves the workspace alone, ignores case and takes the
    marker off the descriptions it pulls *)
Definition trimming : p4client :=
  {| c_repo := repo changed; c_server := "perforce:1666"; c_client := "ws";
     c_partial := EmptyString; c_rootpart := "/ws/"; c_keep := false; c_ignorecase := true;
     c_verbose := false; c_move := Some true; c_copy := Some true;
     c_pull_trim_log := true; c_encode := id; c_decode := id;
     c_pathjoin := fun a b => a +:+ b; c_normcase := lower; c_pconvert := id;
     c_getuser := fun user _ => user |}.

Definition submitted (num : bytes) : p4record :=
  list_to_map [("change", num); ("desc", "work"); ("status", "submitted"); ("client", "ws")].

Definition opened (depot_file client_file : bytes) : p4record :=
  list_to_map [("depotFile", depot_file); ("clientFile", client_file); ("headRev", "2");
               ("headType", "text"); ("headAction", "edit")].

(** A depot that, besides, lists the submitted changelists 103, 101 and
    100, knows the files of a changelist and the [move] command, and lets
    a changelist be updated and submitted. *)
Definition history (pending : list p4record) (log : list p4cmd) (c : p4cmd)
    : list p4record :=
  match cmd_argv c with
  | "changes" :: "-s" :: "submitted" :: _ => [submitted "103"; submitted "101"; submitted "100"]
  | "fstat" :: _ =>
      [list_to_map [("desc", "work")];
       opened "//depot/a.txt" "/ws/a.txt"; opened "//depot/README" "/ws/README";
       opened "//depot/Readme" "/ws/Readme"]
  | ["change"; "-o"; _] => [list_to_map [("Change", "101"); ("Client", "ws")]]
  | ["change"; "-i"; "-u"] => [list_to_map [("code", "info"); ("data", "Change 101 updated.")]]
  | ["help"; "move"] => [list_to_map [("code", "info"); ("data", "move -- Move files")]]
  | ["submit"; "-c"; _] =>
      [list_to_map [("code", "stat"); ("change", "101"); ("locked", "3")];
       list_to_map [("code", "stat"); ("submittedChange", "104")]]
  | _ => depot pending log c
  end.

Definition world1 (pending : list p4record) : world :=
  {| w_depot := history pending; w_log := []; w_ui := []; w_p4stat := None;
     w_p4pending := []; w_commits := [] |}.

(** The depot with the pending changelists 103, 100 and 101, listed in
    that order *)
Definition three_pending : world :=
  world1 [changelist "103" "later"; changelist "100" "synced";
          changelist "101" ("fix" +:+ marker 1 3)].

(** The depot after a push of the range [1..3] as changelist 101 *)
Definition pushed_range : world :=
  world1 [changelist "101" ("fix" +:+ nl +:+ nl +:+ marker 1 3 +:+ nl)].

(** A pending list with the submitted changelists 100 and 103 *)
Definition some_pending : list pending_entry :=
  [(100, true, [], "synced", "ws"); (101, false, [], "fix", "ws");
   (103, true, [], "later", "ws"); (104, false, [], "next", "ws")].

(** Files of a changelist, two of them with names that differ in case *)
Definition named (depot_file local : bytes) : file_entry :=
  {| f_depot := depot_file; f_rev := 2; f_type := "text"; f_action := "M";
     f_local := Some local |}.

Definition some_files : list file_entry :=
  [named "//depot/a.txt" "a.txt"; named "//depot/README" "README";
   named "//depot/Readme" "Readme"; named "//depot/old/a.txt" "a.txt"].

(** A depot that remembers the changelists created with [change -i]: it
    numbers them from 102 and lists them as pending, each with the
    description it was given. *)
Definition forms (log : list p4cmd) : list p4record :=
  omap (fun c => match cmd_argv c with
                 | ["change"; "-i"] => cmd_input c
                 | _ => None
                 end) log.

Definition created (log : list p4cmd) : list p4record :=
  imap (fun i form =>
          list_to_map [("change", fmt_d (102 + Z.of_nat i));
                       ("desc", default EmptyString (form !! "Description"));
                       ("status", "pending"); ("client", "ws")])
       (forms log).

Definition recording (log : list p4cmd) (c : p4cmd) : list p4record :=
  match cmd_argv c with
  | ["changes"; "-l"; "-c"; _; "-s"; "pending"] => created log
  | ["changes"; "-s"; "pending"; "-c"; _; "-l"] => created log
  | ["change"; "-i"] =>
      [list_to_map [("code", "info");
                    ("data", "Change " +:+ fmt_d (102 + Z.of_nat (length (forms log)))
                             +:+ " created with 3 open file(s).")]]
  | _ => depot [] log c
  end.

Definition fresh : world :=
  {| w_depot := recording; w_log := []; w_ui := []; w_p4stat := None;
     w_p4pending := []; w_commits := [] |}.

(** The world a first push of the linear history leaves *)
Definition pushed_linear : world := (push decimal (client changed) (opts false) fresh).2.

(** The history with the merge, revision 0 pulled from changelist 100;
    the nodes between two changesets are the descendants of the one that
    are ancestors of the other. *)
Definition ancestor (a b : rev) : bool :=
  (a =? b) || ((a =? 0) && (0 <? b)) || (((a =? 1) || (a =? 2)) && (b =? 3)).

Definition between_merged (roots heads : list node) : list node :=
  match roots, heads with
  | [a], [b] =>
      match lookup a, lookup b with
      | Some ra, Some rb =>
          map node_of (List.filter (fun r => ancestor ra r && ancestor r rb) revs)
      | _, _ => []
      end
  | _, _ => []
  end.

Definition merged : hgrepo :=
  {| ctx_node := node_of;
     ctx_extra := ctx_extra (repo changed);
     ctx_files := ctx_files diamond;
     ctx_parents := ctx_parents diamond;
     ctx_children := ctx_children diamond;
     ctx_description := ctx_description diamond;
     ctx_flags := ctx_flags diamond;
     ctx_data := ctx_data diamond;
     repo_lookup := lookup;
     nodesbetween := between_merged;
     revpair := revpair diamond;
     repo_status := repo_status (repo changed);
     pathcopies := pathcopies diamond;
     ctx_manifest := ctx_manifest diamond |}.

Definition merging : p4client :=
  {| c_repo := merged; c_server := "perforce:1666"; c_client := "ws";
     c_partial := EmptyString; c_rootpart := "/ws/"; c_keep := true; c_ignorecase := false;
     c_verbose := false; c_move := Some true; c_copy := Some true;
     c_pull_trim_log := false; c_encode := id; c_decode := id;
     c_pathjoin := fun a b => a +:+ b; c_normcase := id; c_pconvert := id;
     c_getuser := fun user _ => user |}.

(** The world a first push of the history with the merge leaves *)
Definition pushed_merged : world := (push decimal merging (opts false) fresh).2.

End Samples.

(** * Properties

    ** Vocabulary *)

(** The revision numbers of the parents of a changeset are smaller than
    its own: the changesets form a finite directed acyclic graph. *)
Definition parents_precede (repo : hgrepo) : Prop :=
  forall r p, p ∈ ctx_parents repo r -> p <> nullrev -> 0 <= p < r.

(** Every changeset on [path] has its parents in [seen]. *)
Definition closed (repo : hgrepo) (seen : gset rev) (path : list rev) : Prop :=
  forall c p, c ∈ path -> p ∈ ctx_parents repo c -> p <> nullrev -> p ∈ seen.

(** Every run of [m] relates the world it starts in to the world it ends
    in by [R], whether it returns or raises. *)
Definition steps (R : relation world) {A} (m : M A) : Prop :=
  forall w r w', m w = (r, w') -> R w w'.

(** Worlds that differ at most in the messages of the user interface *)
Definition same_but_ui (w w' : world) : Prop :=
  w_depot w' = w_depot w /\ w_log w' = w_log w /\ w_p4stat w' = w_p4stat w
  /\ w_p4pending w' = w_p4pending w /\ w_commits w' = w_commits w.

Definition same_log (w w' : world) : Prop := w_log w' = w_log w.

(** The subcommands that only read from the depot *)
Definition is_query (c : p4cmd) : bool :=
  match cmd_argv c with
  | verb :: _ => bool_decide (verb ∈ ["changes"; "describe"; "fstat"; "where"; "help"; "labels"])
  | [] => false
  end.

(** The log of [w'] extends that of [w] by queries. *)
Definition asked (w w' : world) : Prop :=
  exists l, w_log w' = (w_log w ++ l)%list /\ Forall (fun c => is_query c = true) l.

(** [w'] is reached from [w] by reading only: queries to the depot and
    messages to the user, the caches and the commits untouched. *)
Definition reads (w w' : world) : Prop :=
  w_depot w' = w_depot w /\ asked w w' /\ w_commits w' = w_commits w
  /\ w_p4stat w' = w_p4stat w /\ w_p4pending w' = w_p4pending w.

(** [w'] is reached from [w] by asking the depot questions only: the depot
    is the same, the commands issued in between are queries, nothing was
    committed and a pending cache that was read is still there. *)
Definition quiet (w w' : world) : Prop :=
  w_depot w' = w_depot w /\ asked w w' /\ w_commits w' = w_commits w
  /\ (is_Some (w_p4stat w) -> is_Some (w_p4stat w')).

(** The set [getpending] tests against *)
Definition p4stat_of (w : world) : gset node := default ∅ (w_p4stat w).

(** A changeset the check refuses: pending or submitted in the depot, or
    with a child converted from the depot *)
Definition already_in_p4 (repo : hgrepo) (stat : gset node) (n : rev) : Prop :=
  ctx_node repo n ∈ stat \/ has_p4_child repo n = true.

Definition push_conflict (repo : hgrepo) (n : rev) : exn :=
  Abort ("can not push, changeset " +:+ short (ctx_node repo n) +:+ " is already in p4").

(** The node [x] is recorded in the pending cache of [w]. *)
Definition pending_at (cl : p4client) (w : world) (x : node) : Prop :=
  exists n, repo_lookup (c_repo cl) x = Some n /\ ctx_node (c_repo cl) n ∈ p4stat_of w.

Definition not_pending_at (cl : p4client) (w : world) (x : node) : Prop :=
  exists n, repo_lookup (c_repo cl) x = Some n /\ ctx_node (c_repo cl) n ∉ p4stat_of w.

Definition no_changes_found : ui_event := UiStatus ("no changes found" +:+ nl).

Global Instance ui_event_eq_dec : EqDecision ui_event.
Proof. solve_decision. Defined.

(** The membership set is the union of the nodes of the listed entries. *)
Definition cache_consistent (w : world) : Prop :=
  forall n, n ∈ p4stat_of w <-> exists e, e ∈ w_p4pending w /\ n ∈ entry_nodes e.

(** A run that starts with the set present and consistent ends so. *)
Definition keeps_cache (w w' : world) : Prop :=
  is_Some (w_p4stat w) -> cache_consistent w ->
  is_Some (w_p4stat w') /\ cache_consistent w'.

(** The nodes a description resolves to: those of its marker, none
    without a marker or where an end does not resolve *)
Definition marker_nodes (repo : hgrepo) (desc : bytes) : list node :=
  match re_hgid_search desc with
  | Some m => default [] (resolve_marker repo m)
  | None => []
  end.

Definition ignoring_note (m : hgid_match) : ui_event :=
  UiNote ("ignoring hg revision range " +:+ group1 m +:+ " from p4" +:+ nl).

(** The marker text of the specification, [encodeMarker(descendantId,
    ancestorId?)]: the descendant id, preceded by the ancestor id and a
    colon where there is one *)
Definition encode_marker (descendant : bytes) (ancestor : option bytes) : bytes :=
  "{{mercurial "
  +:+ match ancestor with
      | Some a => a +:+ ":" +:+ descendant
      | None => descendant
      end
  +:+ "}}".

(** What holds of the lists of [sort_add] once the adds [done_] have been
    sorted: the moves come from the adds and their sources were removals,
    a removal is still marked exactly when no move took it, and every
    copied add went to one of the three lists and never to [add2]. *)
Record sorted_inv (move copy : bool) (cpy : gmap bytes (bytes * bool))
    (rem_ done_ : list (bytes * bytes)) (acc : sorted_adds) : Prop := {
  inv_rems : forall r,
    s_rems acc !! r = Some true <-> r ∈ rem_.*1 /\ r ∉ (s_moves acc).*1.*1;
  inv_moves : forall r f g,
    (r, f, g) ∈ s_moves acc -> (f, g) ∈ done_ /\ exists chg, cpy !! f = Some (r, chg);
  inv_moves_src : forall r f g, (r, f, g) ∈ s_moves acc -> r ∈ rem_.*1;
  inv_add2 : forall f g, (f, g) ∈ s_add2 acc -> (f, g) ∈ done_ /\ cpy !! f = None;
  inv_mod2 : forall f g, (f, g) ∈ s_mod2 acc -> (f, g) ∈ done_;
  inv_copies : forall r f, (r, f) ∈ s_copies acc -> f ∈ done_.*1 /\ copy = true;
  inv_ntg : forall r f, (r, f) ∈ s_ntg acc -> f ∈ done_.*1;
  inv_sorted : forall f g r chg,
    (f, g) ∈ done_ -> cpy !! f = Some (r, chg) ->
    (exists g', (r, f, g') ∈ s_moves acc) \/ (r, f) ∈ s_copies acc \/ (r, f) ∈ s_ntg acc;
  inv_integrated : forall f g r chg,
    move = false -> copy = false ->
    (f, g) ∈ done_ -> cpy !! f = Some (r, chg) -> (r, f) ∈ s_ntg acc;
}.

(** The lists before the first add *)
Definition sorted0 (rem_ : list (bytes * bytes)) : sorted_adds :=
  {| s_rems := rems_of rem_; s_moves := []; s_copies := []; s_ntg := [];
     s_add2 := []; s_mod2 := [] |}.

(** [f.startswith(b'.hg')] *)
Definition dothg (f : bytes) : bool := startswith ".hg" f.

(** The files a push opens on the depot: those edited, added and deleted,
    the destinations of the copies and of the integrates, and both ends of
    the moves *)
Definition staged_files (st : staging) : list bytes :=
  ((g_mod st ++ g_mod2 st ++ g_add st ++ g_rem st).*1
   ++ (g_copies st).*2 ++ (g_ntg st).*2
   ++ map (fun m => m.1.2) (g_moves st) ++ map (fun m => m.1.1) (g_moves st))%list.

(** The two queries of [_readp4stat], in a repository synced to changelist
    [p4id] *)
Definition head_query (cl : p4client) (p4id : Z) : p4cmd :=
  p4 ["changes"; "-l"; "-c"; c_client cl; c_partial cl +:+ "...@" +:+ fmt_d p4id +:+ ",#head"].

Definition pending_query (cl : p4client) : p4cmd :=
  p4 ["changes"; "-l"; "-c"; c_client cl; "-s"; "pending"].

(** The records the depot lists when the pending cache is read in [w]: its
    answers to the two queries, the second asked after the first *)
Definition listed (cl : p4client) (w : world) (p4id : Z) : list p4record :=
  (loaditer (w_depot w (w_log w) (head_query cl p4id))
   ++ loaditer (w_depot w (w_log w ++ [head_query cl p4id]) (pending_query cl)))%list.

(** The record [d] is of a changelist other than [p4id] whose description
    carries a marker that resolves to nodes with [x] among them. *)
Definition records_node (py_int : bytes -> option Z) (cl : p4client) (p4id : Z)
    (d : p4record) (x : node) : Prop :=
  exists c cn desc,
    d !! "change" = Some c /\ py_int c = Some cn /\ cn <> p4id
    /\ d !! "desc" = Some desc /\ x ∈ marker_nodes (c_repo cl) desc.

(** The depot and the log are as they were, and a membership set that
    was there has only grown. *)
Definition grows (w w' : world) : Prop :=
  w_depot w' = w_depot w /\ w_log w' = w_log w
  /\ (is_Some (w_p4stat w) -> is_Some (w_p4stat w') /\ p4stat_of w ⊆ p4stat_of w').

(** ** Vocabulary for the rest of the client *)

(** A changeset the search of [find] passes over: it carries no [p4] extra
    data, or a changelist number that [p4rev] does not accept. *)
Definition passed_over (py_int : bytes -> option Z) (repo : hgrepo) (p4rev : option Z)
    (c : rev) : Prop :=
  match ctx_extra repo c !! "p4" with
  | None => True
  | Some v => exists q, py_int v = Some q /\ p4rev_accepts p4rev q = false
  end.

(** A record that makes [run] abort: its code is [error] and it has data. *)
Definition is_error (d : p4record) : bool :=
  bool_decide (d !! "code" = Some "error") && bool_decide (is_Some (d !! "data")).

(** The changelist numbers of a pending list never decrease. *)
Fixpoint ascending (l : list pending_entry) : Prop :=
  match l with
  | [] => True
  | e :: l' => Forall (fun x => entry_change e <= entry_change x) l' /\ ascending l'
  end.

(** A list of changelist numbers that never decreases *)
Fixpoint increasing (l : list Z) : Prop :=
  match l with
  | [] => True
  | c :: l' => Forall (fun x => c <= x) l' /\ increasing l'
  end.

(** The file entry [fstat] makes of a record of the depot: the record is
    not a description, its client file is outside [.hg] and lies under the
    root of the client, and the entry carries the rest of that path as
    local name and the class of the head action. *)
Definition fstat_entry (cl : p4client) (d : p4record) (f : file_entry) : Prop :=
  d !! "desc" = None
  /\ d !! "depotFile" = Some (f_depot f)
  /\ f_type f = default EmptyString (d !! "headType")
  /\ actions !! default "add" (d !! "headAction") = Some (f_action f)
  /\ exists cf lf,
       d !! "clientFile" = Some cf /\ startswith ".hg" cf = false
       /\ f_local f = Some lf /\ c_pconvert cl cf = c_rootpart cl +:+ lf.

(** [f] is the last file of [files] with the local name [k] *)
Definition last_named (files : list file_entry) (k : bytes) (f : file_entry) : Prop :=
  exists l1 l2, files = (l1 ++ f :: l2)%list /\ f_local f = Some k
                /\ Forall (fun g => f_local g <> Some k) l2.

(** [f] is the first file of [files] whose local name is [lf] up to case *)
Definition first_named (cl : p4client) (files : list file_entry) (lf : bytes)
    (f : file_entry) : Prop :=
  exists l1 l2, files = (l1 ++ f :: l2)%list /\ f_local f = Some lf
                /\ Forall (fun g => forall lg, f_local g = Some lg ->
                                      c_normcase cl lg <> c_normcase cl lf) l1.

(** Every exception a run of [m] ends in satisfies [P]. *)
Definition only_raises (P : exn -> Prop) {A} (m : M A) : Prop :=
  forall w e w', m w = (Raise e, w') -> P e.

(** The exceptions of [p4client.submit]: the abort of [run] or [sync] on
    an error of the depot, a missing key, and the [TypeError] of a message
    that cannot be formatted *)
Definition submit_error (e : exn) : Prop :=
  match e with
  | Abort msg => exists data, msg = "p4: " +:+ data
  | KeyError _ | TypeError => True
  | _ => False
  end.

(** The files the four lists of an accumulator account for *)
Definition accounted (acc : sorted_adds) : list bytes :=
  (map (fun m => m.1.2) (s_moves acc) ++ (s_copies acc).*2 ++ (s_ntg acc).*2
   ++ (s_add2 acc).*1)%list.

(** A source taken by a move is marked as taken, and is taken once. *)
Definition moved_once (acc : sorted_adds) : Prop :=
  NoDup (map (fun m => m.1.1) (s_moves acc))
  /\ forall r, r ∈ map (fun m => m.1.1) (s_moves acc) -> s_rems acc !! r <> Some true.

(** The escape of one byte of a file name *)
Definition escape (c : ascii) : bytes :=
  if bool_decide (c = "%"%char) then "%25"
  else if bool_decide (c = "@"%char) then "%40"
  else if bool_decide (c = "#"%char) then "%23"
  else if bool_decide (c = "*"%char) then "%2A"
  else String c EmptyString.

(** The entries recorded on the way are not for changelist [p4id]. *)
Definition skips (p4id : Z) (w w' : world) : Prop :=
  Forall (fun e => entry_change e <> p4id) (w_p4pending w) ->
  Forall (fun e => entry_change e <> p4id) (w_p4pending w').

(** A decimal digit *)
Definition is_digit (c : ascii) : bool := ((48 <=? N_of_ascii c) && (N_of_ascii c <=? 57))%N.

(** * Reasoning about commands *)

(* [set_solver] clears hypotheses by name, some of them already gone *)
Set Warnings "-clear-no-such-hyp".

Lemma bind_unfold {A B} (m : M A) (k : A -> M B) w :
  bind m k w = match m w with
               | (Ok a, w') => k a w'
               | (Raise e, w') => (Raise e, w')
               end.
Proof. reflexivity. Qed.

Lemma bind_ok {A B} (m : M A) (k : A -> M B) w a w1 :
  m w = (Ok a, w1) -> bind m k w = k a w1.
Proof. intros H. unfold bind. by rewrite H. Qed.

Lemma bind_raise {A B} (m : M A) (k : A -> M B) w e w1 :
  m w = (Raise e, w1) -> bind m k w = (Raise e, w1).
Proof. intros H. unfold bind. by rewrite H. Qed.

Lemma bind_ok_inv {A B} (m : M A) (k : A -> M B) w b w' :
  bind m k w = (Ok b, w') -> exists a w1, m w = (Ok a, w1) /\ k a w1 = (Ok b, w').
Proof.
  unfold bind. destruct (m w) as [[a|e] w1]; [eauto|discriminate].
Qed.

(** A run is determined by its result: the equation to check on a concrete
    input is the one between results. *)
Lemma run_eq {A} (m : M A) (w : world) (r : result A) : (m w).1 = r -> m w = (r, (m w).2).
Proof. intros <-. by destruct (m w). Defined.

Section Steps.
Context (R : relation world) `{!PreOrder R}.

Lemma steps_ret {A} (a : A) : steps R (ret a).
Proof. intros w r w' H. injection H as _ <-. reflexivity. Qed.

Lemma steps_raise {A} e : steps R (@raise A e).
Proof. intros w r w' H. injection H as _ <-. reflexivity. Qed.

Lemma steps_get_world : steps R get_world.
Proof. intros w r w' H. injection H as _ <-. reflexivity. Qed.

Lemma steps_bind {A B} (m : M A) (k : A -> M B) :
  steps R m -> (forall a, steps R (k a)) -> steps R (bind m k).
Proof.
  intros Hm Hk w r w' H. unfold bind in H.
  destruct (m w) as [[a|e] w1] eqn:E.
  - etrans; [eapply Hm, E|eapply Hk, H].
  - injection H as _ <-. eapply Hm, E.
Qed.

Lemma steps_getitem d key : steps R (getitem d key).
Proof. unfold getitem. destruct (d !! key); [apply steps_ret|apply steps_raise]. Qed.

Lemma steps_repo_getitem repo key : steps R (repo_getitem repo key).
Proof.
  unfold repo_getitem. destruct (repo_lookup repo key); [apply steps_ret|apply steps_raise].
Qed.

Lemma steps_first_parent repo ctx : steps R (first_parent repo ctx).
Proof.
  unfold first_parent. destruct (ctx_parents repo ctx); [apply steps_raise|apply steps_ret].
Qed.

Lemma steps_for_each {A} (xs : list A) body :
  (forall x, steps R (body x)) -> steps R (for_each xs body).
Proof.
  intros Hb. induction xs as [|x xs IH]; simpl; [apply steps_ret|].
  apply steps_bind; [apply Hb|done].
Qed.

Lemma steps_map_m {A B} (f : A -> M B) xs :
  (forall x, steps R (f x)) -> steps R (map_m f xs).
Proof.
  intros Hf. induction xs as [|x xs IH]; simpl; [apply steps_ret|].
  apply steps_bind; [apply Hf|intros y].
  apply steps_bind; [done|intros ys]. apply steps_ret.
Qed.
End Steps.

Global Instance same_but_ui_preorder : PreOrder same_but_ui.
Proof.
  split.
  - by intros w.
  - intros w1 w2 w3 (?&?&?&?&?) (?&?&?&?&?). repeat split; congruence.
Qed.

Lemma ui_emit_same e : steps same_but_ui (ui_emit e).
Proof. intros w r w' H. injection H as _ <-. by repeat split. Qed.

Lemma asked_same_log w w' : w_log w' = w_log w -> asked w w'.
Proof. intros H. exists []. by rewrite app_nil_r. Qed.

Lemma asked_refl w : asked w w.
Proof. by apply asked_same_log. Qed.

Lemma asked_trans w1 w2 w3 : asked w1 w2 -> asked w2 w3 -> asked w1 w3.
Proof.
  intros (l1 & Hl1 & Hq1) (l2 & Hl2 & Hq2). exists (l1 ++ l2)%list.
  split; [by rewrite Hl2, Hl1, app_assoc|by apply Forall_app].
Qed.

Global Instance reads_preorder : PreOrder reads.
Proof.
  split.
  - intros w. split; [done|]. split; [apply asked_refl|]. by repeat split.
  - intros w1 w2 w3 (?&?&?&?&?) (?&?&?&?&?).
    split; [congruence|]. split; [by eapply asked_trans|]. repeat split; congruence.
Qed.

Global Instance quiet_preorder : PreOrder quiet.
Proof.
  split.
  - intros w. split; [done|]. split; [apply asked_refl|]. by split.
  - intros w1 w2 w3 (?&?&?&?) (?&?&?&?).
    split; [congruence|]. split; [by eapply asked_trans|]. split; [congruence|auto].
Qed.

Lemma same_but_ui_reads w w' : same_but_ui w w' -> reads w w'.
Proof.
  intros (Hd & Hl & Hs & Hp & Hc). split; [done|]. split; [|by repeat split].
  exists []. by rewrite app_nil_r.
Qed.

Lemma reads_quiet w w' : reads w w' -> quiet w w'.
Proof.
  intros (?&?&?&Hs&?). split; [done|]. split; [done|]. split; [done|]. by rewrite Hs.
Qed.

Lemma same_but_ui_quiet w w' : same_but_ui w w' -> quiet w w'.
Proof. intros H. by apply reads_quiet, same_but_ui_reads. Qed.

Lemma steps_weaken (R R' : relation world) {A} (m : M A) :
  (forall w w', R w w' -> R' w w') -> steps R m -> steps R' m.
Proof. intros HR Hm w r w' H. eapply HR, Hm, H. Qed.

Lemma reads_ui_emit e : steps reads (ui_emit e).
Proof. eapply steps_weaken; [apply same_but_ui_reads|apply ui_emit_same]. Qed.

Lemma reads_popen c : is_query c = true -> steps reads (popen c).
Proof.
  intros Hq w r w' H. injection H as _ <-. split; [done|]. split; [|by repeat split].
  exists [c]. split; [done|]. by constructor.
Qed.

Lemma quiet_set_p4stat s : steps quiet (set_p4stat (Some s)).
Proof.
  intros w r w' H. injection H as _ <-.
  split; [done|]. split; [by apply asked_same_log|]. by split.
Qed.

Lemma quiet_set_p4pending l : steps quiet (set_p4pending l).
Proof.
  intros w r w' H. injection H as _ <-.
  split; [done|]. split; [by apply asked_same_log|]. by split.
Qed.

(** One step through a [bind], for a relation that is a preorder *)
Ltac step := apply steps_bind; [apply _ | | intros ?].
Ltac leaf :=
  first [ apply steps_ret; apply _ | apply steps_raise; apply _
        | apply steps_get_world; apply _ | apply steps_getitem; apply _
        | apply steps_repo_getitem; apply _ | apply steps_first_parent; apply _ ].

Section Reads.
Variable py_int : bytes -> option Z.

Lemma steps_int R `{!PreOrder R} b : steps R (int py_int b).
Proof. unfold int. destruct (py_int b); leaf. Qed.

Lemma run_check_same abort d : steps same_but_ui (run_check abort d).
Proof.
  unfold run_check. destruct (d !! "code"); [|leaf].
  destruct (d !! "data"); [|leaf].
  destruct (_ && _); [leaf|].
  destruct (bool_decide _); [apply ui_emit_same|leaf].
Qed.

Lemma find_same cl rev_ base p4rev abort :
  steps same_but_ui (find py_int cl rev_ base p4rev abort).
Proof.
  unfold find. step; [leaf|].
  destruct (find_walk _ _ _ _ _) as [outcome levels].
  step.
  - apply steps_for_each; [apply _|]. intros x. apply ui_emit_same.
  - destruct outcome; try leaf. destruct abort; leaf.
Qed.

Lemma parsenodes_same cl desc : steps same_but_ui (parsenodes cl desc).
Proof.
  unfold parsenodes. destruct (re_hgid_search desc) as [m|]; [|leaf].
  destruct (resolve_marker _ _); [leaf|].
  step; [apply ui_emit_same|leaf].
Qed.

Lemma reads_run_check abort d : steps reads (run_check abort d).
Proof. eapply steps_weaken; [apply same_but_ui_reads|apply run_check_same]. Qed.

Lemma reads_find cl rev_ base p4rev abort : steps reads (find py_int cl rev_ base p4rev abort).
Proof. eapply steps_weaken; [apply same_but_ui_reads|apply find_same]. Qed.

Lemma reads_parsenodes cl desc : steps reads (parsenodes cl desc).
Proof. eapply steps_weaken; [apply same_but_ui_reads|apply parsenodes_same]. Qed.
End Reads.

Section Quiet.
Variable py_int : bytes -> option Z.

Lemma quiet_ui_emit e : steps quiet (ui_emit e).
Proof. eapply steps_weaken; [apply reads_quiet|apply reads_ui_emit]. Qed.

Lemma quiet_popen c : is_query c = true -> steps quiet (popen c).
Proof. intros Hq. eapply steps_weaken; [apply reads_quiet|by apply reads_popen]. Qed.

Lemma quiet_run_check abort d : steps quiet (run_check abort d).
Proof. eapply steps_weaken; [apply reads_quiet|apply reads_run_check]. Qed.

Lemma quiet_find cl rev_ base p4rev abort : steps quiet (find py_int cl rev_ base p4rev abort).
Proof. eapply steps_weaken; [apply reads_quiet|apply reads_find]. Qed.

Lemma quiet_parsenodes cl desc : steps quiet (parsenodes cl desc).
Proof. eapply steps_weaken; [apply reads_quiet|apply reads_parsenodes]. Qed.

Lemma quiet_run_records {S} abort ds (body : S -> p4record -> M S) :
  (forall acc d, steps quiet (body acc d)) ->
  forall acc, steps quiet (run_records abort ds body acc).
Proof.
  intros Hb. induction ds as [|d ds IH]; intros acc; simpl; [leaf|].
  step; [apply quiet_run_check|]. step; [apply Hb|apply IH].
Qed.

Lemma quiet_run_fold {S} c abort (body : S -> p4record -> M S) acc :
  is_query c = true ->
  (forall acc d, steps quiet (body acc d)) ->
  steps quiet (run_fold c abort body acc).
Proof.
  intros Hq Hb. unfold run_fold. step; [by apply quiet_popen|by apply quiet_run_records].
Qed.

Lemma quiet_p4stat_add n : steps quiet (p4stat_add n).
Proof. unfold p4stat_add. step; [leaf|apply quiet_set_p4stat]. Qed.

Lemma quiet_readp4stat_helper cl p4id d : steps quiet (readp4stat_helper py_int cl p4id d).
Proof.
  unfold readp4stat_helper. step; [leaf|]. step; [apply steps_int, _|].
  destruct (_ =? p4id); [leaf|].
  step; [leaf|]. step; [apply quiet_parsenodes|]. step; [leaf|]. step; [leaf|].
  step.
  - unfold p4pending_append. step; [leaf|apply quiet_set_p4pending].
  - apply steps_for_each; [apply _|]. intros n. apply quiet_p4stat_add.
Qed.

Lemma quiet_read_changes cl : steps quiet (read_changes py_int cl).
Proof.
  unfold read_changes. step; [apply quiet_find|].
  step. { apply quiet_run_fold; [done|]. intros _ d. apply quiet_readp4stat_helper. }
  step. { apply quiet_run_fold; [done|]. intros _ d. apply quiet_readp4stat_helper. }
  step; [leaf|apply quiet_set_p4pending].
Qed.

Lemma quiet_readp4stat cl : steps quiet (_readp4stat py_int cl).
Proof.
  unfold _readp4stat. step; [apply quiet_set_p4stat|].
  step; [apply quiet_set_p4pending|apply quiet_read_changes].
Qed.

Lemma quiet_ensure_p4stat cl : steps quiet (ensure_p4stat py_int cl).
Proof.
  unfold ensure_p4stat. apply steps_bind; [apply _|leaf|intros w].
  destruct (w_p4stat w); [leaf|apply quiet_readp4stat].
Qed.

Lemma quiet_getpending cl n : steps quiet (getpending py_int cl n).
Proof. unfold getpending. step; [apply quiet_ensure_p4stat|]. step; leaf. Qed.

Lemma quiet_getpendinglist cl : steps quiet (getpendinglist py_int cl).
Proof. unfold getpendinglist. step; [apply quiet_ensure_p4stat|]. step; leaf. Qed.

Lemma quiet_trim_end cl fuel at_back : forall nodes trim,
  steps quiet (trim_end py_int cl fuel at_back nodes trim).
Proof.
  induction fuel as [|k IH]; intros nodes trim; simpl; [leaf|].
  destruct (end_item at_back nodes) as [x|]; [|leaf].
  step; [leaf|]. apply steps_bind; [apply _|apply quiet_getpending|intros pending].
  destruct pending; [apply IH|leaf].
Qed.

Lemma quiet_trim_pushed cl nodes : steps quiet (trim_pushed py_int cl nodes).
Proof. unfold trim_pushed. step; apply quiet_trim_end. Qed.

Lemma quiet_check_not_pushed cl nodes : steps quiet (check_not_pushed py_int cl nodes).
Proof.
  induction nodes as [|x rest IH]; simpl; [leaf|].
  step; [leaf|]. step; [apply quiet_getpending|].
  destruct (_ || _); [leaf|done].
Qed.

Lemma steps_recalculate_context R `{!PreOrder R} repo trim nodes ctx1 ctx2 :
  steps R (recalculate_context repo trim nodes ctx1 ctx2).
Proof.
  unfold recalculate_context. destruct trim; [|leaf]. destruct nodes; [leaf|].
  step; [leaf|]. step; [leaf|]. step; leaf.
Qed.

Lemma quiet_trim_and_check cl ctx1 ctx2 nodes :
  steps quiet (trim_and_check py_int cl ctx1 ctx2 nodes).
Proof.
  unfold trim_and_check. step; [apply quiet_trim_pushed|].
  step; [apply steps_recalculate_context, _|]. step; [apply quiet_check_not_pushed|leaf].
Qed.

Lemma quiet_push_range cl opts : steps quiet (push_range py_int cl opts).
Proof.
  unfold push_range. step; [apply quiet_find|]. step; [|leaf].
  destruct (o_rev opts).
  - step; [leaf|]. step; leaf.
  - destruct (revpair _ _) as [[c1 c2]|]; [|leaf]. step; leaf.
Qed.

Lemma quiet_push_revisions cl opts : steps quiet (push_revisions py_int cl opts).
Proof.
  unfold push_revisions.
  apply steps_bind; [apply _|apply quiet_push_range|intros [[[[p4rev p4id] ctx1] ctx2] nodes]].
  step; [|leaf]. destruct (o_force opts); [leaf|apply quiet_trim_and_check].
Qed.

Lemma quiet_detect_mq repo force nodes : steps quiet (detect_mq repo force nodes).
Proof.
  unfold detect_mq. destruct (repo_lookup repo "qbase"); [|leaf].
  destruct (nodesbetween _ _ _); [leaf|]. destruct force; [apply quiet_ui_emit|leaf].
Qed.

Lemma steps_push_description R `{!PreOrder R} repo nodes :
  steps R (push_description repo nodes).
Proof.
  unfold push_description. step.
  { apply steps_map_m; [done|]. intros n. step; leaf. }
  step.
  { destruct (_ <? _)%nat; [|leaf]. destruct (head nodes); [|leaf]. step; leaf. }
  step; [|leaf]. destruct (last nodes); [|leaf]. step; leaf.
Qed.

(** The plan phase asks the depot questions only. *)
Lemma quiet_pushcommon cl opts : steps quiet (_pushcommon py_int cl opts).
Proof.
  unfold _pushcommon.
  apply steps_bind; [apply _|apply quiet_push_revisions|].
  intros [[[[p4rev p4id] ctx1] ctx2] nodes].
  destruct nodes as [|x nodes]; [step; [apply quiet_ui_emit|leaf]|].
  destruct (changed_files _ _ _) as [[[mod_ add_] rem_] cpy].
  destruct (mod_ ++ add_ ++ rem_)%list; [step; [apply quiet_ui_emit|leaf]|].
  step; [apply quiet_detect_mq|]. step; [apply steps_push_description, _|leaf].
Qed.
End Quiet.

(** * The sync-point search visits a changeset once *)


Section FindProps.
Variable py_int : bytes -> option Z.
Variable repo : hgrepo.

Lemma closed_mono seen seen' path : seen ⊆ seen' -> closed repo seen path -> closed repo seen' path.
Proof. intros Hs Hc c p Hin Hp Hn. apply Hs. eauto. Qed.

Lemma add_parents_spec ctx path ps : forall seen next seen' next',
  add_parents ctx path ps seen next = Ok (seen', next') ->
  exists new,
    next' = (next ++ new)%list
    /\ seen' = list_to_set new.*1 ∪ seen
    /\ NoDup new.*1
    /\ (forall p, p ∈ (new.*1) -> p ∈ ps /\ p <> nullrev /\ p ∉ seen)
    /\ (forall p, p ∈ ps -> p <> nullrev -> p ∈ seen')
    /\ (forall p pth, (p, pth) ∈ new -> exists t, path = Tuple t /\ pth = ctx :: t).
Proof.
  induction ps as [|p ps IH]; intros seen next seen' next' H; simpl in H.
  - injection H as <- <-. exists []. rewrite app_nil_r. simpl.
    repeat split; try set_solver. constructor.
  - destruct (bool_decide (p <> nullrev) && bool_decide (p ∉ seen)) eqn:E.
    + apply andb_prop in E as [E1 E2].
      apply bool_decide_eq_true in E1. apply bool_decide_eq_true in E2.
      destruct path as [t|]; [|discriminate].
      apply IH in H as (new & -> & -> & Hnd & Hin & Hall & Hp).
      exists ((p, ctx :: t) :: new). simpl.
      split; [by rewrite <- app_assoc|].
      split; [set_solver|].
      split. { constructor; [|done]. intros Hc. apply Hin in Hc. set_solver. }
      split. { intros q Hq. apply elem_of_cons in Hq as [->|Hq]; [set_solver|].
               apply Hin in Hq. set_solver. }
      split. { intros q Hq Hn. apply elem_of_cons in Hq as [->|Hq]; [set_solver|].
               by apply Hall. }
      intros q pth Hq. apply elem_of_cons in Hq as [Hq|Hq]; [|by eapply Hp].
      injection Hq as -> ->. eauto.
    + apply IH in H as (new & -> & -> & Hnd & Hin & Hall & Hp).
      exists new.
      split; [done|]. split; [done|]. split; [done|].
      split. { intros q Hq. apply Hin in Hq as (? & ? & ?). set_solver. }
      split; [|done].
      intros q Hq Hn. apply elem_of_cons in Hq as [->|Hq]; [|by apply Hall].
      apply andb_false_iff in E as [E|E]; apply bool_decide_eq_false in E.
      * done.
      * apply dec_stable in E. set_solver.
Qed.

Lemma base_walk_spec mq path : forall ctx ctx' path',
  base_walk repo mq ctx path = (ctx', path') ->
  (ctx' = ctx \/ ctx' ∈ path) /\ (forall t, path' = Tuple t -> t = []).
Proof.
  induction path as [|c rest IH]; intros ctx ctx' path' H; simpl in H.
  - injection H as <- <-. split; [by left|]. intros t Ht. by injection Ht.
  - destruct (dothgonly repo c && negb (in_mq repo mq ctx)).
    + apply IH in H as [[->|H] Ht]; split; try done; right; set_solver.
    + injection H as <- <-. split; [by left|]. intros t Ht. discriminate.
Qed.

Lemma find_level_spec (Hdag : parents_precede repo) mq base p4rev current :
  forall seen next seen' next',
  (forall c path, (c, path) ∈ current -> closed repo seen path) ->
  find_level py_int repo mq base p4rev current seen next = LNext seen' next' ->
  exists new,
    next' = (next ++ new)%list
    /\ seen' = list_to_set new.*1 ∪ seen
    /\ NoDup new.*1
    /\ (forall p, p ∈ (new.*1) -> (p ∉ seen) /\ 0 <= p /\ exists c, c ∈ (current.*1) /\ p < c)
    /\ (forall p pth, (p, pth) ∈ new -> closed repo seen' pth).
Proof.
  induction current as [|[ctx path] rest IH]; intros seen next seen' next' Hcl H.
  - simpl in H. injection H as <- <-. exists []. rewrite app_nil_r. simpl.
    repeat split; try set_solver. constructor.
  - simpl in H.
    assert (Hstep : forall ctx' path',
      (ctx' = ctx \/ ctx' ∈ path) ->
      (forall t, path' = Tuple t -> closed repo seen t) ->
      match add_parents ctx' path' (ctx_parents repo ctx') seen next with
      | Raise e => LRaise e
      | Ok (seen'0, next'0) => find_level py_int repo mq base p4rev rest seen'0 next'0
      end = LNext seen' next' ->
      exists new,
        next' = (next ++ new)%list
        /\ seen' = list_to_set new.*1 ∪ seen
        /\ NoDup new.*1
        /\ (forall p, p ∈ (new.*1) ->
             (p ∉ seen) /\ 0 <= p /\ exists c, c ∈ (((ctx, path) :: rest).*1) /\ p < c)
        /\ (forall p pth, (p, pth) ∈ new -> closed repo seen' pth)).
    { intros ctx' path' Hctx' Hpath' Hrun.
      destruct (add_parents ctx' path' (ctx_parents repo ctx') seen next)
        as [[seen1 next1]|e] eqn:Ea; [|discriminate].
      apply add_parents_spec in Ea as (new1 & -> & -> & Hnd1 & Hin1 & Hall1 & Hp1).
      apply IH in Hrun as (new2 & -> & -> & Hnd2 & Hin2 & Hp2).
      2:{ intros c pth Hc. eapply closed_mono; [|eapply Hcl; by right]. set_solver. }
      exists (new1 ++ new2)%list. rewrite fmap_app.
      split; [by rewrite app_assoc|].
      split; [set_solver|].
      split. { apply NoDup_app. split; [done|]. split; [|done].
               intros x Hx1 Hx2. apply Hin2 in Hx2 as [Hx2 _]. set_solver. }
      split.
      { intros p Hp. apply elem_of_app in Hp as [Hp|Hp].
        - destruct (Hin1 p Hp) as (Hpar & Hnn & Hns).
          split; [done|].
          destruct Hctx' as [->|Hctx'].
          + destruct (Hdag _ _ Hpar Hnn). split; [lia|].
            exists ctx. split; [set_solver|lia].
          + exfalso. apply Hns. eapply (Hcl ctx path); [by left|done..].
        - destruct (Hin2 p Hp) as (Hns & H0 & c & Hc & Hlt).
          split; [set_solver|]. split; [done|]. exists c. split; [set_solver|done]. }
      intros p pth Hp. apply elem_of_app in Hp as [Hp|Hp]; [|by eapply Hp2].
      destruct (Hp1 _ _ Hp) as (t & -> & ->).
      intros c q Hc Hq Hn. apply elem_of_cons in Hc as [->|Hc].
      - pose proof (Hall1 q Hq Hn). set_solver.
      - assert (q ∈ seen) by (eapply Hpath'; done). set_solver. }
    destruct (ctx_extra repo ctx !! "p4") as [v|].
    + destruct (if base then base_walk repo mq ctx path else (ctx, Tuple path))
        as [ctx' path'] eqn:Eb.
      destruct (py_int v) as [p4|]; [|discriminate].
      destruct (p4rev_accepts p4rev p4); [discriminate|].
      apply (Hstep ctx' path'); [| |done].
      * destruct base; [by apply base_walk_spec in Eb as [? _]|].
        injection Eb as <- <-. by left.
      * intros t ->. destruct base.
        -- apply base_walk_spec in Eb as [_ Ht]. rewrite (Ht t eq_refl). intros c p Hc. set_solver.
        -- injection Eb as <- <-. eapply Hcl. by left.
    + apply (Hstep ctx (Tuple path)); [by left| |done].
      intros t Ht. injection Ht as <-. eapply Hcl. by left.
Qed.

Lemma find_loop_spec (Hdag : parents_precede repo) mq base p4rev start :
  forall fuel current seen visited b,
  (Z.to_nat (b + 1) < fuel)%nat ->
  b <= start ->
  (forall c, c ∈ current.*1 -> c <= b) ->
  (forall c path, (c, path) ∈ current -> closed repo seen path) ->
  NoDup (visited ++ current.*1) ->
  (forall x, x ∈ (visited ++ current.*1)%list -> x ∈ seen \/ x = start) ->
  (find_loop py_int repo mq base p4rev fuel current seen).1 <> OutOfFuel
  /\ NoDup (visited ++ concat (find_loop py_int repo mq base p4rev fuel current seen).2).
Proof.
  induction fuel as [|k IH]; intros current seen visited b Hfuel Hb Hle Hcl Hnd Hseen; [lia|].
  destruct current as [|x current']; [simpl; split; [done|]; by rewrite app_nil_r in *|].
  remember (x :: current') as current eqn:Ecur.
  assert (Hunf : find_loop py_int repo mq base p4rev (S k) current seen =
    match find_level py_int repo mq base p4rev current seen [] with
    | LReturn n p4 => (Found n p4, [current.*1])
    | LRaise e => (Raised e, [current.*1])
    | LNext seen' next_items =>
        let '(o, levels) := find_loop py_int repo mq base p4rev k next_items seen' in
        (o, current.*1 :: levels)
    end) by (subst current; reflexivity).
  rewrite Hunf. clear Hunf.
  destruct (find_level py_int repo mq base p4rev current seen []) as [n p4|e|seen' next] eqn:El.
  - simpl. rewrite app_nil_r. done.
  - simpl. rewrite app_nil_r. done.
  - apply find_level_spec in El as (new & -> & -> & Hndn & Hin & Hp); [|done..].
    simpl in *.
    destruct (find_loop py_int repo mq base p4rev k new (list_to_set new.*1 ∪ seen))
      as [o levels] eqn:Ef.
    simpl. rewrite app_assoc.
    destruct new as [|y new'].
    { destruct k; simpl in Ef; injection Ef as <- <-; simpl; rewrite app_nil_r; done. }
    remember (y :: new') as new eqn:Enew.
    assert (Hb1 : 1 <= b).
    { destruct (Hin y.1) as (_ & H0 & c & Hc & Hlt); [subst new; set_solver|].
      apply Hle in Hc. lia. }
    specialize (IH new (list_to_set new.*1 ∪ seen) (visited ++ current.*1)%list (b - 1)).
    rewrite Ef in IH. simpl in IH. apply IH.
    + replace (b - 1 + 1) with b by lia. replace (b + 1) with (Z.succ b) in Hfuel by lia.
      rewrite Z2Nat.inj_succ in Hfuel by lia. lia.
    + lia.
    + intros c Hc. destruct (Hin c Hc) as (_ & _ & c' & Hc' & Hlt). apply Hle in Hc'. lia.
    + intros c path Hc. by eapply Hp.
    + apply NoDup_app. split; [done|]. split; [|done].
      intros p Hv Hp'. destruct (Hin p Hp') as (Hns & _ & c & Hc & Hlt).
      apply Hseen in Hv as [Hv| ->]; [done|]. apply Hle in Hc. lia.
    + intros p Hp'. apply elem_of_app in Hp' as [Hp'|Hp'].
      * apply Hseen in Hp' as [?| ->]; [left; set_solver|by right].
      * left. set_solver.
Qed.

Lemma find_loop_fuel mq base p4rev : forall fuel fuel' current seen,
  (fuel <= fuel')%nat ->
  (find_loop py_int repo mq base p4rev fuel current seen).1 <> OutOfFuel ->
  find_loop py_int repo mq base p4rev fuel' current seen
  = find_loop py_int repo mq base p4rev fuel current seen.
Proof.
  induction fuel as [|k IH]; intros fuel' current seen Hle Hout;
    destruct current as [|x current']; try (by destruct fuel').
  destruct fuel' as [|k']; [lia|].
  remember (x :: current') as current eqn:Ecur.
  assert (Hunf : forall n, find_loop py_int repo mq base p4rev (S n) current seen =
    match find_level py_int repo mq base p4rev current seen [] with
    | LReturn n p4 => (Found n p4, [current.*1])
    | LRaise e => (Raised e, [current.*1])
    | LNext seen' next_items =>
        let '(o, levels) := find_loop py_int repo mq base p4rev n next_items seen' in
        (o, current.*1 :: levels)
    end) by (intros n; subst current; reflexivity).
  rewrite !Hunf in *.
  destruct (find_level py_int repo mq base p4rev current seen []) as [| |seen' next]; try done.
  rewrite (IH k' next seen'); [done|lia|].
  by destruct (find_loop py_int repo mq base p4rev k next seen').
Qed.

(** C8. On a repository whose changesets form a finite directed acyclic
    graph, the walk of [find] from any changeset ends, and no changeset
    occurs twice in the frontiers it goes through, merges with shared
    ancestors included: a parent is appended to the next frontier only if it
    is not in [seen], and is then in [seen].  The loop gives the same result
    for every larger bound on its iterations. *)
Theorem find_visits_each_changeset_once base p4rev start :
  parents_precede repo ->
  (forall ctx path ps seen next seen' next',
     add_parents ctx path ps seen next = Ok (seen', next') ->
     exists new, next' = (next ++ new)%list /\ NoDup new.*1
       /\ forall p, p ∈ (new.*1) -> p ∈ ps /\ (p ∉ seen) /\ p ∈ seen')
  /\ (find_walk py_int repo base p4rev start).1 <> OutOfFuel
  /\ NoDup (concat (find_walk py_int repo base p4rev start).2)
  /\ (forall fuel, (Z.to_nat (start + 1) < fuel)%nat ->
        find_loop py_int repo (find_mqnode repo) base p4rev fuel [(start, [])] ∅
        = find_walk py_int repo base p4rev start).
Proof.
  intros Hdag.
  assert (Hwalk : (find_walk py_int repo base p4rev start).1 <> OutOfFuel
                  /\ NoDup (concat (find_walk py_int repo base p4rev start).2)).
  { unfold find_walk.
    apply (find_loop_spec Hdag _ base p4rev start _ [(start, [])] ∅ [] start).
    - lia.
    - lia.
    - intros c Hc. simpl in Hc. apply list_elem_of_singleton in Hc. lia.
    - intros c path Hc. apply list_elem_of_singleton in Hc. injection Hc as -> ->.
      intros c' p Hc'. set_solver.
    - simpl. apply NoDup_singleton.
    - intros x Hx. simpl in Hx. apply list_elem_of_singleton in Hx. by right. }
  split; [|split; [apply Hwalk|split; [apply Hwalk|]]].
  - intros ctx path ps seen next seen' next' H.
    apply add_parents_spec in H as (new & -> & -> & Hnd & Hin & _).
    exists new. split; [done|]. split; [done|]. intros p Hp.
    destruct (Hin p Hp) as (? & ? & ?). set_solver.
  - intros fuel Hfuel. apply find_loop_fuel; [lia|apply Hwalk].
Qed.
End FindProps.

(** * The pending cache once read *)

Section Pending.
Variable py_int : bytes -> option Z.

Lemma getpending_cached cl n w s :
  w_p4stat w = Some s ->
  getpending py_int cl n w = (Ok (bool_decide (ctx_node (c_repo cl) n ∈ s)), w).
Proof.
  intros Hs. unfold getpending, ensure_p4stat, bind, get_world, ret.
  rewrite Hs. simpl. by rewrite Hs.
Qed.

Lemma readp4stat_unfold cl w :
  _readp4stat py_int cl w
  = read_changes py_int cl
      {| w_depot := w_depot w; w_log := w_log w; w_ui := w_ui w; w_p4stat := Some ∅;
         w_p4pending := []; w_commits := w_commits w |}.
Proof. reflexivity. Qed.

Lemma readp4stat_populates cl w r w' :
  _readp4stat py_int cl w = (r, w') -> is_Some (w_p4stat w').
Proof.
  rewrite readp4stat_unfold. intros H.
  apply quiet_read_changes in H as (_ & _ & _ & Hs). apply Hs. simpl. eauto.
Qed.

Lemma getpending_populates cl n w b w' :
  getpending py_int cl n w = (Ok b, w') ->
  exists s, w_p4stat w' = Some s /\ b = bool_decide (ctx_node (c_repo cl) n ∈ s).
Proof.
  unfold getpending. intros H.
  apply bind_ok_inv in H as ([] & w1 & He & H).
  unfold bind, get_world, ret in H. injection H as <- <-.
  assert (is_Some (w_p4stat w1)) as [s Hs].
  { unfold ensure_p4stat, bind, get_world in He.
    destruct (w_p4stat w) eqn:E.
    - injection He as <-. eauto.
    - by apply readp4stat_populates in He. }
  exists s. by rewrite Hs.
Qed.

Lemma end_item_None at_back nodes : end_item at_back nodes = None -> nodes = [].
Proof.
  destruct at_back; simpl.
  - by apply last_None.
  - by destruct nodes.
Qed.

Lemma del_end_length at_back nodes :
  nodes <> [] -> S (length (del_end at_back nodes)) = length nodes.
Proof.
  intros Hn. destruct at_back; simpl.
  - destruct nodes as [|x l] using rev_ind; [done|].
    rewrite removelast_last, length_app. simpl. lia.
  - destruct nodes; [done|]. simpl. by rewrite drop_0.
Qed.

Lemma trim_end_populates cl fuel at_back : forall nodes trim w nodes' trim' w',
  (length nodes <= fuel)%nat ->
  trim_end py_int cl fuel at_back nodes trim w = (Ok (nodes', trim'), w') ->
  nodes' <> [] -> is_Some (w_p4stat w').
Proof.
  induction fuel as [|k IH]; intros nodes trim w nodes' trim' w' Hlen H Hne; simpl in H.
  - injection H as <- <- <-. destruct nodes; [done|simpl in Hlen; lia].
  - destruct (end_item at_back nodes) as [x|] eqn:Ex.
    2:{ injection H as <- <- <-. by apply end_item_None in Ex. }
    apply bind_ok_inv in H as (n & w1 & Hl & H).
    apply bind_ok_inv in H as (b & w2 & Hg & H).
    destruct b.
    + eapply IH; [|exact H|done].
      assert (Hn : nodes <> []) by (intros ->; by destruct at_back).
      pose proof (del_end_length at_back nodes Hn). lia.
    + injection H as <- <- <-.
      apply getpending_populates in Hg as (s & -> & _). eauto.
Qed.

Lemma trim_pushed_populates cl nodes w nodes' trim w' :
  trim_pushed py_int cl nodes w = (Ok (nodes', trim), w') ->
  nodes' <> [] -> is_Some (w_p4stat w').
Proof.
  unfold trim_pushed. intros H Hne.
  apply bind_ok_inv in H as ([l t] & w1 & _ & H). simpl in H.
  eapply trim_end_populates; [|exact H|done]. done.
Qed.

Lemma check_not_pushed_raises cl nodes w s :
  w_p4stat w = Some s ->
  (exists x n, x ∈ nodes /\ repo_lookup (c_repo cl) x = Some n
               /\ already_in_p4 (c_repo cl) s n) ->
  exists e, check_not_pushed py_int cl nodes w = (Raise e, w)
    /\ ((forall x, x ∈ nodes -> is_Some (repo_lookup (c_repo cl) x)) ->
        exists x n, x ∈ nodes /\ repo_lookup (c_repo cl) x = Some n
                    /\ already_in_p4 (c_repo cl) s n /\ e = push_conflict (c_repo cl) n).
Proof.
  intros Hs. induction nodes as [|y rest IH]; intros (x & n & Hx & Hl & Hc).
  { by apply elem_of_nil in Hx. }
  simpl. unfold repo_getitem at 1.
  destruct (repo_lookup (c_repo cl) y) as [m|] eqn:Ey.
  2:{ eexists. split; [reflexivity|]. intros Hall.
      destruct (Hall y) as [? ?]; [by left|congruence]. }
  rewrite (bind_ok _ _ _ m w) by done.
  rewrite (bind_ok _ _ _ _ w (getpending_cached cl m w s Hs)).
  destruct (bool_decide (ctx_node (c_repo cl) m ∈ s) || has_p4_child (c_repo cl) m) eqn:Ec.
  - eexists. split; [reflexivity|]. intros _. exists y, m.
    split; [by left|]. split; [done|]. split; [|done].
    apply orb_true_iff in Ec as [Ec|Ec]; [left; by apply bool_decide_eq_true in Ec|by right].
  - apply elem_of_cons in Hx as [->|Hx].
    + exfalso. rewrite Ey in Hl. injection Hl as ->.
      apply orb_false_iff in Ec as [E1 E2]. apply bool_decide_eq_false in E1.
      destruct Hc; congruence.
    + destruct IH as (e & He & Hwf); [eauto|].
      exists e. split; [done|]. intros Hall.
      destruct Hwf as (x' & n' & ? & ? & ? & ?); [intros z Hz; apply Hall; by right|].
      exists x', n'. split; [by right|done].
Qed.

Lemma recalculate_context_pure repo trim nodes ctx1 ctx2 w r w' :
  recalculate_context repo trim nodes ctx1 ctx2 w = (r, w') -> w' = w.
Proof. intros H. symmetry. revert H. apply (steps_recalculate_context eq). Qed.

Lemma recalculate_context_ok repo trim nodes ctx1 ctx2 w :
  (forall x, x ∈ nodes ->
     exists n, repo_lookup repo x = Some n /\ ctx_parents repo n <> []) ->
  exists ends, recalculate_context repo trim nodes ctx1 ctx2 w = (Ok ends, w).
Proof.
  intros Hall. unfold recalculate_context. destruct trim; [|by eexists].
  destruct nodes as [|first rest]; [by eexists|].
  destruct (Hall first) as (c & Hc & Hp); [by left|].
  unfold repo_getitem at 1. rewrite Hc. rewrite (bind_ok _ _ _ c w) by done.
  unfold first_parent. destruct (ctx_parents repo c) as [|c1 ?]; [done|].
  rewrite (bind_ok _ _ _ c1 w) by done.
  destruct (last (first :: rest)) as [z|] eqn:Ez; [|by apply last_None in Ez].
  destruct (Hall z) as (c2 & Hc2 & _); [by apply last_Some_elem_of|].
  unfold repo_getitem. simpl. rewrite Hc2. rewrite (bind_ok _ _ _ c2 w) by done.
  by eexists.
Qed.

Lemma push_announce_ok cl opts w :
  push_announce cl opts w = (Ok tt, (push_announce cl opts w).2)
  /\ same_but_ui w (push_announce cl opts w).2.
Proof. unfold push_announce. destruct (o_submit opts); by repeat split. Qed.

(** C1. A push without force whose range, after the ends are trimmed,
    still holds a changeset that is pending or submitted in the depot, or
    that has a child carrying the p4 extra data, raises an error; up to
    there it has only asked the depot questions, so that no command that
    changes the depot was issued.  When the nodes of the range resolve, the
    error is the abort "can not push, changeset ... is already in p4". *)
Theorem push_aborts_on_pushed_changeset cl opts w rg w0 tr w1 :
  o_force opts = false ->
  push_range py_int cl opts (push_announce cl opts w).2 = (Ok rg, w0) ->
  trim_pushed py_int cl rg.2 w0 = (Ok tr, w1) ->
  (exists x n, x ∈ tr.1 /\ repo_lookup (c_repo cl) x = Some n
               /\ already_in_p4 (c_repo cl) (p4stat_of w1) n) ->
  exists e w',
    push py_int cl opts w = (Raise e, w')
    /\ quiet w w'
    /\ ((forall x, x ∈ tr.1 ->
           exists n, repo_lookup (c_repo cl) x = Some n /\ ctx_parents (c_repo cl) n <> []) ->
        exists x n, x ∈ tr.1 /\ repo_lookup (c_repo cl) x = Some n
                    /\ already_in_p4 (c_repo cl) (p4stat_of w1) n
                    /\ e = push_conflict (c_repo cl) n).
Proof.
  intros Hforce Hrange Htrim Hconf.
  destruct (push_announce_ok cl opts w) as [Hann Hui].
  set (wa := (push_announce cl opts w).2) in *.
  assert (Hcommon : exists e w', _pushcommon py_int cl opts wa = (Raise e, w')
    /\ ((forall x, x ∈ tr.1 ->
           exists n, repo_lookup (c_repo cl) x = Some n /\ ctx_parents (c_repo cl) n <> []) ->
        exists x n, x ∈ tr.1 /\ repo_lookup (c_repo cl) x = Some n
                    /\ already_in_p4 (c_repo cl) (p4stat_of w1) n
                    /\ e = push_conflict (c_repo cl) n)).
  { destruct rg as [[[[p4rev p4id] ctx1] ctx2] nodes]. destruct tr as [nodes' trim].
    simpl in *.
    assert (Hne : nodes' <> []).
    { destruct Hconf as (x & _ & Hx & _). intros ->. by apply elem_of_nil in Hx. }
    destruct (trim_pushed_populates _ _ _ _ _ _ Htrim Hne) as [s Hs].
    unfold p4stat_of in *. rewrite Hs in *. simpl in *.
    destruct (check_not_pushed_raises cl nodes' w1 s Hs Hconf) as (e & He & Hwf).
    assert (Htc : exists e' w', trim_and_check py_int cl ctx1 ctx2 nodes w0 = (Raise e', w')
      /\ ((forall x, x ∈ nodes' ->
             exists n, repo_lookup (c_repo cl) x = Some n /\ ctx_parents (c_repo cl) n <> []) ->
          e' = e)).
    { unfold trim_and_check. rewrite (bind_ok _ _ _ _ _ Htrim). simpl.
      destruct (recalculate_context (c_repo cl) trim nodes' ctx1 ctx2 w1)
        as [[ends|e'] w2] eqn:Er.
      - pose proof (recalculate_context_pure _ _ _ _ _ _ _ _ Er) as ->.
        rewrite (bind_ok _ _ _ _ _ Er), (bind_raise _ _ _ _ _ He). eauto.
      - rewrite (bind_raise _ _ _ _ _ Er). exists e', w2. split; [done|]. intros Hall.
        destruct (recalculate_context_ok (c_repo cl) trim nodes' ctx1 ctx2 w1 Hall) as [? Hok].
        congruence. }
    destruct Htc as (e' & w' & Htc & He').
    exists e', w'. split.
    - unfold _pushcommon, push_revisions.
      rewrite (bind_unfold (bind _ _)), (bind_ok _ _ _ _ _ Hrange). rewrite Hforce.
      by rewrite (bind_raise _ _ _ _ _ Htc).
    - intros Hall. rewrite (He' Hall). apply Hwf.
      intros x Hx. destruct (Hall x Hx) as (? & -> & _). eauto. }
  destruct Hcommon as (e & w' & Hc & Hwf).
  exists e, w'. split; [|split; [|done]].
  - unfold push. rewrite (bind_ok _ _ _ _ _ Hann). fold wa. by rewrite (bind_raise _ _ _ _ _ Hc).
  - etrans; [apply same_but_ui_quiet, Hui|]. eapply quiet_pushcommon, Hc.
Qed.
End Pending.

(** * Trimming the ends of the range *)

Section Trim.
Variable py_int : bytes -> option Z.

Lemma repo_getitem_inv repo key w r w' :
  repo_getitem repo key w = (Ok r, w') -> repo_lookup repo key = Some r /\ w' = w.
Proof.
  unfold repo_getitem. destruct (repo_lookup repo key); intros H; [|discriminate].
  by injection H as -> ->.
Qed.

Lemma end_item_del at_back nodes x :
  end_item at_back nodes = Some x ->
  nodes = if at_back then (del_end at_back nodes ++ [x])%list else x :: del_end at_back nodes.
Proof.
  destruct at_back; simpl; intros H.
  - destruct nodes as [|y l _] using rev_ind; [done|].
    rewrite last_snoc in H. injection H as ->. by rewrite removelast_last.
  - destruct nodes; [done|]. injection H as ->. simpl. by rewrite drop_0.
Qed.

Lemma trim_end_spec cl fuel at_back : forall nodes trim w nodes' trim' w',
  (length nodes <= fuel)%nat ->
  trim_end py_int cl fuel at_back nodes trim w = (Ok (nodes', trim'), w') ->
  (exists cut,
     nodes = (if at_back then nodes' ++ cut else cut ++ nodes')%list
     /\ Forall (pending_at cl w') cut)
  /\ (forall x, end_item at_back nodes' = Some x -> not_pending_at cl w' x)
  /\ (is_Some (w_p4stat w) -> w' = w).
Proof.
  induction fuel as [|k IH]; intros nodes trim w nodes' trim' w' Hlen H; simpl in H.
  { injection H as <- <- <-. destruct nodes; [|simpl in Hlen; lia].
    split; [exists []; by destruct at_back|]. split; [by destruct at_back|done]. }
  destruct (end_item at_back nodes) as [x|] eqn:Ex.
  2:{ injection H as <- <- <-. split; [|split; [by rewrite Ex|done]].
      exists []. split; [|done]. destruct at_back; [by rewrite app_nil_r|done]. }
  apply bind_ok_inv in H as (n & w1 & Hl & H). apply repo_getitem_inv in Hl as [Hl ->].
  apply bind_ok_inv in H as (b & w1 & Hg & H).
  pose proof (getpending_populates _ _ _ _ _ _ Hg) as (s & Hs & Hb).
  assert (Hw : is_Some (w_p4stat w) -> w1 = w).
  { intros [s0 Hs0]. rewrite (getpending_cached py_int cl n w s0 Hs0) in Hg. by injection Hg. }
  destruct b.
  - assert (Hn : nodes <> []) by (intros ->; by destruct at_back).
    pose proof (del_end_length at_back nodes Hn).
    apply IH in H as ((cut & Hcut & Hp) & Hend & Hsame); [|lia].
    assert (w' = w1) as -> by (apply Hsame; rewrite Hs; eauto).
    split; [|split; [done|auto]].
    assert (Hx : pending_at cl w1 x).
    { exists n. split; [done|]. unfold p4stat_of. rewrite Hs. simpl.
      symmetry in Hb. by apply bool_decide_eq_true in Hb. }
    rewrite (end_item_del _ _ _ Ex). destruct at_back.
    + exists (cut ++ [x])%list. rewrite Hcut, <- app_assoc.
      split; [done|]. apply Forall_app. split; [done|by constructor].
    + exists (x :: cut). rewrite Hcut. split; [done|by constructor].
  - injection H as <- <- <-. split; [|split; [|done]].
    + exists []. split; [|done]. destruct at_back; [by rewrite app_nil_r|done].
    + intros y Hy. rewrite Ex in Hy. injection Hy as <-. exists n. split; [done|].
      unfold p4stat_of. rewrite Hs. simpl. symmetry in Hb. by apply bool_decide_eq_false in Hb.
Qed.

(** What the trimming leaves: the range is [front ++ nodes' ++ back] with
    [front] and [back] pending, and the two ends of [nodes'] are not. *)
Lemma trim_pushed_spec cl nodes w nodes' trim w' :
  trim_pushed py_int cl nodes w = (Ok (nodes', trim), w') ->
  (exists front back,
     nodes = (front ++ nodes' ++ back)%list
     /\ Forall (pending_at cl w') front /\ Forall (pending_at cl w') back)
  /\ (forall x, head nodes' = Some x \/ last nodes' = Some x -> not_pending_at cl w' x).
Proof.
  unfold trim_pushed. intros H.
  apply bind_ok_inv in H as ([l t] & w1 & H1 & H2). simpl in H2.
  pose proof (trim_end_populates py_int _ _ _ _ _ _ _ _ _ (le_n _) H1) as Hpop.
  assert (w' = w1) as ->.
  { destruct l as [|y l].
    - simpl in H2. by injection H2.
    - eapply trim_end_spec in H2 as (_ & _ & Hsame); [|done]. apply Hsame, Hpop. done. }
  apply trim_end_spec in H1 as ((front & -> & Hf) & Hhead & _); [|done].
  apply trim_end_spec in H2 as ((back & -> & Hb) & Hlast & _); [|done].
  split; [by exists front, back|].
  intros x [Hx|Hx]; [|by apply Hlast].
  apply Hhead. simpl. destruct nodes'; [done|]. done.
Qed.

Lemma check_not_pushed_nil cl w : check_not_pushed py_int cl [] w = (Ok tt, w).
Proof. reflexivity. Qed.

End Trim.

(** * Consistency of the pending cache *)

Section Cache.
Variable py_int : bytes -> option Z.

Global Instance keeps_cache_preorder : PreOrder keeps_cache.
Proof.
  split.
  - by intros w.
  - intros w1 w2 w3 H12 H23 Hs Hc. destruct (H12 Hs Hc). by apply H23.
Qed.

Lemma reads_keeps_cache w w' : reads w w' -> keeps_cache w w'.
Proof.
  intros (_ & _ & _ & Hs & Hp) Hsome Hc. rewrite Hs. split; [done|].
  intros n. unfold p4stat_of. rewrite Hs, Hp. apply Hc.
Qed.

Lemma for_each_p4stat_add nodes w :
  for_each nodes p4stat_add w
  = (Ok tt, {| w_depot := w_depot w; w_log := w_log w; w_ui := w_ui w;
               w_p4stat := match nodes with
                           | [] => w_p4stat w
                           | _ => Some (list_to_set nodes ∪ p4stat_of w)
                           end;
               w_p4pending := w_p4pending w; w_commits := w_commits w |}).
Proof.
  revert w. induction nodes as [|n nodes IH]; intros w; [by destruct w|].
  cbn [for_each]. unfold p4stat_add at 1.
  rewrite bind_unfold. unfold bind at 1, get_world, set_p4stat.
  rewrite IH. cbn. f_equal. f_equal.
  destruct nodes; unfold p4stat_of; cbn; f_equal; set_solver.
Qed.

Lemma keeps_helper cl p4id d : steps keeps_cache (readp4stat_helper py_int cl p4id d).
Proof.
  unfold readp4stat_helper. step; [leaf|]. step; [apply steps_int, _|].
  destruct (_ =? p4id); [leaf|].
  step; [leaf|].
  apply steps_bind;
    [apply _|eapply steps_weaken; [apply reads_keeps_cache|apply reads_parsenodes]|intros nm].
  step; [leaf|]. step; [leaf|].
  intros w r w' H [s Hs] Hc.
  unfold p4pending_append in H. rewrite bind_unfold in H.
  unfold bind at 1, get_world, set_p4pending in H. rewrite for_each_p4stat_add in H.
  injection H as _ <-. cbn. split; [by destruct nm.1; rewrite ?Hs|].
  unfold cache_consistent, p4stat_of in *. intros n. cbn.
  setoid_rewrite elem_of_app. setoid_rewrite list_elem_of_singleton.
  destruct nm.1 as [|x l] eqn:El; cbn.
  - rewrite Hc. split.
    + intros (e & He & Hn). eauto.
    + intros (e & [He| ->] & Hn); [eauto|]. unfold entry_nodes in Hn. cbn in Hn.
      by apply elem_of_nil in Hn.
  - change ({[x]} ∪ list_to_set l : gset node) with (list_to_set (x :: l) : gset node).
    rewrite elem_of_union, Hc, elem_of_list_to_set. split.
    + intros [Hn|(e & He & Hn)]; [|eauto]. eexists. split; [by right|done].
    + intros (e & [He| ->] & Hn); [right; eauto|by left].
Qed.

Lemma keeps_run_records abort ds cl p4id :
  steps keeps_cache
    (run_records abort ds (fun (_ : unit) d => readp4stat_helper py_int cl p4id d) tt).
Proof.
  induction ds as [|d ds IH]; simpl; [leaf|].
  step; [eapply steps_weaken; [apply reads_keeps_cache|apply reads_run_check]|].
  apply steps_bind; [apply _|apply keeps_helper|intros []]. apply IH.
Qed.

Lemma keeps_run c abort cl p4id :
  is_query c = true ->
  steps keeps_cache (run c abort (readp4stat_helper py_int cl p4id)).
Proof.
  intros Hq. unfold run, run_fold.
  step; [eapply steps_weaken; [apply reads_keeps_cache|by apply reads_popen]|].
  apply keeps_run_records.
Qed.

Lemma entry_insert_elem e x l : e ∈ entry_insert x l <-> e = x \/ e ∈ l.
Proof.
  induction l as [|y l IH]; simpl; [set_solver|].
  destruct (entry_compare x y); set_solver.
Qed.

Lemma sort_entries_elem e l : e ∈ sort_entries l <-> e ∈ l.
Proof.
  induction l as [|x l IH]; simpl; [done|]. rewrite entry_insert_elem, IH. set_solver.
Qed.

(** Whatever the state before and however it ends, [_readp4stat] leaves
    the two caches consistent. *)
Lemma keeps_read_changes cl : steps keeps_cache (read_changes py_int cl).
Proof.
  unfold read_changes.
  step; [eapply steps_weaken; [apply reads_keeps_cache|apply reads_find]|].
  step; [by apply keeps_run|]. step; [by apply keeps_run|].
  intros w1 r1 w2 H [s Hs] Hc. unfold bind, get_world, set_p4pending in H.
  injection H as _ <-. cbn. split; [by rewrite Hs|].
  unfold cache_consistent, p4stat_of in *. intros n. cbn. rewrite Hc.
  by setoid_rewrite sort_entries_elem.
Qed.

Lemma readp4stat_consistent cl w r w' :
  _readp4stat py_int cl w = (r, w') -> is_Some (w_p4stat w') /\ cache_consistent w'.
Proof.
  rewrite readp4stat_unfold. intros H. apply keeps_read_changes in H.
  apply H; cbn; [eauto|]. intros n. unfold p4stat_of. cbn. split; [set_solver|].
  intros (e & He & _). by apply elem_of_nil in He.
Qed.

Lemma ensure_p4stat_consistent cl w w' :
  w_p4stat w = None ->
  ensure_p4stat py_int cl w = (Ok tt, w') ->
  is_Some (w_p4stat w') /\ cache_consistent w'.
Proof.
  intros Hn H. unfold ensure_p4stat, bind, get_world in H. rewrite Hn in H.
  by apply readp4stat_consistent in H.
Qed.

(** C3. Once the pending cache has been read, [getpending] answers true
    exactly for the changesets whose node is in an entry of the list
    [getpendinglist] returned: the membership set is the union of the nodes
    of the listed entries.  Both keep answering from the cache. *)
Theorem pending_membership_consistent cl w pl w' :
  w_p4stat w = None ->
  getpendinglist py_int cl w = (Ok pl, w') ->
  getpendinglist py_int cl w' = (Ok pl, w')
  /\ forall n : rev,
       exists b, getpending py_int cl n w' = (Ok b, w')
         /\ (b = true <-> exists e, e ∈ pl /\ ctx_node (c_repo cl) n ∈ entry_nodes e).
Proof.
  intros Hn H. unfold getpendinglist in H.
  apply bind_ok_inv in H as ([] & w1 & He & H).
  unfold bind, get_world, ret in H. injection H as <- <-.
  destruct (ensure_p4stat_consistent _ _ _ Hn He) as [[s Hs] Hc].
  split.
  - unfold getpendinglist, ensure_p4stat, bind, get_world, ret. rewrite Hs. cbn.
    by rewrite ?Hs.
  - intros n. eexists. split; [by apply getpending_cached|].
    rewrite bool_decide_eq_true. specialize (Hc (ctx_node (c_repo cl) n)).
    unfold p4stat_of in Hc. by rewrite Hs in Hc.
Qed.
End Cache.

(** * Changelist descriptors *)

Section Descriptors.
Variable py_int : bytes -> option Z.

Lemma actions_lookup verb :
  actions !! verb =
    if bool_decide (verb ∈ ["add"; "branch"; "move/add"; "import"]) then Some "A"
    else if bool_decide (verb ∈ ["edit"; "integrate"]) then Some "M"
    else if bool_decide (verb ∈ ["delete"; "move/delete"; "purge"]) then Some "R"
    else None.
Proof.
  unfold actions. cbn [list_to_map foldr uncurry Datatypes.uncurry].
  rewrite !lookup_insert, lookup_empty.
  repeat case_decide; subst; try reflexivity;
    repeat (case_bool_decide; try reflexivity); exfalso; set_solver.
Qed.

Lemma getitem_inv (d : gmap bytes bytes) key w v w' :
  getitem d key w = (Ok v, w') -> d !! key = Some v /\ w' = w.
Proof.
  unfold getitem. destruct (d !! key); intros H; [|discriminate]. by injection H as -> ->.
Qed.

Lemma int_inv b w z w' : int py_int b w = (Ok z, w') -> py_int b = Some z /\ w' = w.
Proof.
  unfold int. destruct (py_int b); intros H; [|discriminate]. by injection H as -> ->.
Qed.

(** C4. The action of a file entry is a function of the verb
    the depot reports for it: the entry at index [k] of [describe] carries
    [actions[verb]] for the verb of [action<k>], which is add for add,
    branch, move/add and import, modify for edit and integrate, remove for
    delete, move/delete and purge. *)
Theorem action_is_function_of_verb fuel d i w fs w' k f :
  describe_files py_int fuel d i w = (Ok fs, w') ->
  fs !! k = Some f ->
  exists verb,
    d !! ("action" +:+ fmt_d (i + Z.of_nat k)) = Some verb
    /\ actions !! verb = Some (f_action f)
    /\ (f_action f = "A" <-> verb ∈ ["add"; "branch"; "move/add"; "import"])
    /\ (f_action f = "M" <-> verb ∈ ["edit"; "integrate"])
    /\ (f_action f = "R" <-> verb ∈ ["delete"; "move/delete"; "purge"]).
Proof.
  revert d i w fs w' k. induction fuel as [|n IH]; intros d i w fs w' k H Hk; [discriminate|].
  cbn [describe_files] in H.
  destruct (d !! ("depotFile" +:+ fmt_d i)) as [df|].
  2:{ injection H as <- <-. by rewrite lookup_nil in Hk. }
  apply bind_ok_inv in H as (rv & w1 & _ & H).
  apply bind_ok_inv in H as (tp & w2 & _ & H).
  apply bind_ok_inv in H as (ac & w3 & Hac & H). apply getitem_inv in Hac as [Hac _].
  apply bind_ok_inv in H as (rvn & w4 & _ & H).
  apply bind_ok_inv in H as (a & w5 & Ha & H). apply getitem_inv in Ha as [Ha _].
  apply bind_ok_inv in H as (rest & w6 & Hrest & H).
  injection H as <- <-.
  destruct k as [|k].
  - injection Hk as <-. cbn [f_action]. exists ac.
    replace (i + Z.of_nat 0) with i by lia. split; [done|]. split; [done|].
    rewrite actions_lookup in Ha.
    repeat case_bool_decide; simplify_eq; repeat split; intros; try done; set_solver.
  - cbn in Hk. destruct (IH _ _ _ _ _ _ Hrest Hk) as (verb & Hv & Hrest').
    exists verb. split; [|done]. rewrite <- Hv. do 3 f_equal. lia.
Qed.

(** * The revision marker in a description *)

Lemma resolve_marker_None repo m :
  resolve_marker repo m = None <->
  repo_lookup repo (group2 m) = None
  \/ repo_lookup repo (default (group2 m) (group4 m)) = None.
Proof.
  unfold resolve_marker.
  destruct (repo_lookup repo (group2 m)), (repo_lookup repo (default _ _)); naive_solver.
Qed.

Lemma parsenodes_nodes cl desc w r w' :
  parsenodes cl desc w = (r, w') ->
  r = Ok (marker_nodes (c_repo cl) desc, re_hgid_search desc).
Proof.
  unfold parsenodes, marker_nodes. destruct (re_hgid_search desc) as [m|].
  - destruct (resolve_marker (c_repo cl) m); by intros [= <- _].
  - by intros [= <- _].
Qed.

(** C5. [parsenodes] returns on every description and never raises.
    Without a marker the node list is empty and nothing else happens; with
    a marker one of whose ends does not resolve in the repository the node
    list is empty as well and a note that the range is ignored is recorded;
    otherwise the nodes are those between the two ends. *)
Theorem parsenodes_never_raises cl desc w :
  exists nodes w',
    parsenodes cl desc w = (Ok (nodes, re_hgid_search desc), w')
    /\ nodes = marker_nodes (c_repo cl) desc
    /\ same_but_ui w w'
    /\ (re_hgid_search desc = None -> nodes = [] /\ w' = w)
    /\ (forall m, re_hgid_search desc = Some m ->
          repo_lookup (c_repo cl) (group2 m) = None
          \/ repo_lookup (c_repo cl) (default (group2 m) (group4 m)) = None ->
          nodes = [] /\ w_ui w' = (w_ui w ++ [ignoring_note m])%list)
    /\ (forall m r1 r2, re_hgid_search desc = Some m ->
          repo_lookup (c_repo cl) (group2 m) = Some r1 ->
          repo_lookup (c_repo cl) (default (group2 m) (group4 m)) = Some r2 ->
          nodes = nodesbetween (c_repo cl) [ctx_node (c_repo cl) r1] [ctx_node (c_repo cl) r2]
          /\ w' = w).
Proof.
  unfold parsenodes, marker_nodes.
  destruct (re_hgid_search desc) as [m|] eqn:Em.
  - destruct (resolve_marker (c_repo cl) m) as [nodes|] eqn:Er.
    + exists nodes, w. split; [done|]. split; [done|]. split; [done|]. split; [done|].
      split.
      * intros m' Hm' Hnone. injection Hm' as <-.
        apply resolve_marker_None in Hnone. congruence.
      * intros m' r1 r2 Hm' H1 H2. injection Hm' as <-.
        unfold resolve_marker in Er. rewrite H1, H2 in Er. by injection Er as ->.
    + eexists [], _. split; [reflexivity|]. split; [done|].
      split; [by repeat split|]. split; [done|]. split.
      * intros m' Hm' _. by injection Hm' as <-.
      * intros m' r1 r2 Hm' H1 H2. injection Hm' as <-.
        unfold resolve_marker in Er. by rewrite H1, H2 in Er.
  - exists [], w. repeat split; done.
Qed.

(** C6. The changeset [pull] commits for a changelist has the sync point
    as first parent and, as second parent, the last of the nodes the marker
    of the changelist description resolves to; it has no second parent when
    the description resolves to no node, as without a marker. *)
Theorem pull_second_parent cl c p4rev startrev w d w1 ctx w' :
  describe py_int cl (fmt_d c) false false w = (Ok d, w1) ->
  pull_changelist py_int cl c p4rev startrev w = (Ok ctx, w') ->
  mc_p1 ctx = p4rev
  /\ mc_p2 ctx = last (marker_nodes (c_repo cl) (d_desc d))
  /\ (marker_nodes (c_repo cl) (d_desc d) = [] -> mc_p2 ctx = None)
  /\ last (w_commits w') = Some ctx.
Proof.
  intros Hd H. unfold pull_changelist in H.
  rewrite (bind_ok _ _ _ _ _ Hd) in H.
  apply bind_ok_inv in H as (files & w2 & _ & H).
  apply bind_ok_inv in H as ([] & w3 & _ & H).
  apply bind_ok_inv in H as (nm & w4 & Hnm & H).
  apply parsenodes_nodes in Hnm. injection Hnm as ->.
  apply bind_ok_inv in H as (pd & w5 & Hpd & H).
  cbn [fst snd] in Hpd.
  assert (Hparent : pd.1.1 = last (marker_nodes (c_repo cl) (d_desc d))).
  { destruct (last (marker_nodes (c_repo cl) (d_desc d))) as [parent|].
    - apply bind_ok_inv in Hpd as (pctx & w6 & _ & Hpd).
      apply bind_ok_inv in Hpd as (d' & w7 & _ & Hpd). by injection Hpd as <- _.
    - by injection Hpd as <- _. }
  destruct pd as [[parent hgfiles] d']. cbn [fst snd] in Hparent. subst parent.
  apply bind_ok_inv in H as (entries & w6 & _ & H).
  unfold _common_commit, bind, commitctx, ret in H. injection H as <- <-. cbn.
  split; [done|]. split; [done|]. split; [by intros ->|]. by rewrite last_snoc.
Qed.
End Descriptors.

(** * The description of a pushed changelist *)

Lemma append_cons x (a b : bytes) : String x a +:+ b = String x (a +:+ b).
Proof. reflexivity. Qed.

Lemma append_assoc (a b c : bytes) : (a +:+ b) +:+ c = a +:+ b +:+ c.
Proof. induction a as [|x a IH]; [done|]. by rewrite !append_cons, IH. Qed.

Lemma hexchar_is_hexdigit n : (n < 16)%N -> is_hexdigit (hexchar n) = true.
Proof.
  intros Hn. destruct n as [|p]; [reflexivity|].
  do 4 (destruct p as [p|p|]; try reflexivity); lia.
Qed.

Lemma hex_length s : String.length (hex s) = (2 * String.length s)%nat.
Proof. induction s as [|c s IH]; simpl; [done|]. rewrite IH. lia. Qed.

Lemma hex_all_hexdigits s : all_hexdigits (hex s) = true.
Proof.
  unfold all_hexdigits. induction s as [|c s IH]; [done|].
  cbn [hex list_ascii_of_string forallb]. rewrite IH.
  rewrite !hexchar_is_hexdigit; [done|..].
  - apply N.mod_lt. done.
  - apply N.Div0.div_lt_upper_bound. pose proof (N_ascii_bounded c). lia.
Qed.

Section Description.
Variable py_int : bytes -> option Z.

Global Instance same_log_preorder : PreOrder same_log.
Proof. split; [by intros w|]. intros w1 w2 w3 H1 H2. unfold same_log in *. congruence. Qed.

Lemma same_but_ui_same_log w w' : same_but_ui w w' -> same_log w w'.
Proof. by intros (_ & ? & _). Qed.

Lemma map_m_lookup repo (g : rev -> bytes) nodes w r w' :
  map_m (fun n => bind (repo_getitem repo n) (fun c => ret (g c))) nodes w = (Ok r, w') ->
  exists ctxs, Forall2 (fun x c => repo_lookup repo x = Some c) nodes ctxs
               /\ r = map g ctxs /\ w' = w.
Proof.
  revert r w'. induction nodes as [|x nodes IH]; intros r w' H; simpl in H.
  - injection H as <- <-. by exists [].
  - apply bind_ok_inv in H as (y & w1 & Hy & H).
    apply bind_ok_inv in Hy as (c & w2 & Hc & Hy). apply repo_getitem_inv in Hc as [Hc ->].
    injection Hy as <- <-.
    apply bind_ok_inv in H as (ys & w2 & Hys & H). injection H as <- <-.
    apply IH in Hys as (ctxs & HF & -> & ->). exists (c :: ctxs). by repeat constructor.
Qed.

Lemma push_description_inv repo nodes w desc w' :
  push_description repo nodes w = (Ok desc, w') ->
  exists ctxs first last_,
    Forall2 (fun x c => repo_lookup repo x = Some c) nodes ctxs
    /\ head ctxs = Some first /\ last ctxs = Some last_
    /\ desc = join (nl +:+ "* * *" +:+ nl) (map (ctx_description repo) ctxs)
              +:+ nl +:+ nl
              +:+ encode_marker (ctx_hex repo last_)
                    (if (1 <? length ctxs)%nat then Some (ctx_hex repo first) else None)
              +:+ nl.
Proof.
  unfold push_description. intros H.
  apply bind_ok_inv in H as (descs & w1 & Hd & H).
  apply map_m_lookup in Hd as (ctxs & HF & -> & ->).
  apply bind_ok_inv in H as (h & w1 & Hh & H).
  apply bind_ok_inv in H as (tip & w2 & Ht & H). injection H as <- <-.
  pose proof (Forall2_length _ _ _ HF) as Hlen.
  destruct (last nodes) as [x|] eqn:Ex; [|discriminate].
  apply bind_ok_inv in Ht as (cl_ & w3 & Hcl & Ht). apply repo_getitem_inv in Hcl as [Hcl ->].
  injection Ht as <- <-.
  assert (Hlast : last ctxs = Some cl_).
  { destruct nodes as [|y nodes _] using rev_ind; [done|].
    apply Forall2_app_inv_l in HF as (c1 & c2 & _ & HF2 & ->).
    apply Forall2_cons_inv_l in HF2 as (c & c3 & Hc & HF3 & ->).
    apply Forall2_nil_inv_l in HF3 as ->.
    rewrite last_snoc in Ex. injection Ex as ->. rewrite last_snoc. congruence. }
  destruct ctxs as [|first ctxs]; [done|].
  exists (first :: ctxs), first, cl_. split; [done|]. split; [done|]. split; [done|].
  assert (Hb : (1 <? length (first :: ctxs))%nat = (1 <? length nodes)%nat) by (by rewrite <- Hlen).
  rewrite Hb. unfold encode_marker.
  destruct (1 <? length nodes)%nat eqn:E1.
  - destruct nodes as [|y nodes]; [done|]. cbn [head] in Hh.
    apply bind_ok_inv in Hh as (c & w3 & Hc & Hh). apply repo_getitem_inv in Hc as [Hc ->].
    injection Hh as <- <-.
    apply Forall2_cons_1 in HF as [Hy _]. assert (c = first) as -> by congruence.
    replace (join ":" ([ctx_hex repo first] ++ [ctx_hex repo cl_]))
      with (ctx_hex repo first +:+ ":" +:+ ctx_hex repo cl_) by reflexivity.
    by rewrite !append_assoc.
  - injection Hh as <- <-.
    replace (join ":" ([] ++ [ctx_hex repo cl_])) with (ctx_hex repo cl_) by reflexivity.
    by rewrite !append_assoc.
Qed.

Lemma pushcommon_plan_inv cl opts w plan w' :
  _pushcommon py_int cl opts w = (Ok (Some plan), w') ->
  exists rv w1 w2,
    push_revisions py_int cl opts w = (Ok rv, w1)
    /\ pp_nodes plan = rv.2
    /\ (pp_mod plan, pp_add plan, pp_rem plan, pp_cpy plan)
       = changed_files (c_repo cl) rv.1.1.2 rv.1.2
    /\ push_description (c_repo cl) (pp_nodes plan) w2 = (Ok (pp_desc plan), w').
Proof.
  unfold _pushcommon. intros H.
  apply bind_ok_inv in H as ([[[[p4rev p4id] ctx1] ctx2] nodes] & w1 & Hrv & H).
  destruct nodes as [|x nodes].
  { apply bind_ok_inv in H as (? & ? & _ & H). discriminate. }
  destruct (changed_files (c_repo cl) ctx1 ctx2) as [[[mod_ add_] rem_] cpy] eqn:Ec.
  destruct (mod_ ++ add_ ++ rem_)%list.
  { apply bind_ok_inv in H as (? & ? & _ & H). discriminate. }
  apply bind_ok_inv in H as ([] & w2 & _ & H).
  apply bind_ok_inv in H as (desc & w3 & Hd & H). injection H as <- <-.
  exists (p4rev, p4id, ctx1, ctx2, x :: nodes), w1, w2. cbn [fst snd pp_nodes pp_mod pp_add pp_rem pp_cpy pp_desc].
  by rewrite Ec.
Qed.

Lemma runone_records_same name abort ds value :
  steps same_but_ui (runone_records name abort ds value).
Proof.
  revert value. induction ds as [|d ds IH]; intros value; simpl; [leaf|].
  step; [apply run_check_same|]. destruct value; [leaf|apply IH].
Qed.

Lemma runone_log name c abort w r w' :
  runone name c abort w = (r, w') -> w_log w' = (w_log w ++ [c])%list.
Proof.
  unfold runone, popen. rewrite bind_unfold. intros H.
  match type of H with ?m ?w0 = _ => assert (Hs : same_but_ui w0 w') end.
  { revert H. step; [apply runone_records_same|]. destruct a; leaf. }
  by destruct Hs as (_ & -> & _).
Qed.

(** The form [change] pipes to [change -i] carries the encoded
    description, and this is the last command it issues. *)
Lemma change_writes_description cl chg text update jobs w r w' :
  change cl chg (Some text) update jobs w = (Ok r, w') ->
  exists c form,
    last (w_log w') = Some c
    /\ cmd_argv c = (["change"; "-i"] ++ (if update then ["-u"] else []))%list
    /\ cmd_input c = Some form
    /\ form !! "Description" = Some (c_encode cl text).
Proof.
  unfold change. intros H.
  apply bind_ok_inv in H as (changelist & w1 & _ & H).
  apply bind_ok_inv in H as (d & w2 & Hi & H).
  apply runone_log in Hi.
  match type of H with ?m ?w0 = _ => assert (Hs : same_log w0 w') end.
  { revert H. step; [leaf|]. step; [leaf|]. step.
    - destruct (bool_decide _); [|leaf]. step; [|destruct chg; leaf].
      destruct (c_verbose cl); [leaf|].
      eapply steps_weaken; [apply same_but_ui_same_log|apply ui_emit_same].
    - destruct a1; [leaf|]. step; [|leaf]. by intros ? ? ? [= _ <-]. }
  unfold same_log in Hs. rewrite Hs, Hi, last_snoc.
  do 2 eexists. split; [reflexivity|]. split; [done|]. split; [done|].
  apply lookup_insert_eq.
Qed.

(** C7. The description [push] writes to the depot changelist is the
    descriptions of the folded changesets, joined by the line [* * *],
    then a blank line and the marker: the hexadecimal id of the last
    changeset, preceded by that of the first and a colon when more than one
    changeset is folded.  The id of a 20-byte node is 40 lowercase
    hexadecimal digits.  It is the text handed, through [encode], to
    [change -i]. *)
Theorem push_writes_marked_description cl opts w ps w' :
  push py_int cl opts w = (Ok (Some ps), w') ->
  exists plan ctxs first last_,
    (exists w1, _pushcommon py_int cl opts (push_announce cl opts w).2 = (Ok (Some plan), w1))
    /\ Forall2 (fun x c => repo_lookup (c_repo cl) x = Some c) (pp_nodes plan) ctxs
    /\ head ctxs = Some first /\ last ctxs = Some last_
    /\ pp_desc plan
       = join (nl +:+ "* * *" +:+ nl) (map (ctx_description (c_repo cl)) ctxs)
         +:+ nl +:+ nl
         +:+ encode_marker (ctx_hex (c_repo cl) last_)
               (if (1 <? length ctxs)%nat then Some (ctx_hex (c_repo cl) first) else None)
         +:+ nl
    /\ (length ctxs = 1%nat ->
        pp_desc plan
        = ctx_description (c_repo cl) first +:+ nl +:+ nl
          +:+ "{{mercurial " +:+ ctx_hex (c_repo cl) first +:+ "}}" +:+ nl)
    /\ (forall c, c ∈ ctxs -> String.length (ctx_node (c_repo cl) c) = 20%nat ->
          String.length (ctx_hex (c_repo cl) c) = 40%nat
          /\ all_hexdigits (ctx_hex (c_repo cl) c) = true)
    /\ (exists c form,
          last (w_log w') = Some c /\ cmd_argv c = ["change"; "-i"]
          /\ cmd_input c = Some form
          /\ form !! "Description" = Some (c_encode cl (pp_desc plan))).
Proof.
  intros H. unfold push in H.
  destruct (push_announce_ok cl opts w) as [Hann _]. rewrite (bind_ok _ _ _ _ _ Hann) in H.
  apply bind_ok_inv in H as ([plan|] & w1 & Hplan & H); [|discriminate].
  destruct (pushcommon_plan_inv _ _ _ _ _ Hplan) as (rv & w2 & w3 & _ & _ & _ & Hdesc).
  apply push_description_inv in Hdesc as (ctxs & first & last_ & HF & Hhead & Hlast & Hd).
  exists plan, ctxs, first, last_.
  split; [eauto|]. split; [done|]. split; [done|]. split; [done|]. split; [done|].
  split; [|split].
  - intros Hone. rewrite Hd, Hone. destruct ctxs as [|c [|? ?]]; try done.
    injection Hhead as ->. injection Hlast as <-. simpl. unfold encode_marker.
    by rewrite !append_assoc.
  - intros c _ Hlen. unfold ctx_hex. rewrite hex_length, Hlen. split; [done|].
    apply hex_all_hexdigits.
  - apply bind_ok_inv in H as (mc & w4 & _ & H).
    apply bind_ok_inv in H as (pending & w5 & _ & H).
    apply bind_ok_inv in H as ([] & w6 & _ & H).
    apply bind_ok_inv in H as (use & w7 & _ & H).
    apply bind_ok_inv in H as ([] & w8 & _ & H).
    apply bind_ok_inv in H as ([] & w9 & _ & H).
    apply bind_ok_inv in H as (use' & w10 & Hchange & H). injection H as _ <-.
    apply change_writes_description in Hchange as (c & form & ? & ? & ? & ?).
    by exists c, form.
Qed.
End Description.

(** * Sorting out the copies from the adds *)

Section Copies.
Variables (move copy : bool) (cpy : gmap bytes (bytes * bool)).
Variable rem_ : list (bytes * bytes).

Lemma rems_of_lookup r b : rems_of rem_ !! r = Some b <-> b = true /\ r ∈ rem_.*1.
Proof.
  unfold rems_of. induction rem_ as [|x l IH] using rev_ind.
  - simpl. rewrite lookup_empty. split; [done|]. intros [_ H]. by apply elem_of_nil in H.
  - rewrite foldl_app, fmap_app. simpl. rewrite lookup_insert. case_decide as Hx.
    + subst r. split; [intros [= <-]|intros [-> _]; done]. split; [done|set_solver].
    + rewrite IH. set_solver.
Qed.

Lemma sorted_inv_init : sorted_inv move copy cpy rem_ [] (sorted0 rem_).
Proof.
  split; simpl; try (intros; exfalso; set_solver).
  intros r. rewrite rems_of_lookup. set_solver.
Qed.

Lemma sorted_inv_step done_ acc fg :
  sorted_inv move copy cpy rem_ done_ acc ->
  sorted_inv move copy cpy rem_ (done_ ++ [fg]) (sort_add move copy cpy acc fg).
Proof.
  intros [Hrems Hmoves Hsrc Hadd2 Hmod2 Hcopies Hntg Hsorted Hint].
  destruct fg as [f g]. unfold sort_add.
  destruct (cpy !! f) as [[r chg]|] eqn:Ef.
  - assert (Hacc1 : sorted_inv move copy cpy rem_ (done_ ++ [(f, g)])
      (if move && bool_decide (s_rems acc !! r = Some true)
       then {| s_rems := <[r := false]> (s_rems acc);
               s_moves := s_moves acc ++ [(r, f, g)];
               s_copies := s_copies acc; s_ntg := s_ntg acc;
               s_add2 := s_add2 acc; s_mod2 := s_mod2 acc |}
       else if copy
       then {| s_rems := s_rems acc; s_moves := s_moves acc;
               s_copies := s_copies acc ++ [(r, f)]; s_ntg := s_ntg acc;
               s_add2 := s_add2 acc; s_mod2 := s_mod2 acc |}
       else {| s_rems := s_rems acc; s_moves := s_moves acc;
               s_copies := s_copies acc; s_ntg := s_ntg acc ++ [(r, f)];
               s_add2 := s_add2 acc; s_mod2 := s_mod2 acc |})).
    { destruct (move && bool_decide (s_rems acc !! r = Some true)) eqn:Em;
        [|destruct copy eqn:Ecopy].
      - apply andb_prop in Em as [Hmv Hr]. apply bool_decide_eq_true in Hr.
        split; simpl.
        + intros r'. rewrite lookup_insert, !fmap_app. simpl. case_decide as Hrr.
          * subst r'. split; [done|]. intros [_ Hn]. set_solver.
          * rewrite Hrems. set_solver.
        + intros r' f' g' [Hel| Heq%list_elem_of_singleton]%elem_of_app.
          * destruct (Hmoves _ _ _ Hel) as [? ?]. split; [set_solver|done].
          * injection Heq as -> -> ->. split; [set_solver|eauto].
        + intros r' f' g' [Hel| Heq%list_elem_of_singleton]%elem_of_app; [by eapply Hsrc|].
          injection Heq as -> -> ->. by apply Hrems in Hr as [? _].
        + intros f' g' Hel. destruct (Hadd2 _ _ Hel). split; [set_solver|done].
        + intros f' g' Hel. apply Hmod2 in Hel. set_solver.
        + intros r' f' Hel. destruct (Hcopies _ _ Hel). split; [|done].
          rewrite fmap_app. set_solver.
        + intros r' f' Hel. apply Hntg in Hel. rewrite fmap_app. set_solver.
        + intros f' g' r' chg' [Hel| Heq%list_elem_of_singleton]%elem_of_app Hc.
          * destruct (Hsorted _ _ _ _ Hel Hc) as [[g'' ?]|[?|?]]; [left|by right; left|by right; right].
            exists g''. set_solver.
          * injection Heq as -> ->. assert (r' = r) as -> by congruence.
            left. exists g. set_solver.
        + intros ? ? ? ? Hm. rewrite Hmv in Hm. discriminate.
      - split; simpl; try done.
        + intros r' f' g' Hel. destruct (Hmoves _ _ _ Hel) as [? ?]. split; [set_solver|done].
        + intros f' g' Hel. destruct (Hadd2 _ _ Hel). split; [set_solver|done].
        + intros f' g' Hel. apply Hmod2 in Hel. set_solver.
        + intros r' f' [Hel| Heq%list_elem_of_singleton]%elem_of_app.
          * destruct (Hcopies _ _ Hel). split; [|done]. rewrite fmap_app. set_solver.
          * injection Heq as -> ->. split; [|done]. rewrite fmap_app. set_solver.
        + intros r' f' Hel. apply Hntg in Hel. rewrite fmap_app. set_solver.
        + intros f' g' r' chg' [Hel| Heq%list_elem_of_singleton]%elem_of_app Hc.
          * destruct (Hsorted _ _ _ _ Hel Hc) as [?|[?|?]]; [by left|right; left|by right; right].
            set_solver.
          * injection Heq as -> ->. assert (r' = r) as -> by congruence.
            right. left. set_solver.
      - split; simpl; try done.
        + intros r' f' g' Hel. destruct (Hmoves _ _ _ Hel) as [? ?]. split; [set_solver|done].
        + intros f' g' Hel. destruct (Hadd2 _ _ Hel). split; [set_solver|done].
        + intros f' g' Hel. apply Hmod2 in Hel. set_solver.
        + intros r' f' Hel. destruct (Hcopies _ _ Hel). split; [|done].
          rewrite fmap_app. set_solver.
        + intros r' f' [Hel| Heq%list_elem_of_singleton]%elem_of_app.
          * apply Hntg in Hel. rewrite fmap_app. set_solver.
          * injection Heq as -> ->. rewrite fmap_app. set_solver.
        + intros f' g' r' chg' [Hel| Heq%list_elem_of_singleton]%elem_of_app Hc.
          * destruct (Hsorted _ _ _ _ Hel Hc) as [?|[?|?]]; [by left|by right; left|right; right].
            set_solver.
          * injection Heq as -> ->. assert (r' = r) as -> by congruence.
            right. right. set_solver.
        + intros f' g' r' chg' Hm _ [Hel| Heq%list_elem_of_singleton]%elem_of_app Hc.
          * specialize (Hint _ _ _ _ Hm eq_refl Hel Hc). set_solver.
          * injection Heq as -> ->. assert (r' = r) as -> by congruence. set_solver. }
    destruct chg; [|done].
    destruct Hacc1 as [Hrems1 Hmoves1 Hsrc1 Hadd21 Hmod21 Hcopies1 Hntg1 Hsorted1 Hint1].
    split; simpl; try done.
    intros f' g' [Hel| Heq%list_elem_of_singleton]%elem_of_app; [by apply Hmod21|].
    injection Heq as -> ->. set_solver.
  - split; simpl; try done.
    + intros r' f' g' Hel. destruct (Hmoves _ _ _ Hel) as [? ?]. split; [set_solver|done].
    + intros f' g' [Hel| Heq%list_elem_of_singleton]%elem_of_app.
      * destruct (Hadd2 _ _ Hel). split; [set_solver|done].
      * injection Heq as -> ->. split; [set_solver|done].
    + intros f' g' Hel. apply Hmod2 in Hel. set_solver.
    + intros r' f' Hel. destruct (Hcopies _ _ Hel). split; [|done]. rewrite fmap_app. set_solver.
    + intros r' f' Hel. apply Hntg in Hel. rewrite fmap_app. set_solver.
    + intros f' g' r' chg' [Hel| Heq%list_elem_of_singleton]%elem_of_app Hc.
      * by eapply Hsorted.
      * injection Heq as -> ->. congruence.
    + intros f' g' r' chg' Hm Hcp [Hel| Heq%list_elem_of_singleton]%elem_of_app Hc.
      * by eapply Hint.
      * injection Heq as -> ->. congruence.
Qed.

Lemma sorted_inv_foldl add_ : forall done_ acc,
  sorted_inv move copy cpy rem_ done_ acc ->
  sorted_inv move copy cpy rem_ (done_ ++ add_) (foldl (sort_add move copy cpy) acc add_).
Proof.
  induction add_ as [|fg add_ IH]; intros done_ acc Hinv; simpl.
  - by rewrite app_nil_r.
  - replace (done_ ++ fg :: add_)%list with ((done_ ++ [fg]) ++ add_)%list
      by (by rewrite <- app_assoc).
    apply IH. by apply sorted_inv_step.
Qed.

Lemma sort_add_moves_mono acc fg x :
  x ∈ s_moves acc -> x ∈ s_moves (sort_add move copy cpy acc fg).
Proof.
  intros H. destruct fg as [f g]. unfold sort_add.
  destruct (cpy !! f) as [[r chg]|]; [|done].
  destruct (move && _); [|destruct copy]; destruct chg; simpl; set_solver.
Qed.

Lemma foldl_moves_mono add_ : forall acc x,
  x ∈ s_moves acc -> x ∈ s_moves (foldl (sort_add move copy cpy) acc add_).
Proof.
  induction add_ as [|fg add_ IH]; intros acc x H; simpl; [done|].
  by apply IH, sort_add_moves_mono.
Qed.

(** C9. An added file that the diff reports as copied from a
    source is never left as a plain add.  With move and copy both disabled
    it is an integrate from that source.  With move supported, the first
    added file copied from a source that this push removes is a move; and
    whatever a move takes as source is left out of the delete list. *)
Theorem copied_add_is_classified mod_ add_ f g r chg :
  (f, g) ∈ add_ ->
  cpy !! f = Some (r, chg) ->
  let st := sort_copies move copy cpy mod_ add_ rem_ in
  ((f, g) ∉ g_add st)
  /\ (move = false -> copy = false -> (r, f) ∈ g_ntg st)
  /\ (move = true -> r ∈ rem_.*1 ->
      (exists before after,
         add_ = (before ++ (f, g) :: after)%list
         /\ forall f' g' chg', (f', g') ∈ before -> cpy !! f' <> Some (r, chg')) ->
      (r, f, g) ∈ g_moves st)
  /\ (forall r' f' g', (r', f', g') ∈ g_moves st -> r' ∉ (g_rem st).*1).
Proof.
  intros Hin Hc st.
  pose proof (sorted_inv_foldl add_ [] (sorted0 rem_) sorted_inv_init) as Hinv.
  rewrite app_nil_l in Hinv.
  split; [|split; [|split]].
  - intros H. apply (inv_add2 _ _ _ _ _ _ Hinv) in H as [_ H]. congruence.
  - intros Hm Hcp. by eapply (inv_integrated _ _ _ _ _ _ Hinv).
  - intros Hm Hr (before & after & -> & Hfirst). subst st. unfold sort_copies. simpl.
    rewrite foldl_app. simpl. apply foldl_moves_mono.
    pose proof (sorted_inv_foldl before [] (sorted0 rem_) sorted_inv_init) as Hb.
    rewrite app_nil_l in Hb. fold (sorted0 rem_).
    set (acc := foldl (sort_add move copy cpy) (sorted0 rem_) before) in *.
    unfold sort_add. rewrite Hc, Hm.
    assert (Hmark : s_rems acc !! r = Some true).
    { apply (inv_rems _ _ _ _ _ _ Hb). split; [done|]. intros Hsrc.
      apply list_elem_of_fmap in Hsrc as ([r' f'] & Hr' & Hsrc). simpl in Hr'. subst r'.
      apply list_elem_of_fmap in Hsrc as ([[r' f''] g'] & Heq & Hsrc). simpl in Heq.
      injection Heq as <- <-.
      destruct (inv_moves _ _ _ _ _ _ Hb _ _ _ Hsrc) as [Hd [chg' Hc']]. by eapply Hfirst. }
    rewrite bool_decide_eq_true_2 by done. simpl. destruct chg; simpl; set_solver.
  - intros r' f' g' Hmv Hrem. subst st. unfold sort_copies in *. simpl in *.
    apply list_elem_of_fmap in Hrem as ([r'' g''] & Heq & Hrem). simpl in Heq. subst r''.
    apply list_elem_of_In, filter_In in Hrem as [_ Hmark]. simpl in Hmark.
    apply bool_decide_eq_true in Hmark. apply (inv_rems _ _ _ _ _ _ Hinv) in Hmark as [_ Hn].
    apply Hn. apply list_elem_of_fmap. exists (r', f'). split; [done|].
    apply list_elem_of_fmap. by exists (r', f', g').
Qed.
End Copies.

(** * Files of the repository that are never pushed *)

Lemma drop_dothg_clean changes : Forall (fun f => dothg f = false) (drop_dothg changes).*1.
Proof.
  apply Forall_forall. intros f Hf.
  apply list_elem_of_fmap in Hf as ([f' g] & -> & Hf).
  apply list_elem_of_In, filter_In in Hf as [_ Hf]. by apply negb_true_iff in Hf.
Qed.

Lemma drop_dothg_all (g : bytes -> bytes) files :
  Forall (fun f => dothg f = true) files ->
  drop_dothg (map (fun f => (f, g f)) files) = [].
Proof.
  induction 1 as [|f files Hf _ IH]; [done|].
  cbn [map]. unfold drop_dothg in *. cbn [List.filter fst].
  fold (dothg f). by rewrite Hf.
Qed.

Lemma sort_copies_clean move copy cpy (mod_ add_ rem_ : list (bytes * bytes)) :
  Forall (fun f => dothg f = false) ((mod_ ++ add_ ++ rem_)%list).*1 ->
  Forall (fun f => dothg f = false) (staged_files (sort_copies move copy cpy mod_ add_ rem_)).
Proof.
  rewrite !fmap_app, !Forall_app. intros (Hmod & Hadd & Hrem).
  pose proof (sorted_inv_foldl move copy cpy rem_ add_ [] _ (sorted_inv_init _ _ _ _)) as Hinv.
  rewrite app_nil_l in Hinv.
  rewrite Forall_forall in Hadd. rewrite Forall_forall in Hrem.
  unfold staged_files, sort_copies. cbn [g_mod g_mod2 g_add g_rem g_copies g_moves g_ntg].
  rewrite !fmap_app, !Forall_app. repeat split; try done; apply Forall_forall; intros x Hx.
  - apply list_elem_of_fmap in Hx as ([f g] & -> & Hx).
    apply (inv_mod2 _ _ _ _ _ _ Hinv) in Hx. apply Hadd. by apply (list_elem_of_fmap_2 fst) in Hx.
  - apply list_elem_of_fmap in Hx as ([f g] & -> & Hx).
    apply (inv_add2 _ _ _ _ _ _ Hinv) in Hx as [Hx _]. apply Hadd.
    by apply (list_elem_of_fmap_2 fst) in Hx.
  - apply list_elem_of_fmap in Hx as ([f g] & -> & Hx).
    apply list_elem_of_In, filter_In in Hx as [Hx _]. apply Hrem.
    apply list_elem_of_In in Hx. by apply (list_elem_of_fmap_2 fst) in Hx.
  - apply list_elem_of_fmap in Hx as ([r f] & -> & Hx).
    apply (inv_copies _ _ _ _ _ _ Hinv) in Hx as [Hx _]. by apply Hadd.
  - apply list_elem_of_fmap in Hx as ([r f] & -> & Hx).
    apply (inv_ntg _ _ _ _ _ _ Hinv) in Hx. by apply Hadd.
  - apply list_elem_of_fmap in Hx as ([[r f] g] & -> & Hx).
    apply (inv_moves _ _ _ _ _ _ Hinv) in Hx as [Hx _]. apply Hadd.
    by apply (list_elem_of_fmap_2 fst) in Hx.
  - apply list_elem_of_fmap in Hx as ([[r f] g] & -> & Hx).
    apply (inv_moves_src _ _ _ _ _ _ Hinv) in Hx. by apply Hrem.
Qed.

Section DotHg.
Variable py_int : bytes -> option Z.

Lemma changed_files_clean repo ctx1 ctx2 :
  Forall (fun f => dothg f = false)
    (((changed_files repo ctx1 ctx2).1.1.1 ++ (changed_files repo ctx1 ctx2).1.1.2
      ++ (changed_files repo ctx1 ctx2).1.2)%list).*1.
Proof.
  unfold changed_files. destruct (repo_status _ _ _) as [[m a] r]. cbn [fst snd].
  rewrite !fmap_app, !Forall_app. repeat split; apply drop_dothg_clean.
Qed.

Lemma changed_files_all_dothg repo ctx1 ctx2 :
  Forall (fun f => dothg f = true)
    (let '(m, a, r) := repo_status repo (ctx_node repo ctx1) (ctx_node repo ctx2) in
     (m ++ a ++ r)%list) ->
  exists cpy, changed_files repo ctx1 ctx2 = ([], [], [], cpy).
Proof.
  unfold changed_files. destruct (repo_status _ _ _) as [[m a] r]. intros Hall.
  apply Forall_app in Hall as [Hm Hall]. apply Forall_app in Hall as [Ha Hr].
  eexists. repeat f_equal.
  - by apply (drop_dothg_all (ctx_flags repo ctx2)).
  - by apply (drop_dothg_all (ctx_flags repo ctx2)).
  - by apply (drop_dothg_all (fun _ => EmptyString)).
Qed.

(** C10. The files whose path starts with ".hg" are taken out of the
    modified, added and removed lists of every plan that [_pushcommon]
    returns, for push and for outgoing, so that none is among the files a
    push opens on the depot; and a push whose changed files all start with
    ".hg" reports "no changes found" and returns. *)
Theorem dothg_files_are_left_out cl opts w rv w1 :
  push_revisions py_int cl opts (push_announce cl opts w).2 = (Ok rv, w1) ->
  (forall plan w', _pushcommon py_int cl opts (push_announce cl opts w).2
                   = (Ok (Some plan), w') ->
     Forall (fun f => dothg f = false) ((pp_mod plan ++ pp_add plan ++ pp_rem plan)%list).*1)
  /\ (forall ps w', push py_int cl opts w = (Ok (Some ps), w') ->
        Forall (fun f => dothg f = false) (staged_files (ps_staging ps)))
  /\ (Forall (fun f => dothg f = true)
        (let '(m, a, r) := repo_status (c_repo cl) (ctx_node (c_repo cl) rv.1.1.2)
                                       (ctx_node (c_repo cl) rv.1.2) in
         (m ++ a ++ r)%list) ->
      exists w', push py_int cl opts w = (Ok None, w')
                 /\ last (w_ui w') = Some no_changes_found).
Proof.
  intros Hrv.
  assert (Hplan : forall plan w', _pushcommon py_int cl opts (push_announce cl opts w).2
                   = (Ok (Some plan), w') ->
     Forall (fun f => dothg f = false) ((pp_mod plan ++ pp_add plan ++ pp_rem plan)%list).*1).
  { intros plan w' H.
    destruct (pushcommon_plan_inv _ _ _ _ _ _ H) as (rv' & ? & ? & _ & _ & Hc & _).
    pose proof (changed_files_clean (c_repo cl) rv'.1.1.2 rv'.1.2) as Hclean.
    rewrite <- Hc in Hclean. done. }
  destruct (push_announce_ok cl opts w) as [Hann _].
  split; [done|]. split.
  - intros ps w' H. unfold push in H. rewrite (bind_ok _ _ _ _ _ Hann) in H.
    apply bind_ok_inv in H as ([plan|] & w2 & Hp & H); [|discriminate].
    apply bind_ok_inv in H as (mc & w4 & _ & H).
    apply bind_ok_inv in H as (pending & w5 & _ & H).
    apply bind_ok_inv in H as ([] & w6 & _ & H).
    apply bind_ok_inv in H as (use & w7 & _ & H).
    apply bind_ok_inv in H as ([] & w8 & _ & H).
    apply bind_ok_inv in H as ([] & w9 & _ & H).
    apply bind_ok_inv in H as (use' & w10 & _ & H). injection H as <- <-.
    cbn [ps_staging]. apply sort_copies_clean. by eapply Hplan.
  - intros Hall. destruct rv as [[[[p4rev p4id] ctx1] ctx2] nodes]. cbn [fst snd] in Hall.
    assert (Hc : exists w', _pushcommon py_int cl opts (push_announce cl opts w).2
                            = (Ok None, w') /\ last (w_ui w') = Some no_changes_found).
    { unfold _pushcommon. rewrite (bind_ok _ _ _ _ _ Hrv).
      assert (Hnone : forall w0, exists w', bind (ui_status ("no changes found" +:+ nl))
                (fun _ => ret (@None pushplan)) w0 = (Ok None, w')
                /\ last (w_ui w') = Some no_changes_found).
      { intros w0. eexists. split; [reflexivity|]. cbn. by rewrite last_snoc. }
      destruct nodes as [|x nodes]; [apply Hnone|].
      destruct (changed_files_all_dothg _ _ _ Hall) as [cpy ->].
      apply Hnone. }
    destruct Hc as (w' & Hc & Hui). exists w'. split; [|done].
    unfold push. rewrite (bind_ok _ _ _ _ _ Hann). by rewrite (bind_ok _ _ _ _ _ Hc).
Qed.
End DotHg.

(** * The marker written by push and read by pull *)

Lemma strip_prefix_app p s : strip_prefix p (p +:+ s) = Some s.
Proof.
  induction p as [|a p IH]; [done|]. rewrite append_cons. cbn [strip_prefix].
  by rewrite Ascii.eqb_refl.
Qed.

Lemma strip_prefix_Some p s r : strip_prefix p s = Some r -> s = p +:+ r.
Proof.
  revert s. induction p as [|a p IH]; intros s H; simpl in H.
  - by injection H as ->.
  - destruct s as [|b s]; [discriminate|].
    destruct (Ascii.eqb_spec a b) as [->|]; [|discriminate].
    rewrite append_cons. f_equal. by apply IH.
Qed.

Lemma take_hex_app h r :
  all_hexdigits h = true -> take_hex (String.length h) (h +:+ r) = Some (h, r).
Proof.
  unfold all_hexdigits. induction h as [|c h IH]; intros Hh; [done|].
  cbn [list_ascii_of_string forallb] in Hh. apply andb_prop in Hh as [Hc Hh].
  rewrite append_cons. cbn [String.length take_hex]. by rewrite Hc, IH.
Qed.

Lemma app_length (a b : bytes) : String.length (a +:+ b) = (String.length a + String.length b)%nat.
Proof. induction a as [|c a IH]; [done|]. rewrite append_cons. simpl. by rewrite IH. Qed.

Lemma take_hex_40 h r :
  all_hexdigits h = true -> String.length h = 40%nat -> take_hex 40 (h +:+ r) = Some (h, r).
Proof. intros Hh <-. by apply take_hex_app. Qed.

(** A well-formed marker is matched where it stands, whatever follows. *)
Lemma re_hgid_match_marker d a post :
  all_hexdigits d = true -> String.length d = 40%nat ->
  (forall x, a = Some x -> all_hexdigits x = true /\ String.length x = 40%nat) ->
  re_hgid_match (encode_marker d a +:+ post)
  = Some (default d a, (fun _ => d) <$> a, post).
Proof.
  intros Hd Hdl Ha. unfold encode_marker, re_hgid_match.
  rewrite !append_assoc, strip_prefix_app.
  destruct a as [x|]; cbn [default fmap option_fmap option_map].
  - destruct (Ha x eq_refl) as [Hx Hxl].
    rewrite !append_assoc, take_hex_40 by done.
    rewrite (strip_prefix_app ":"), take_hex_40 by done.
    by rewrite (strip_prefix_app "}}").
  - rewrite take_hex_40 by done.
    replace (strip_prefix ":" ("}}" +:+ post)) with (@None bytes) by reflexivity.
    by rewrite (strip_prefix_app "}}").
Qed.

Lemma strip_prefix_None p : forall s,
  strip_prefix p s = None ->
  (forall t, strip_prefix p (s +:+ t) = None) \/ (exists q, p = s +:+ q /\ q <> EmptyString).
Proof.
  induction p as [|a p IH]; intros s H; [discriminate|].
  destruct s as [|b s]; [right; by exists (String a p)|].
  cbn [strip_prefix] in H. destruct (Ascii.eqb_spec a b) as [->|Hne].
  - destruct (IH s H) as [Hl|(q & -> & Hq)].
    + left. intros t. rewrite append_cons. cbn [strip_prefix]. by rewrite Ascii.eqb_refl.
    + right. by exists q.
  - left. intros t. rewrite append_cons. cbn [strip_prefix].
    by destruct (Ascii.eqb_spec a b).
Qed.

(** No match of the pattern starts in a text free of ["{{mercurial "], even
    when a marker follows it. *)
Lemma no_match_before c s rest :
  strip_prefix "{{mercurial " (String c s) = None ->
  strip_prefix "{{mercurial " (String c s +:+ "{{mercurial " +:+ rest) = None.
Proof.
  intros H. destruct (strip_prefix_None _ _ H) as [Hl|(q & Hq & Hne)]; [apply Hl|].
  rewrite append_cons in Hq. injection Hq as <- Hq.
  do 11 (destruct s as [|? s];
         [reflexivity|rewrite append_cons in Hq; injection Hq as <- Hq]).
  destruct s; [|discriminate]. by destruct q.
Qed.

Lemma occurs_cons p c s : occurs p (String c s) = false ->
  strip_prefix p (String c s) = None /\ occurs p s = false.
Proof. cbn [occurs]. by destruct (strip_prefix p (String c s)). Qed.

Lemma re_hgid_match_None s : strip_prefix "{{mercurial " s = None -> re_hgid_match s = None.
Proof. unfold re_hgid_match. by intros ->. Qed.

Lemma re_hgid_search_from_unfold i s :
  re_hgid_search_from i s =
  match re_hgid_match s with
  | Some (g2, g4, rest) =>
      Some {| m_start := i; m_end := (i + (String.length s - String.length rest))%nat;
              group2 := g2; group4 := g4 |}
  | None =>
      match s with
      | EmptyString => None
      | String _ s' => re_hgid_search_from (S i) s'
      end
  end.
Proof. by destruct s. Qed.

(** The search finds the marker that follows a text free of
    ["{{mercurial "]. *)
Lemma re_hgid_search_marker pre d a post : forall i,
  occurs "{{mercurial " pre = false ->
  all_hexdigits d = true -> String.length d = 40%nat ->
  (forall x, a = Some x -> all_hexdigits x = true /\ String.length x = 40%nat) ->
  re_hgid_search_from i (pre +:+ encode_marker d a +:+ post)
  = Some {| m_start := (i + String.length pre)%nat;
            m_end := (i + String.length pre + String.length (encode_marker d a))%nat;
            group2 := default d a; group4 := (fun _ => d) <$> a |}.
Proof.
  induction pre as [|c pre IH]; intros i Hocc Hd Hdl Ha.
  - change (EmptyString +:+ ?x) with x.
    rewrite re_hgid_search_from_unfold, re_hgid_match_marker by done.
    rewrite app_length. cbn [String.length]. do 2 f_equal; lia.
  - apply occurs_cons in Hocc as [Hc Hocc].
    rewrite re_hgid_search_from_unfold, re_hgid_match_None.
    2:{ unfold encode_marker. rewrite !append_assoc. by apply no_match_before. }
    rewrite append_cons, IH by done. cbn [String.length]. do 2 f_equal; lia.
Qed.

Lemma strip_prefix_sep p c : forall s t,
  ~ In c (list_ascii_of_string p) ->
  is_Some (strip_prefix p (s +:+ String c t)) <-> is_Some (strip_prefix p s).
Proof.
  induction p as [|a p IH]; intros s t Hc; [by split; eauto|].
  destruct s as [|b s].
  - change (EmptyString +:+ ?x) with x. cbn [strip_prefix].
    destruct (Ascii.eqb_spec a c) as [->|_]; [exfalso; apply Hc; by left|].
    split; intros [? ?]; discriminate.
  - rewrite append_cons. cbn [strip_prefix]. destruct (Ascii.eqb a b).
    + apply IH. intros Hin. apply Hc. by right.
    + done.
Qed.

(** An occurrence of [p] does not reach across a byte that is not in [p]. *)
Lemma occurs_sep p c s t :
  p <> EmptyString -> ~ In c (list_ascii_of_string p) ->
  occurs p (s +:+ String c t) = occurs p s || occurs p t.
Proof.
  intros Hp Hc. induction s as [|b s IH].
  - change (EmptyString +:+ ?x) with x. cbn [occurs].
    destruct p as [|a p]; [done|]. cbn [strip_prefix].
    destruct (Ascii.eqb_spec a c) as [->|_]; [exfalso; apply Hc; by left|done].
  - rewrite append_cons. cbn [occurs]. rewrite <- append_cons.
    pose proof (strip_prefix_sep p c (String b s) t Hc) as Hiff.
    destruct (strip_prefix p (String b s +:+ String c t)) as [r|],
             (strip_prefix p (String b s)) as [r'|]; try done.
    + exfalso. destruct Hiff as [Hiff _]. destruct Hiff as [? ?]; [eauto|discriminate].
    + exfalso. destruct Hiff as [_ Hiff]. destruct Hiff as [? ?]; [eauto|discriminate].
Qed.

Lemma occurs_join_descriptions descs :
  Forall (fun d => occurs "{{mercurial " d = false) descs ->
  occurs "{{mercurial " (join (nl +:+ "* * *" +:+ nl) descs) = false.
Proof.
  assert (Hnl : ~ In "010"%char (list_ascii_of_string "{{mercurial ")).
  { cbn. intros H. repeat (destruct H as [H|H]; [discriminate|]). done. }
  induction 1 as [|d descs Hd Hds IH]; [done|].
  destruct descs as [|d' descs]; [done|].
  replace (join (nl +:+ "* * *" +:+ nl) (d :: d' :: descs))
    with (d +:+ String "010" ("* * *" +:+ String "010"
                                (join (nl +:+ "* * *" +:+ nl) (d' :: descs))))
    by reflexivity.
  rewrite occurs_sep, Hd by done. rewrite occurs_sep by done. by rewrite IH.
Qed.

Lemma re_hgid_sub_go_skip a b :
  re_hgid_sub_go (String.length a) (a +:+ b) = re_hgid_sub_go 0 b.
Proof. induction a as [|c a IH]; [done|]. by rewrite append_cons. Qed.

Lemma re_hgid_sub_go_unfold c s :
  re_hgid_sub_go 0 (String c s) =
  match re_hgid_match (String c s) with
  | Some (_, _, rest) =>
      "{{}}" +:+ re_hgid_sub_go (String.length (String c s) - String.length rest - 1) s
  | None => String c (re_hgid_sub_go 0 s)
  end.
Proof. reflexivity. Qed.

Lemma Forall2_lookup_elem (repo : hgrepo) (nodes : list node) (ctxs : list rev) c :
  Forall2 (fun x c => repo_lookup repo x = Some c) nodes ctxs ->
  c ∈ ctxs -> exists x, x ∈ nodes /\ repo_lookup repo x = Some c.
Proof.
  induction 1 as [|x c' nodes ctxs Hx _ IH]; intros Hc; [by apply elem_of_nil in Hc|].
  apply elem_of_cons in Hc as [->|Hc].
  - exists x. split; [by left|done].
  - destruct (IH Hc) as (y & Hy & Hl). exists y. split; [by right|done].
Qed.

Lemma Forall2_lookup_head_last (repo : hgrepo) (nodes : list node) (ctxs : list rev) :
  Forall2 (fun x c => repo_lookup repo x = Some c) nodes ctxs ->
  (head nodes ≫= repo_lookup repo) = head ctxs
  /\ (last nodes ≫= repo_lookup repo) = last ctxs.
Proof.
  intros HF. split.
  - by destruct HF.
  - induction HF as [|x c nodes ctxs Hx HF IH]; [done|].
    destruct HF as [|x' c' nodes ctxs Hx' HF]; [done|].
    exact IH.
Qed.

(** X1. The description a push writes for a range of changesets is read
    back by a pull: the marker is found in it, it names the first and the
    last changeset of the range (the last alone for a single changeset),
    and [parsenodes] resolves it to the changesets between the two,
    provided that no description of the range holds the opening of a
    marker and that the ids of the changesets resolve. *)
Theorem pushed_marker_is_read_back cl nodes w desc w' :
  push_description (c_repo cl) nodes w = (Ok desc, w') ->
  (forall x c, x ∈ nodes -> repo_lookup (c_repo cl) x = Some c ->
     occurs "{{mercurial " (ctx_description (c_repo cl) c) = false
     /\ String.length (ctx_node (c_repo cl) c) = 20%nat
     /\ repo_lookup (c_repo cl) (ctx_hex (c_repo cl) c) = Some c) ->
  exists first last_ m,
    (head nodes ≫= repo_lookup (c_repo cl)) = Some first
    /\ (last nodes ≫= repo_lookup (c_repo cl)) = Some last_
    /\ re_hgid_search desc = Some m
    /\ group1 m = (if (1 <? length nodes)%nat
                   then ctx_hex (c_repo cl) first +:+ ":" +:+ ctx_hex (c_repo cl) last_
                   else ctx_hex (c_repo cl) last_)
    /\ forall w0,
         parsenodes cl desc w0
         = (Ok (nodesbetween (c_repo cl) [ctx_node (c_repo cl) first]
                  [ctx_node (c_repo cl) last_], Some m), w0).
Proof.
  intros Hpush Hnodes. set (repo := c_repo cl) in *.
  apply push_description_inv in Hpush as (ctxs & first & last_ & HF & Hhead & Hlast & ->).
  assert (Hctx : forall c, c ∈ ctxs ->
            occurs "{{mercurial " (ctx_description repo c) = false
            /\ all_hexdigits (ctx_hex repo c) = true
            /\ String.length (ctx_hex repo c) = 40%nat
            /\ repo_lookup repo (ctx_hex repo c) = Some c).
  { intros c Hc. destruct (Forall2_lookup_elem _ _ _ _ HF Hc) as (x & Hx & Hl).
    destruct (Hnodes x c Hx Hl) as (Ho & Hlen & Hhex).
    split; [done|]. split; [apply hex_all_hexdigits|]. split; [|done].
    unfold ctx_hex. rewrite hex_length, Hlen. done. }
  destruct (Hctx first) as (_ & Hfh & Hfl & Hflook); [by apply head_Some_elem_of|].
  destruct (Hctx last_) as (_ & Hlh & Hll & Hllook); [by apply last_Some_elem_of|].
  destruct (Forall2_lookup_head_last _ _ _ HF) as [Hh Hl].
  pose proof (Forall2_length _ _ _ HF) as Hlen.
  set (anc := if (1 <? length ctxs)%nat then Some (ctx_hex repo first) else None).
  set (jd := join (nl +:+ "* * *" +:+ nl) (map (ctx_description repo) ctxs)).
  assert (Hsearch : re_hgid_search (jd +:+ nl +:+ nl +:+ encode_marker (ctx_hex repo last_) anc +:+ nl)
            = Some {| m_start := (0 + String.length (jd +:+ nl +:+ nl))%nat;
                      m_end := (0 + String.length (jd +:+ nl +:+ nl)
                                + String.length (encode_marker (ctx_hex repo last_) anc))%nat;
                      group2 := default (ctx_hex repo last_) anc;
                      group4 := (fun _ => ctx_hex repo last_) <$> anc |}).
  { unfold re_hgid_search.
    replace (jd +:+ nl +:+ nl +:+ encode_marker (ctx_hex repo last_) anc +:+ nl)
      with ((jd +:+ nl +:+ nl) +:+ encode_marker (ctx_hex repo last_) anc +:+ nl)
      by (by rewrite !append_assoc).
    apply re_hgid_search_marker; [|done..|].
    - replace (jd +:+ nl +:+ nl) with (jd +:+ String "010" nl) by reflexivity.
      rewrite occurs_sep; [|done|].
      + subst jd. rewrite occurs_join_descriptions; [done|].
        apply Forall_forall. intros d Hd. apply list_elem_of_fmap in Hd as (c & -> & Hc).
        by apply Hctx.
      + cbn. intros H. repeat (destruct H as [H|H]; [discriminate|]). done.
    - intros x Hx. subst anc. destruct (1 <? length ctxs)%nat; [|discriminate].
      by injection Hx as <-. }
  eexists first, last_, _. split; [by rewrite Hh|]. split; [by rewrite Hl|].
  split; [exact Hsearch|]. split.
  - unfold group1. cbn [group2 group4]. subst anc.
    replace (1 <? length nodes)%nat with (1 <? length ctxs)%nat by (by rewrite <- Hlen).
    by destruct (1 <? length ctxs)%nat.
  - intros w0. unfold parsenodes. rewrite Hsearch. unfold resolve_marker. cbn [group2 group4].
    fold repo. subst anc. destruct (1 <? length ctxs)%nat eqn:E1;
      cbn [default from_option fmap option_fmap option_map]; unfold id.
    + by rewrite Hflook, Hllook.
    + rewrite Hllook. destruct ctxs as [|c [|c' ctxs]]; try done.
      cbn in Hhead, Hlast. by simplify_eq.
Qed.

(** X2. Two descriptions that differ in the ids of their marker only are
    the same to [noid]. *)
Theorem noid_forgets_marker_ids pre d a post :
  occurs "{{mercurial " pre = false ->
  all_hexdigits d = true -> String.length d = 40%nat ->
  (forall x, a = Some x -> all_hexdigits x = true /\ String.length x = 40%nat) ->
  noid (pre +:+ encode_marker d a +:+ post) = pre +:+ "{{}}" +:+ noid post.
Proof.
  intros Hocc Hd Hdl Ha. unfold noid. induction pre as [|c pre IH].
  - change (EmptyString +:+ ?x) with x.
    assert (Hm := re_hgid_match_marker d a post Hd Hdl Ha).
    set (body := "{mercurial " +:+ match a with Some x => x +:+ ":" +:+ d | None => d end
                 +:+ "}}").
    assert (HM : encode_marker d a = String "{" body) by reflexivity.
    rewrite HM, append_cons in *. rewrite re_hgid_sub_go_unfold, Hm. f_equal.
    replace (String.length (String "{" (body +:+ post)) - String.length post - 1)%nat
      with (String.length body) by (cbn [String.length]; rewrite app_length; lia).
    apply re_hgid_sub_go_skip.
  - apply occurs_cons in Hocc as [Hc Hocc]. rewrite append_cons, re_hgid_sub_go_unfold.
    rewrite <- append_cons, re_hgid_match_None.
    2:{ unfold encode_marker. rewrite !append_assoc. by apply no_match_before. }
    rewrite append_cons. f_equal. by apply IH.
Qed.

(** * What the sync-point search returns *)

Section FindResult.
Variable py_int : bytes -> option Z.
Variable repo : hgrepo.

Lemma add_parents_raise ctx path ps : forall seen next e,
  add_parents ctx path ps seen next = Raise e -> e = TypeError /\ path = EmptyList.
Proof.
  induction ps as [|p ps IH]; intros seen next e H; simpl in H; [discriminate|].
  destruct (_ && _).
  - destruct path; [by eapply IH|]. by injection H as <-.
  - by eapply IH.
Qed.

(** One pass over a frontier: what it returns, what it raises and what it
    has passed over. *)
Lemma find_level_cases mq base p4rev current : forall seen next,
  match find_level py_int repo mq base p4rev current seen next with
  | LReturn n p4 =>
      exists l1 ctx path l2 v,
        current = (l1 ++ (ctx, path) :: l2)%list
        /\ Forall (passed_over py_int repo p4rev) l1.*1
        /\ ctx_extra repo ctx !! "p4" = Some v /\ py_int v = Some p4
        /\ p4rev_accepts p4rev p4 = true
        /\ n = ctx_node repo (if base then (base_walk repo mq ctx path).1 else ctx)
  | LNext _ _ => Forall (passed_over py_int repo p4rev) current.*1
  | LRaise e =>
      exists ctx v,
        ctx_extra repo ctx !! "p4" = Some v
        /\ ((e = ValueError /\ py_int v = None)
            \/ (e = TypeError /\ base = true
                /\ exists q, py_int v = Some q /\ p4rev_accepts p4rev q = false))
  end.
Proof.
  induction current as [|[ctx path] rest IH]; intros seen next; [by constructor|].
  cbn [find_level].
  destruct (ctx_extra repo ctx !! "p4") as [v|] eqn:Ev.
  - destruct (if base then base_walk repo mq ctx path else (ctx, Tuple path))
      as [ctx' path'] eqn:Eb.
    destruct (py_int v) as [p4|] eqn:Ep; [|exists ctx, v; split; [done|by left]].
    destruct (p4rev_accepts p4rev p4) eqn:Ea.
    + exists [], ctx, path, rest, v. repeat split; try done.
      destruct base; [by rewrite Eb|by injection Eb as <- _].
    + assert (Hpass : passed_over py_int repo p4rev ctx).
      { unfold passed_over. rewrite Ev. eauto. }
      destruct (add_parents ctx' path' (ctx_parents repo ctx') seen next)
        as [[seen1 next1]|e] eqn:Eadd.
      * specialize (IH seen1 next1).
        destruct (find_level py_int repo mq base p4rev rest seen1 next1) as [n q|e|s nx].
        -- destruct IH as (l1 & c & pth & l2 & v' & -> & Hl1 & Hrest).
           exists ((ctx, path) :: l1), c, pth, l2, v'. split; [done|].
           split; [by constructor|done].
        -- done.
        -- by constructor.
      * apply add_parents_raise in Eadd as [-> ->]. exists ctx, v. split; [done|].
        right. split; [done|]. split; [|eauto]. destruct base; [done|]. by injection Eb as _ ?.
  - assert (Hpass : passed_over py_int repo p4rev ctx).
    { unfold passed_over. by rewrite Ev. }
    destruct (add_parents ctx (Tuple path) (ctx_parents repo ctx) seen next)
      as [[seen1 next1]|e] eqn:Eadd.
    + specialize (IH seen1 next1).
      destruct (find_level py_int repo mq base p4rev rest seen1 next1) as [n q|e|s nx].
      * destruct IH as (l1 & c & pth & l2 & v' & -> & Hl1 & Hrest).
        exists ((ctx, path) :: l1), c, pth, l2, v'. split; [done|].
        split; [by constructor|done].
      * done.
      * by constructor.
    + by apply add_parents_raise in Eadd as [_ ?].
Qed.

Lemma find_loop_unfold mq base p4rev k x current' seen :
  find_loop py_int repo mq base p4rev (S k) (x :: current') seen =
  match find_level py_int repo mq base p4rev (x :: current') seen [] with
  | LReturn n p4 => (Found n p4, [(x :: current').*1])
  | LRaise e => (Raised e, [(x :: current').*1])
  | LNext seen' next_items =>
      let '(o, levels) := find_loop py_int repo mq base p4rev k next_items seen' in
      (o, (x :: current').*1 :: levels)
  end.
Proof. reflexivity. Qed.

(** The walk: what was visited before the changeset it returns was passed
    over. *)
Lemma find_loop_cases mq base p4rev : forall fuel current seen,
  let walk := find_loop py_int repo mq base p4rev fuel current seen in
  match walk.1 with
  | Found n p4 =>
      exists before ctx after v,
        concat walk.2 = (before ++ ctx :: after)%list
        /\ Forall (passed_over py_int repo p4rev) before
        /\ ctx_extra repo ctx !! "p4" = Some v /\ py_int v = Some p4
        /\ p4rev_accepts p4rev p4 = true
        /\ (base = false -> n = ctx_node repo ctx)
  | Exhausted => Forall (passed_over py_int repo p4rev) (concat walk.2)
  | Raised e =>
      exists ctx v,
        ctx_extra repo ctx !! "p4" = Some v
        /\ ((e = ValueError /\ py_int v = None)
            \/ (e = TypeError /\ base = true
                /\ exists q, py_int v = Some q /\ p4rev_accepts p4rev q = false))
  | OutOfFuel => True
  end.
Proof.
  induction fuel as [|k IH]; intros current seen; destruct current as [|x current'];
    try (by constructor).
  cbv zeta. rewrite find_loop_unfold.
  pose proof (find_level_cases mq base p4rev (x :: current') seen []) as Hlevel.
  destruct (find_level py_int repo mq base p4rev (x :: current') seen [])
    as [n p4|e|seen' next].
  - destruct Hlevel as (l1 & ctx & path & l2 & v & Hcur & Hl1 & Hv & Hp & Ha & Hn).
    exists l1.*1, ctx, l2.*1, v. cbn [fst snd concat]. rewrite app_nil_r, Hcur, fmap_app.
    repeat split; try done. intros ->. done.
  - done.
  - specialize (IH next seen'). cbv zeta in IH.
    destruct (find_loop py_int repo mq base p4rev k next seen') as [o levels].
    cbn [fst snd concat] in *. destruct o as [n p4| |e|]; try done.
    + destruct IH as (before & ctx & after & v & Hc & Hb & Hrest).
      exists ((x :: current').*1 ++ before)%list, ctx, after, v.
      rewrite Hc, app_assoc. split; [done|]. split; [by apply Forall_app|done].
    + by apply Forall_app.
Qed.
Lemma for_each_emit_ok {A} (l : list A) (g : A -> ui_event) : forall w,
  exists w', for_each l (fun x => ui_emit (g x)) w = (Ok tt, w').
Proof.
  induction l as [|x l IH]; intros w; [by eexists|].
  cbn [for_each]. unfold bind at 1. cbn [ui_emit]. apply IH.
Qed.

(** [find] as a function of the walk *)
Lemma find_run cl rev_ base p4rev abort w start :
  c_repo cl = repo ->
  repo_lookup repo (default "default" rev_) = Some start ->
  let w' := (for_each (find_walk py_int repo base p4rev start).2
               (fun frontier =>
                  ui_debug ("find: " +:+ join " " (map (ctx_hex repo) frontier) +:+ nl)) w).2 in
  same_but_ui w w'
  /\ find py_int cl rev_ base p4rev abort w
     = (match (find_walk py_int repo base p4rev start).1 with
        | Found n p4 => Ok (n, p4)
        | Raised e => Raise e
        | OutOfFuel => Raise Unbounded
        | Exhausted =>
            if abort then Raise (Abort "no p4 changelist revision found")
            else Ok (nullid, 0)
        end, w').
Proof.
  intros Hrepo Hstart w'.
  assert (Hrun : find py_int cl rev_ base p4rev abort w
     = (match (find_walk py_int repo base p4rev start).1 with
        | Found n p4 => Ok (n, p4)
        | Raised e => Raise e
        | OutOfFuel => Raise Unbounded
        | Exhausted =>
            if abort then Raise (Abort "no p4 changelist revision found")
            else Ok (nullid, 0)
        end, w')).
  { subst w'. unfold find. rewrite Hrepo. unfold repo_getitem.
    rewrite Hstart. rewrite (bind_ok _ _ _ start w) by done.
    destruct (find_walk py_int repo base p4rev start) as [outcome levels]. cbn [fst snd].
    destruct (for_each_emit_ok levels
                (fun frontier => UiDebug ("find: " +:+ join " " (map (ctx_hex repo) frontier)
                                          +:+ nl)) w) as [w1 Hw1].
    unfold ui_debug. rewrite (bind_ok _ _ _ _ _ Hw1), Hw1. cbn [snd].
    by destruct outcome as [n p4| |e|]; [| destruct abort | |]. }
  split; [eapply find_same, Hrun|done].
Qed.

Lemma find_walk_bounded base p4rev start :
  parents_precede repo -> (find_walk py_int repo base p4rev start).1 <> OutOfFuel.
Proof.
  intros Hdag. unfold find_walk.
  apply (find_loop_spec py_int repo Hdag _ base p4rev start _ [(start, [])] ∅ [] start).
  - lia.
  - lia.
  - intros c Hc. simpl in Hc. apply list_elem_of_singleton in Hc. lia.
  - intros c path Hc. apply list_elem_of_singleton in Hc. injection Hc as -> ->.
    intros c' p Hc'. set_solver.
  - simpl. apply NoDup_singleton.
  - intros x Hx. simpl in Hx. apply list_elem_of_singleton in Hx. by right.
Qed.

Lemma find_walk_exhausted base p4rev start :
  parents_precede repo ->
  (forall r, ctx_extra repo r !! "p4" = None) ->
  (find_walk py_int repo base p4rev start).1 = Exhausted.
Proof.
  intros Hdag Hnone.
  pose proof (find_loop_cases (find_mqnode repo) base p4rev
                (S (Z.to_nat (start + 1))) [(start, [])] ∅) as Hcases.
  cbv zeta in Hcases. fold (find_walk py_int repo base p4rev start) in Hcases.
  pose proof (find_walk_bounded base p4rev start Hdag) as Hfuel.
  destruct (find_walk py_int repo base p4rev start).1 as [n p4| |e|]; try done.
  - destruct Hcases as (? & ctx & ? & v & _ & _ & Hv & _). by rewrite Hnone in Hv.
  - destruct Hcases as (ctx & v & Hv & _). by rewrite Hnone in Hv.
Qed.
End FindResult.

Section FindTheorems.
Variable py_int : bytes -> option Z.

(** X3. The changeset [find] returns is the first, in the order of the
    walk, whose changelist number is accepted. *)
Theorem find_returns_nearest cl rev_ base p4rev abort w n p4 w' :
  find py_int cl rev_ base p4rev abort w = (Ok (n, p4), w') ->
  exists start,
    repo_lookup (c_repo cl) (default "default" rev_) = Some start
    /\ same_but_ui w w'
    /\ ((abort = false /\ n = nullid /\ p4 = 0
         /\ Forall (passed_over py_int (c_repo cl) p4rev)
              (concat (find_walk py_int (c_repo cl) base p4rev start).2))
        \/ (exists before ctx after v,
              concat (find_walk py_int (c_repo cl) base p4rev start).2
              = (before ++ ctx :: after)%list
              /\ Forall (passed_over py_int (c_repo cl) p4rev) before
              /\ ctx_extra (c_repo cl) ctx !! "p4" = Some v /\ py_int v = Some p4
              /\ p4rev_accepts p4rev p4 = true
              /\ (base = false -> n = ctx_node (c_repo cl) ctx))).
Proof.
  intros Hfind. set (repo := c_repo cl) in *. assert (Hrepo : c_repo cl = repo) by done.
  destruct (repo_lookup repo (default "default" rev_)) as [start|] eqn:Hstart.
  2:{ unfold find in Hfind. rewrite Hrepo in Hfind. unfold repo_getitem in Hfind.
      rewrite Hstart in Hfind. discriminate. }
  exists start. split; [done|].
  destruct (find_run py_int repo cl rev_ base p4rev abort w start Hrepo Hstart) as (Hui & Hrun).
  rewrite Hfind in Hrun.
  pose proof (find_loop_cases py_int repo (find_mqnode repo) base p4rev
                (S (Z.to_nat (start + 1))) [(start, [])] ∅) as Hcases.
  cbv zeta in Hcases. fold (find_walk py_int repo base p4rev start) in Hcases.
  destruct (find_walk py_int repo base p4rev start).1 as [n' p4'| |e|] eqn:Ew;
    try discriminate.
  - injection Hrun as -> -> ->. split; [done|]. by right.
  - destruct abort; [discriminate|]. injection Hrun as -> -> ->. split; [done|]. by left.
Qed.

(** X4. On a repository with no changeset pulled from the depot the search
    finds nothing: it raises when told to abort and returns the null id and
    changelist 0 otherwise. *)
Theorem find_without_sync_point cl rev_ base p4rev w start :
  parents_precede (c_repo cl) ->
  (forall r, ctx_extra (c_repo cl) r !! "p4" = None) ->
  repo_lookup (c_repo cl) (default "default" rev_) = Some start ->
  exists w', same_but_ui w w'
    /\ find py_int cl rev_ base p4rev true w
       = (Raise (Abort "no p4 changelist revision found"), w')
    /\ find py_int cl rev_ base p4rev false w = (Ok (nullid, 0), w').
Proof.
  intros Hdag Hnone Hstart. set (repo := c_repo cl) in *. assert (Hrepo : c_repo cl = repo) by done.
  pose proof (find_walk_exhausted py_int repo base p4rev start Hdag Hnone) as Hex.
  destruct (find_run py_int repo cl rev_ base p4rev true w start Hrepo Hstart) as (Hui & Hrun1).
  destruct (find_run py_int repo cl rev_ base p4rev false w start Hrepo Hstart) as (_ & Hrun2).
  rewrite Hex in *. eauto.
Qed.

(** X5. With no changelist number to look for, [find] raises only for an
    unknown revision, a [p4] extra that is not a number, or, when told to
    abort, for lack of a sync point. *)
Theorem find_raises_only cl rev_ base abort w e w' :
  parents_precede (c_repo cl) ->
  find py_int cl rev_ base None abort w = (Raise e, w') ->
  e = RepoLookupError (default "default" rev_)
  \/ (e = ValueError /\ exists ctx v, ctx_extra (c_repo cl) ctx !! "p4" = Some v /\ py_int v = None)
  \/ (e = Abort "no p4 changelist revision found" /\ abort = true).
Proof.
  intros Hdag Hfind. set (repo := c_repo cl) in *. assert (Hrepo : c_repo cl = repo) by done.
  destruct (repo_lookup repo (default "default" rev_)) as [start|] eqn:Hstart.
  2:{ unfold find in Hfind. rewrite Hrepo in Hfind. unfold repo_getitem in Hfind.
      rewrite Hstart in Hfind. injection Hfind as <- _. by left. }
  destruct (find_run py_int repo cl rev_ base None abort w start Hrepo Hstart) as (_ & Hrun).
  rewrite Hfind in Hrun.
  pose proof (find_loop_cases py_int repo (find_mqnode repo) base None
                (S (Z.to_nat (start + 1))) [(start, [])] ∅) as Hcases.
  cbv zeta in Hcases. fold (find_walk py_int repo base None start) in Hcases.
  pose proof (find_walk_bounded py_int repo base None start Hdag) as Hfuel.
  destruct (find_walk py_int repo base None start).1 as [n p4| |e'|]; try done.
  - destruct abort; [|discriminate]. injection Hrun as -> _. by right; right.
  - injection Hrun as -> _. destruct Hcases as (ctx & v & Hv & [[-> Hp]|(_ & _ & q & _ & Hq)]).
    + right; left. eauto.
    + discriminate.
Qed.

(** X6. Once its client is built, an unforced push from a repository
    with no changeset pulled from the depot aborts without a command to
    the depot: from the built client to the abort nothing is asked of the
    depot, no changelist is created, and the caches and the commits are as
    they were.  (Building the client is not part of [push] here; it asks
    the depot for the client specification.) *)
Theorem push_needs_a_sync_point cl opts w start :
  parents_precede (c_repo cl) ->
  (forall r, ctx_extra (c_repo cl) r !! "p4" = None) ->
  repo_lookup (c_repo cl) "default" = Some start ->
  o_force opts = false ->
  exists w',
    push py_int cl opts w = (Raise (Abort "no p4 changelist revision found"), w')
    /\ same_but_ui w w'.
Proof.
  intros Hdag Hnone Hstart Hforce.
  destruct (push_announce_ok cl opts w) as [Hann Hui].
  set (wa := (push_announce cl opts w).2) in *.
  destruct (find_run py_int (c_repo cl) cl None true None true wa start eq_refl Hstart)
    as (Hui' & Hraise).
  rewrite (find_walk_exhausted py_int _ true None start Hdag Hnone) in Hraise.
  eexists. split; [|by etrans].
  assert (Hrange : push_range py_int cl opts wa
                   = (Raise (Abort "no p4 changelist revision found"),
                      (for_each (find_walk py_int (c_repo cl) true None start).2
                         (fun frontier =>
                            ui_debug ("find: " +:+ join " " (map (ctx_hex (c_repo cl)) frontier)
                                      +:+ nl)) wa).2)).
  { unfold push_range. rewrite Hforce. exact (bind_raise _ _ _ _ _ Hraise). }
  unfold push. rewrite (bind_ok _ _ _ _ _ Hann). fold wa.
  apply bind_raise. unfold _pushcommon. apply bind_raise.
  unfold push_revisions. by apply bind_raise.
Qed.
End FindTheorems.

(** * Running depot commands *)

Lemma run_check_noabort d w :
  exists w', run_check false d w = (Ok tt, w') /\ same_but_ui w w'.
Proof.
  destruct (run_check false d w) as [r w'] eqn:H. exists w'.
  split; [|eapply run_check_same, H].
  unfold run_check in H. destruct (d !! "code"), (d !! "data"); try by injection H as <- _.
  cbn [andb] in H. destruct (bool_decide _); by injection H as <- _.
Qed.

Lemma run_check_abort d w :
  if is_error d
  then run_check true d w
       = (Raise (Abort ("p4: " +:+ strip (default EmptyString (d !! "data")))), w)
  else exists w', run_check true d w = (Ok tt, w') /\ same_but_ui w w'.
Proof.
  unfold is_error, run_check.
  destruct (d !! "code") as [code|] eqn:Ec; destruct (d !! "data") as [data|] eqn:Ed;
    cbn [andb default from_option].
  - case_bool_decide as Hc.
    + injection Hc as ->. rewrite bool_decide_eq_true_2 by eauto.
      by rewrite bool_decide_eq_true_2 by done.
    + cbn [andb]. rewrite (bool_decide_eq_false_2 (code = "error")) by congruence.
      cbn [andb]. destruct (bool_decide (code = "info")).
      * eexists. split; [reflexivity|]. by repeat split.
      * by eexists.
  - rewrite andb_false_r. by eexists.
  - by eexists.
  - by eexists.
Qed.

(** X7. [runone], told not to abort on errors, returns the record when
    the depot answers with exactly one, and aborts when it answers with
    none or with more than one.  The command is logged once, and nothing
    but the messages of the user interface changes besides. *)
Theorem runone_single_record name c w :
  exists w',
    runone name c false w
    = (match loaditer (w_depot w (w_log w) c) with
       | [] => Raise (Abort ("p4 " +:+ name +:+ " returned no objects"))
       | [d] => Ok d
       | _ :: _ :: _ => Raise (Abort ("p4 " +:+ name +:+ " returned more than one object"))
       end, w')
    /\ w_log w' = (w_log w ++ [c])%list
    /\ w_depot w' = w_depot w /\ w_commits w' = w_commits w
    /\ w_p4stat w' = w_p4stat w /\ w_p4pending w' = w_p4pending w.
Proof.
  unfold runone. rewrite bind_unfold. cbn [popen].
  set (w0 := {| w_depot := w_depot w; w_log := w_log w ++ [c]; w_ui := w_ui w;
                w_p4stat := w_p4stat w; w_p4pending := w_p4pending w;
                w_commits := w_commits w |}).
  destruct (loaditer (w_depot w (w_log w) c)) as [|d [|d' ds]].
  - eexists. split; [reflexivity|]. by repeat split.
  - cbn [runone_records].
    destruct (run_check_noabort d w0) as (w1 & Hr1 & (? & ? & ? & ? & ?)).
    rewrite !bind_unfold, Hr1. cbn [ret]. exists w1. split; [done|]. by repeat split.
  - cbn [runone_records].
    destruct (run_check_noabort d w0) as (w1 & Hr1 & (? & ? & ? & ? & ?)).
    destruct (run_check_noabort d' w1) as (w2 & Hr2 & (? & ? & ? & ? & ?)).
    rewrite !bind_unfold, Hr1, !bind_unfold, Hr2. exists w2. split; [done|].
    subst w0. cbn in *. repeat split; congruence.
Qed.

Lemma run_records_noabort ds : forall w,
  exists w', run_records false ds (fun (_ : unit) (_ : p4record) => ret tt) tt w = (Ok tt, w')
             /\ same_but_ui w w'.
Proof.
  induction ds as [|d ds IH]; intros w; [by eexists|].
  cbn [run_records]. destruct (run_check_noabort d w) as (w1 & H1 & Hui).
  rewrite !bind_unfold, H1. cbn [ret]. destruct (IH w1) as (w2 & H2 & Hui2).
  exists w2. split; [done|by etrans].
Qed.

Lemma run_records_abort ds : forall w,
  exists w',
    run_records true ds (fun (_ : unit) (_ : p4record) => ret tt) tt w
    = (match List.find is_error ds with
       | Some d => Raise (Abort ("p4: " +:+ strip (default EmptyString (d !! "data"))))
       | None => Ok tt
       end, w')
    /\ same_but_ui w w'.
Proof.
  induction ds as [|d ds IH]; intros w; [by eexists|].
  cbn [run_records List.find]. pose proof (run_check_abort d w) as Hd.
  destruct (is_error d).
  - rewrite bind_unfold, Hd. by eexists.
  - destruct Hd as (w1 & H1 & Hui). rewrite !bind_unfold, H1. cbn [ret].
    destruct (IH w1) as (w2 & H2 & Hui2). exists w2. split; [done|by etrans].
Qed.

(** X8. A command run for its effect fails on the first error record,
    with the message of that record, unless it is told not to abort. *)
Theorem runs_aborts_on_first_error c w :
  (exists w', runs c false w = (Ok tt, w') /\ w_log w' = (w_log w ++ [c])%list)
  /\ (exists w',
        runs c true w
        = (match List.find is_error (loaditer (w_depot w (w_log w) c)) with
           | Some d => Raise (Abort ("p4: " +:+ strip (default EmptyString (d !! "data"))))
           | None => Ok tt
           end, w')
        /\ w_log w' = (w_log w ++ [c])%list).
Proof.
  unfold runs, run, run_fold. rewrite !bind_unfold. cbn [popen].
  set (w0 := {| w_depot := w_depot w; w_log := w_log w ++ [c]; w_ui := w_ui w;
                w_p4stat := w_p4stat w; w_p4pending := w_p4pending w;
                w_commits := w_commits w |}).
  split.
  - destruct (run_records_noabort (loaditer (w_depot w (w_log w) c)) w0)
      as (w' & H & (_ & Hlog & _)).
    exists w'. by rewrite H, Hlog.
  - destruct (run_records_abort (loaditer (w_depot w (w_log w) c)) w0)
      as (w' & H & (_ & Hlog & _)).
    exists w'. by rewrite H, Hlog.
Qed.

(** * The pending list as read from the depot *)

Lemma entry_compare_change a b :
  (entry_compare a b <> Gt -> entry_change a <= entry_change b)
  /\ (entry_compare a b = Gt -> entry_change b <= entry_change a).
Proof.
  unfold entry_compare.
  destruct (Z.compare_spec (entry_change a) (entry_change b)); split; intros; try lia; done.
Qed.

Lemma entry_insert_ascending e l : ascending l -> ascending (entry_insert e l).
Proof.
  induction l as [|x l IH]; intros Hl; [by split|].
  destruct Hl as [Hx Hl]. cbn [entry_insert].
  destruct (entry_compare_change e x) as [Hle Hgt].
  destruct (entry_compare e x) eqn:E.
  - split; [|by split]. constructor; [by apply Hle|].
    eapply Forall_impl; [exact Hx|]. intros y ?. cbn in *. specialize (Hle ltac:(done)). lia.
  - split; [|by split]. constructor; [by apply Hle|].
    eapply Forall_impl; [exact Hx|]. intros y ?. cbn in *. specialize (Hle ltac:(done)). lia.
  - split; [|by apply IH]. apply Forall_forall. intros y Hy.
    apply entry_insert_elem in Hy as [->|Hy]; [by apply Hgt|].
    rewrite Forall_forall in Hx. by apply Hx.
Qed.

Lemma sort_entries_ascending l : ascending (sort_entries l).
Proof. induction l as [|e l IH]; [done|]. by apply entry_insert_ascending. Qed.

Section PendingList.
Variable py_int : bytes -> option Z.

Lemma find_result_world cl rev_ base p4rev abort w1 w2 :
  (find py_int cl rev_ base p4rev abort w1).1 = (find py_int cl rev_ base p4rev abort w2).1.
Proof.
  unfold find, repo_getitem. destruct (repo_lookup _ _) as [start|]; [|done].
  rewrite (bind_ok _ _ w1 start w1), (bind_ok _ _ w2 start w2) by done.
  destruct (find_walk py_int (c_repo cl) base p4rev start) as [outcome levels].
  destruct (for_each_emit_ok levels
              (fun frontier => UiDebug ("find: " +:+ join " " (map (ctx_hex (c_repo cl)) frontier)
                                        +:+ nl)) w1) as [w1' H1].
  destruct (for_each_emit_ok levels
              (fun frontier => UiDebug ("find: " +:+ join " " (map (ctx_hex (c_repo cl)) frontier)
                                        +:+ nl)) w2) as [w2' H2].
  unfold ui_debug. rewrite (bind_ok _ _ _ _ _ H1), (bind_ok _ _ _ _ _ H2).
  by destruct outcome as [| | |]; [|destruct abort| |].
Qed.

(** What [getpendinglist] returns when it has to read the depot *)
Lemma getpendinglist_read cl w pl w' :
  w_p4stat w = None ->
  getpendinglist py_int cl w = (Ok pl, w') ->
  exists r w1 w2,
    find py_int cl None false None false
      {| w_depot := w_depot w; w_log := w_log w; w_ui := w_ui w; w_p4stat := Some ∅;
         w_p4pending := []; w_commits := w_commits w |} = (Ok r, w1)
    /\ bind (run (p4 ["changes"; "-l"; "-c"; c_client cl;
                      c_partial cl +:+ "...@" +:+ fmt_d r.2 +:+ ",#head"]) true
               (readp4stat_helper py_int cl r.2))
            (fun _ => run (p4 ["changes"; "-l"; "-c"; c_client cl; "-s"; "pending"]) true
                        (readp4stat_helper py_int cl r.2)) w1 = (Ok tt, w2)
    /\ pl = sort_entries (w_p4pending w2).
Proof.
  intros Hnone H. unfold getpendinglist in H.
  apply bind_ok_inv in H as ([] & wa & He & H).
  unfold bind, get_world, ret in H. injection H as <- <-.
  unfold ensure_p4stat, bind, get_world in He. rewrite Hnone in He.
  rewrite readp4stat_unfold in He. unfold read_changes in He.
  apply bind_ok_inv in He as (r & w1 & Hfind & He).
  apply bind_ok_inv in He as ([] & w2 & Hrun1 & He).
  apply bind_ok_inv in He as ([] & w3 & Hrun2 & He).
  unfold bind, get_world, set_p4pending in He. injection He as <-. cbn.
  exists r, w1, w3. split; [done|]. split; [|done].
  by rewrite bind_unfold, Hrun1.
Qed.

Lemma pending_list_sorted cl w pl w' :
  w_p4stat w = None ->
  getpendinglist py_int cl w = (Ok pl, w') -> ascending pl.
Proof.
  intros Hnone H.
  destruct (getpendinglist_read cl w pl w' Hnone H) as (r & w1 & w2 & _ & _ & ->).
  apply sort_entries_ascending.
Qed.

(** X9. The pending list comes in ascending order of changelist number. *)
Theorem pending_list_ascending cl w pl w' :
  w_p4stat w = None ->
  getpendinglist py_int cl w = (Ok pl, w') ->
  ascending pl
  /\ forall i j a b, (i < j)%nat -> pl !! i = Some a -> pl !! j = Some b ->
       entry_change a <= entry_change b.
Proof.
  intros Hnone H.
  pose proof (pending_list_sorted cl w pl w' Hnone H) as Hasc.
  split; [done|]. revert Hasc. generalize pl. clear.
  intros l. induction l as [|e l IH]; intros Hl i j a b Hij Ha Hb; [done|].
  destruct Hl as [He Hl]. destruct j as [|j]; [lia|]. cbn in Hb.
  destruct i as [|i].
  - injection Ha as <-. rewrite Forall_forall in He. apply He. by eapply list_elem_of_lookup_2.
  - cbn in Ha. eapply (IH Hl i j); [lia|done..].
Qed.

Global Instance skips_preorder p4id : PreOrder (skips p4id).
Proof. split; [by intros w Hw|]. intros w1 w2 w3 H12 H23 H. by apply H23, H12. Qed.

Lemma reads_skips p4id w w' : reads w w' -> skips p4id w w'.
Proof. intros (_ & _ & _ & _ & Hp) H. by rewrite Hp. Qed.

Lemma skips_helper cl p4id d : steps (skips p4id) (readp4stat_helper py_int cl p4id d).
Proof.
  unfold readp4stat_helper. step; [leaf|].
  apply steps_bind; [apply _|apply steps_int, _|intros c].
  destruct (Z.eqb_spec c p4id) as [->|Hne]; [leaf|].
  step; [leaf|].
  apply steps_bind;
    [apply _|eapply steps_weaken; [apply reads_skips|apply reads_parsenodes]|intros nm].
  step; [leaf|]. step; [leaf|].
  intros w r w' H Hall.
  unfold p4pending_append in H. rewrite bind_unfold in H.
  unfold bind at 1, get_world, set_p4pending in H.
  rewrite (for_each_p4stat_add py_int) in H.
  injection H as _ <-. cbn. apply Forall_app. split; [done|]. by repeat constructor.
Qed.

Lemma skips_run c abort cl p4id :
  is_query c = true ->
  steps (skips p4id) (run c abort (readp4stat_helper py_int cl p4id)).
Proof.
  intros Hq. unfold run, run_fold.
  step; [eapply steps_weaken; [apply reads_skips|by apply reads_popen]|].
  generalize tt. induction a as [|d ds IH]; intros u; simpl; [leaf|].
  step; [eapply steps_weaken; [apply reads_skips|apply reads_run_check]|].
  apply steps_bind; [apply _|apply skips_helper|intros u']. apply IH.
Qed.

(** X10. The changelist the repository is synced to is not listed as
    pending. *)
Theorem pending_list_skips_sync_point cl w pl w' r w0 :
  w_p4stat w = None ->
  getpendinglist py_int cl w = (Ok pl, w') ->
  find py_int cl None false None false w = (Ok r, w0) ->
  Forall (fun e => entry_change e <> r.2) pl.
Proof.
  intros Hnone H Hfind.
  destruct (getpendinglist_read cl w pl w' Hnone H) as (r' & w1 & w2 & Hfind' & Hrun & ->).
  assert (r' = r) as ->.
  { pose proof (find_result_world cl None false None false w
                  {| w_depot := w_depot w; w_log := w_log w; w_ui := w_ui w;
                     w_p4stat := Some ∅; w_p4pending := []; w_commits := w_commits w |}) as E.
    rewrite Hfind, Hfind' in E. by injection E as ->. }
  assert (Hw1 : w_p4pending w1 = []).
  { apply find_same in Hfind' as (_ & _ & _ & Hp & _). by rewrite Hp. }
  assert (Hskip : skips r.2 w1 w2).
  { revert Hrun. apply (steps_bind (skips r.2)); [by apply skips_run|].
    intros _. by apply skips_run. }
  assert (Hall : Forall (fun e => entry_change e <> r.2) (w_p4pending w2)).
  { apply Hskip. by rewrite Hw1. }
  rewrite Forall_forall in Hall. apply Forall_forall. intros e He.
  rewrite sort_entries_elem in He. by apply Hall.
Qed.
End PendingList.

(** * Creating and updating changelists *)

Lemma take_digits_spec s ds r :
  take_digits s = (ds, r) ->
  s = ds +:+ r /\ forallb is_digit (list_ascii_of_string ds) = true.
Proof.
  revert ds r. induction s as [|c s IH]; intros ds r H; cbn [take_digits] in H.
  - by injection H as <- <-.
  - fold (is_digit c) in H. destruct (is_digit c) eqn:Ec.
    + destruct (take_digits s) as [ds' r'] eqn:E. injection H as <- <-.
      destruct (IH _ _ eq_refl) as [-> Hd]. split; [by rewrite append_cons|].
      cbn. by rewrite Ec.
    + by injection H as <- <-.
Qed.

(** What [re_changeno] matches: the number between ["Change "] and
    [" created"], when something other than a line end follows. *)
Lemma re_changeno_match_Some data n :
  re_changeno_match data = Some n ->
  exists c tail,
    data = "Change " +:+ n +:+ " created" +:+ String c tail
    /\ c <> "010"%char /\ n <> EmptyString
    /\ forallb is_digit (list_ascii_of_string n) = true.
Proof.
  unfold re_changeno_match. intros H.
  destruct (strip_prefix "Change " data) as [s1|] eqn:E1; [|discriminate].
  apply strip_prefix_Some in E1 as ->.
  destruct (take_digits s1) as [ds s2] eqn:E2.
  apply take_digits_spec in E2 as [-> Hds].
  destruct ds as [|d ds]; [discriminate|].
  destruct (strip_prefix " created" s2) as [[|c tail]|] eqn:E3; try discriminate.
  apply strip_prefix_Some in E3 as ->.
  case_bool_decide; [discriminate|]. injection H as <-.
  exists c, tail. done.
Qed.

Section Change.
Variable py_int : bytes -> option Z.

Lemma runone_records_ok_inv name abort ds : forall value d w w',
  runone_records name abort ds value w = (Ok (Some d), w') ->
  (value = Some d /\ ds = []) \/ (value = None /\ ds = [d]).
Proof.
  induction ds as [|x ds IH]; intros value d w w' H; cbn [runone_records] in H.
  - injection H as -> _. by left.
  - apply bind_ok_inv in H as ([] & w1 & _ & H).
    destruct value; [discriminate|].
    apply IH in H as [[[= ->] ->]|[? _]]; [by right|discriminate].
Qed.

(** The record [runone] returns is the only one the depot sent. *)
Lemma runone_ok_inv name c abort w d w' :
  runone name c abort w = (Ok d, w') -> loaditer (w_depot w (w_log w) c) = [d].
Proof.
  unfold runone. rewrite bind_unfold. cbn [popen]. intros H.
  apply bind_ok_inv in H as (value & w1 & Hv & H).
  destruct value as [d'|]; [|discriminate]. injection H as -> _.
  by apply runone_records_ok_inv in Hv as [[? _]|[_ ?]].
Qed.

Lemma same_log_helper cl p4id d : steps same_log (readp4stat_helper py_int cl p4id d).
Proof.
  unfold readp4stat_helper. step; [leaf|]. step; [apply steps_int, _|].
  destruct (_ =? p4id); [leaf|].
  step; [leaf|].
  step; [eapply steps_weaken; [apply same_but_ui_same_log|apply parsenodes_same]|].
  step; [leaf|]. step; [leaf|]. step.
  - unfold p4pending_append. step; [leaf|]. by intros ? ? ? [= _ <-].
  - apply steps_for_each; [apply _|]. intros n. unfold p4stat_add.
    step; [leaf|]. by intros ? ? ? [= _ <-].
Qed.

Lemma same_log_run_records abort ds cl p4id : forall u,
  steps same_log
    (run_records abort ds (fun (_ : unit) d => readp4stat_helper py_int cl p4id d) u).
Proof.
  induction ds as [|d ds IH]; intros u; cbn [run_records]; [leaf|].
  step; [eapply steps_weaken; [apply same_but_ui_same_log|apply run_check_same]|].
  apply steps_bind; [apply _|apply same_log_helper|intros u']. apply IH.
Qed.

Lemma run_helper_log c abort cl p4id w r w' :
  run c abort (readp4stat_helper py_int cl p4id) w = (r, w') ->
  w_log w' = (w_log w ++ [c])%list.
Proof.
  unfold run, run_fold. rewrite bind_unfold. cbn [popen]. intros H.
  by apply same_log_run_records in H.
Qed.

(** X11. A changelist that was created or updated has a number, and the
    pending cache is dropped: the next [getpending] asks the depot again. *)
Theorem change_invalidates_cache cl chg description update jobs w n w' :
  change cl chg description update jobs w = (Ok n, w') ->
  n <> EmptyString
  /\ (chg <> EmptyString -> n = chg)
  /\ w_p4stat w' = None
  /\ forall x b w'',
       getpending py_int cl x w' = (Ok b, w'') ->
       exists p4id,
         w_log w''
         = (w_log w'
            ++ [p4 ["changes"; "-l"; "-c"; c_client cl;
                    c_partial cl +:+ "...@" +:+ fmt_d p4id +:+ ",#head"];
                p4 ["changes"; "-l"; "-c"; c_client cl; "-s"; "pending"]])%list.
Proof.
  unfold change. intros H.
  apply bind_ok_inv in H as (changelist & w1 & _ & H).
  apply bind_ok_inv in H as (d & w2 & _ & H).
  apply bind_ok_inv in H as (data & w3 & _ & H).
  apply bind_ok_inv in H as (code & w4 & _ & H).
  apply bind_ok_inv in H as (chg' & w5 & Hchg & H).
  destruct chg' as [|c0 chg']; [discriminate|].
  unfold bind, set_p4stat, ret in H. injection H as <- <-. cbn [w_p4stat w_log].
  split; [done|]. split; [|split; [done|]].
  - intros Hne. destruct (bool_decide (code = "info")); [|discriminate].
    apply bind_ok_inv in Hchg as ([] & w6 & _ & Hchg).
    destruct chg; [done|]. unfold ret in Hchg. by simplify_eq.
  - intros x b w'' Hget.
    unfold getpending in Hget. apply bind_ok_inv in Hget as ([] & wa & He & Hget).
    unfold bind, get_world, ret in Hget. injection Hget as _ <-.
    unfold ensure_p4stat, bind, get_world in He. cbn [w_p4stat] in He.
    rewrite readp4stat_unfold in He. unfold read_changes in He.
    apply bind_ok_inv in He as (r & wb & Hfind & He).
    apply bind_ok_inv in He as ([] & wc & Hrun1 & He).
    apply bind_ok_inv in He as ([] & wd & Hrun2 & He).
    unfold bind, get_world, set_p4pending in He. injection He as <-. cbn.
    apply find_same in Hfind as (_ & Hlog & _). cbn in Hlog.
    apply run_helper_log in Hrun1. apply run_helper_log in Hrun2.
    exists r.2. rewrite Hrun2, Hrun1, Hlog. by rewrite <- app_assoc.
Qed.

(** X12. The number of a new changelist is the one the depot announces in
    its reply ["Change N created ..."] to [change -i]. *)
Theorem change_returns_announced_number cl description update jobs w n w' :
  change cl EmptyString description update jobs w = (Ok n, w') ->
  exists form reply c tail,
    loaditer (w_depot w (w_log w) (p4 ["change"; "-o"])) = [form]
    /\ loaditer
         (w_depot w (w_log w ++ [p4 ["change"; "-o"]])
            {| cmd_argv := ["change"; "-i"] ++ (if update then ["-u"] else []);
               cmd_files := []; cmd_client := None;
               cmd_input :=
                 Some (match description with
                       | Some text => <["Description" := c_encode cl text]> (set_jobs cl 0 jobs form)
                       | None => set_jobs cl 0 jobs form
                       end) |}) = [reply]
    /\ reply !! "code" = Some "info"
    /\ reply !! "data" = Some ("Change " +:+ n +:+ " created" +:+ String c tail)
    /\ c <> "010"%char /\ n <> EmptyString
    /\ forallb is_digit (list_ascii_of_string n) = true.
Proof.
  unfold change. intros H.
  apply bind_ok_inv in H as (form & w1 & Hform & H).
  apply bind_ok_inv in H as (reply & w2 & Hreply & H).
  pose proof (runone_log _ _ _ _ _ _ Hform) as Hlog1.
  assert (Hdepot : w_depot w1 = w_depot w).
  { unfold runone in Hform. rewrite bind_unfold in Hform. cbn [popen] in Hform.
    match type of Hform with ?m ?w0 = _ => assert (Hs : same_but_ui w0 w1) end.
    { revert Hform. step; [apply runone_records_same|]. destruct a; leaf. }
    by destruct Hs as (-> & _). }
  apply runone_ok_inv in Hform. apply runone_ok_inv in Hreply.
  rewrite Hdepot, Hlog1 in Hreply.
  apply bind_ok_inv in H as (data & w3 & Hdata & H). apply getitem_inv in Hdata as [Hdata _].
  apply bind_ok_inv in H as (code & w4 & Hcode & H). apply getitem_inv in Hcode as [Hcode _].
  apply bind_ok_inv in H as (chg' & w5 & Hchg & H).
  destruct chg' as [|c0 chg']; [discriminate|].
  unfold bind, set_p4stat, ret in H. injection H as <- _.
  case_bool_decide as Hinfo; [subst code|discriminate].
  apply bind_ok_inv in Hchg as ([] & w6 & _ & Hchg). unfold ret in Hchg.
  destruct (re_changeno_match data) as [m|] eqn:Em; [|discriminate].
  cbn in Hchg. assert (m = String c0 chg') as -> by congruence.
  apply re_changeno_match_Some in Em as (c & tail & -> & Hc & Hne & Hd).
  exists form, reply, c, tail. done.
Qed.
End Change.

(** * Nothing is lost when the copies are sorted out *)

Section Partition.
Variables (move copy : bool) (cpy : gmap bytes (bytes * bool)).

Lemma sort_add_accounted acc fg :
  accounted (sort_add move copy cpy acc fg) ≡ₚ (accounted acc ++ [fg.1])%list.
Proof.
  destruct fg as [f g]. unfold sort_add, accounted.
  destruct (cpy !! f) as [[r chg]|]; cbn [fst snd].
  - destruct (move && _); [|destruct copy]; destruct chg;
      cbn [s_moves s_copies s_ntg s_add2]; rewrite ?map_app, ?fmap_app; cbn [map fmap list_fmap];
      solve_Permutation.
  - cbn [s_moves s_copies s_ntg s_add2]. rewrite fmap_app. cbn. solve_Permutation.
Qed.

Lemma foldl_accounted add_ : forall acc,
  accounted (foldl (sort_add move copy cpy) acc add_) ≡ₚ (accounted acc ++ add_.*1)%list.
Proof.
  induction add_ as [|fg add_ IH]; intros acc; cbn [foldl].
  - by rewrite app_nil_r.
  - rewrite IH, sort_add_accounted. cbn. by rewrite <- app_assoc.
Qed.

Lemma sort_add_moved_once acc fg : moved_once acc -> moved_once (sort_add move copy cpy acc fg).
Proof.
  intros [Hnd Hmark]. destruct fg as [f g]. unfold sort_add.
  destruct (cpy !! f) as [[r chg]|]; [|done].
  assert (Hinner : moved_once
    (if move && bool_decide (s_rems acc !! r = Some true)
     then {| s_rems := <[r := false]> (s_rems acc);
             s_moves := s_moves acc ++ [(r, f, g)];
             s_copies := s_copies acc; s_ntg := s_ntg acc;
             s_add2 := s_add2 acc; s_mod2 := s_mod2 acc |}
     else if copy
     then {| s_rems := s_rems acc; s_moves := s_moves acc;
             s_copies := s_copies acc ++ [(r, f)]; s_ntg := s_ntg acc;
             s_add2 := s_add2 acc; s_mod2 := s_mod2 acc |}
     else {| s_rems := s_rems acc; s_moves := s_moves acc;
             s_copies := s_copies acc; s_ntg := s_ntg acc ++ [(r, f)];
             s_add2 := s_add2 acc; s_mod2 := s_mod2 acc |})).
  { destruct (move && bool_decide (s_rems acc !! r = Some true)) eqn:Em;
      [|by destruct copy].
    apply andb_prop in Em as [_ Hr]. apply bool_decide_eq_true in Hr.
    split; cbn [s_moves s_rems]; rewrite map_app; cbn [map fst snd].
    - apply NoDup_app. split; [done|]. split; [|apply NoDup_singleton].
      intros x Hx Hx'. apply list_elem_of_singleton in Hx' as ->. by apply Hmark in Hx.
    - intros x Hx. rewrite lookup_insert. case_decide; [done|].
      apply elem_of_app in Hx as [Hx|Hx]; [by apply Hmark|].
      apply list_elem_of_singleton in Hx. congruence. }
  by destruct chg.
Qed.

Lemma foldl_moved_once add_ : forall acc,
  moved_once acc -> moved_once (foldl (sort_add move copy cpy) acc add_).
Proof.
  induction add_ as [|fg add_ IH]; intros acc H; [done|].
  by apply IH, sort_add_moved_once.
Qed.

(** X13. Sorting out the copies loses nothing: every added file is in
    exactly one of the moves, the copies, the integrates and the plain
    adds; a removed file is the source of at most one move, and the deletes
    are the removed files that no move took. *)
Theorem sort_copies_partition mod_ add_ rem_ :
  let st := sort_copies move copy cpy mod_ add_ rem_ in
  let sources := map (fun m => m.1.1) (g_moves st) in
  add_.*1 ≡ₚ (map (fun m => m.1.2) (g_moves st) ++ (g_copies st).*2 ++ (g_ntg st).*2
               ++ (g_add st).*1)%list
  /\ NoDup sources
  /\ g_rem st = List.filter (fun x => bool_decide (x.1 ∉ sources)) rem_
  /\ g_mod st = mod_.
Proof.
  intros st sources.
  pose proof (foldl_accounted add_ (sorted0 rem_)) as Hperm.
  pose proof (foldl_moved_once add_ (sorted0 rem_)) as [Hnd _].
  { split; [constructor|]. intros r Hr. by apply elem_of_nil in Hr. }
  pose proof (sorted_inv_foldl move copy cpy rem_ add_ [] _ (sorted_inv_init _ _ _ _)) as Hinv.
  rewrite app_nil_l in Hinv.
  split; [symmetry; exact Hperm|]. split; [exact Hnd|]. split; [|done].
  subst st sources. unfold sort_copies. cbn [g_rem g_moves].
  apply filter_ext_in. intros x Hx.
  apply bool_decide_ext. rewrite (inv_rems _ _ _ _ _ _ Hinv).
  assert (Hsrc : forall l : list (bytes * bytes * bytes),
             l.*1.*1 = map (fun m => m.1.1) l).
  { intros l. by rewrite <- list_fmap_compose. }
  rewrite Hsrc. split; [by intros [_ ?]|]. intros Hn. split; [|done].
  apply list_elem_of_In in Hx. by apply (list_elem_of_fmap_2 fst) in Hx.
Qed.
End Partition.

(** * Escaping file names for the depot *)

Lemma replace_byte_app old new a b :
  replace_byte old new (a +:+ b) = replace_byte old new a +:+ replace_byte old new b.
Proof.
  induction a as [|c a IH]; [done|]. rewrite append_cons. cbn [replace_byte].
  by rewrite IH, append_assoc.
Qed.

Lemma encodename_cons c s : encodename (String c s) = escape c +:+ encodename s.
Proof. reflexivity. Qed.

Lemma append_nil_r (a : bytes) : a +:+ EmptyString = a.
Proof. induction a as [|c a IH]; [done|]. by rewrite append_cons, IH. Qed.

Lemma replace_byte_single old new c :
  replace_byte old new (String c EmptyString)
  = if Ascii.eqb c old then new else String c EmptyString.
Proof. cbn [replace_byte]. by rewrite append_nil_r. Qed.

Lemma escape_replaces c :
  replace_byte "*" "%2A"
    (replace_byte "#" "%23" (replace_byte "@" "%40" (replace_byte "%" "%25" (String c EmptyString))))
  = escape c.
Proof.
  unfold escape. rewrite replace_byte_single.
  destruct (Ascii.eqb_spec c "%") as [->|H1]; [reflexivity|].
  rewrite (bool_decide_eq_false_2 _ H1), replace_byte_single.
  destruct (Ascii.eqb_spec c "@") as [->|H2]; [reflexivity|].
  rewrite (bool_decide_eq_false_2 _ H2), replace_byte_single.
  destruct (Ascii.eqb_spec c "#") as [->|H3]; [reflexivity|].
  rewrite (bool_decide_eq_false_2 _ H3), replace_byte_single.
  destruct (Ascii.eqb_spec c "*") as [->|H4]; [reflexivity|].
  by rewrite (bool_decide_eq_false_2 _ H4).
Qed.

Lemma encodename_replaces_eq name : encodename_replaces name = encodename name.
Proof.
  unfold encodename_replaces. induction name as [|c s IH]; [done|].
  change (String c s) with (String c EmptyString +:+ s).
  rewrite !replace_byte_app, IH. rewrite escape_replaces. reflexivity.
Qed.

Lemma escape_head c :
  (exists t, escape c = String "%" t /\ String.length t = 2%nat
             /\ (c = "%" \/ c = "@" \/ c = "#" \/ c = "*")%char)
  \/ (escape c = String c EmptyString /\ c <> "%"%char /\ c <> "@"%char
      /\ c <> "#"%char /\ c <> "*"%char).
Proof.
  unfold escape. repeat case_bool_decide; subst; eauto 10.
Qed.

Lemma escape_inj c1 c2 : escape c1 = escape c2 -> c1 = c2.
Proof.
  unfold escape. repeat case_bool_decide; subst; intros Heq; try done; try discriminate;
    injection Heq; congruence.
Qed.

Lemma encodename_inj a : forall b, encodename a = encodename b -> a = b.
Proof.
  induction a as [|c1 a IH]; intros [|c2 b] H.
  - done.
  - rewrite encodename_cons in H. change (encodename EmptyString) with EmptyString in H.
    destruct (escape_head c2) as [(t & E & _)|[E _]]; rewrite E, append_cons in H;
      discriminate.
  - rewrite encodename_cons in H. change (encodename EmptyString) with EmptyString in H.
    destruct (escape_head c1) as [(t & E & _)|[E _]]; rewrite E, append_cons in H;
      discriminate.
  - rewrite !encodename_cons in H.
    destruct (escape_head c1) as [(t1 & E1 & L1 & _)|(E1 & N1 & _)],
             (escape_head c2) as [(t2 & E2 & L2 & _)|(E2 & N2 & _)].
    + assert (escape c1 = escape c2 /\ encodename a = encodename b) as [Hc Hs].
      { rewrite E1, E2 in *.
        destruct t1 as [|x1 [|y1 [|]]]; try discriminate.
        destruct t2 as [|x2 [|y2 [|]]]; try discriminate.
        rewrite !append_cons in H. change (EmptyString +:+ ?x) with x in H.
        by simplify_eq. }
      f_equal; [by apply escape_inj|by apply IH].
    + rewrite E1, E2, !append_cons in H. injection H as <- _. done.
    + rewrite E1, E2, !append_cons in H. injection H as -> _. done.
    + rewrite E1, E2, !append_cons in H. change (EmptyString +:+ ?x) with x in H.
      injection H as -> H. f_equal. by apply IH.
Qed.

(** X14. The four replacements of [encodename] escape every byte once:
    the result holds none of [@], [#] and [*], and names that differ are
    escaped differently. *)
Theorem encodename_escapes name :
  encodename_replaces name = encodename name
  /\ forallb (fun c => negb (bool_decide (c = "@" \/ c = "#" \/ c = "*")%char))
       (list_ascii_of_string (encodename_replaces name)) = true
  /\ forall other, encodename_replaces name = encodename_replaces other -> name = other.
Proof.
  split; [apply encodename_replaces_eq|]. split.
  - rewrite encodename_replaces_eq. induction name as [|c s IH]; [done|].
    rewrite encodename_cons.
    assert (Happ : forall a b, list_ascii_of_string (a +:+ b)
                   = (list_ascii_of_string a ++ list_ascii_of_string b)%list).
    { intros a b. induction a as [|x a IHa]; [done|]. rewrite append_cons. cbn. by rewrite IHa. }
    rewrite Happ, forallb_app, IH, andb_true_r.
    unfold escape. repeat case_bool_decide; subst; try reflexivity.
    cbn. rewrite bool_decide_eq_false_2; [done|]. intros [?|[?|?]]; congruence.
  - intros other. rewrite !encodename_replaces_eq. apply encodename_inj.
Qed.

(** * The changelists to pull *)

Lemma insert_change_elem c x l : c ∈ insert_change x l <-> c = x \/ c ∈ l.
Proof.
  induction l as [|y l IH]; simpl; [set_solver|].
  destruct (x <=? y); set_solver.
Qed.

Lemma sort_changes_elem c l : c ∈ sort_changes l <-> c ∈ l.
Proof.
  induction l as [|x l IH]; simpl; [done|]. rewrite insert_change_elem, IH. set_solver.
Qed.

Lemma insert_change_increasing c l : increasing l -> increasing (insert_change c l).
Proof.
  induction l as [|x l IH]; intros Hl; [by split|].
  destruct Hl as [Hx Hl]. cbn [insert_change]. destruct (Z.leb_spec c x).
  - split; [|by split]. constructor; [done|].
    eapply Forall_impl; [exact Hx|]. intros y ?. cbn in *. lia.
  - split; [|by apply IH]. apply Forall_forall. intros y Hy.
    apply insert_change_elem in Hy as [->|Hy]; [lia|].
    rewrite Forall_forall in Hx. by apply Hx.
Qed.

Lemma sort_changes_increasing l : increasing (sort_changes l).
Proof. induction l as [|c l IH]; [done|]. by apply insert_change_increasing. Qed.

Section PullCommon.
Variable py_int : bytes -> option Z.

Lemma quiet_pullcommon cl nonempty opts startrev :
  steps quiet (_pullcommon py_int cl nonempty opts startrev).
Proof.
  unfold _pullcommon. step.
  { apply steps_map_m; [apply _|]. intros x. apply steps_int, _. }
  step. { destruct nonempty; [|leaf]. step; [apply quiet_find|leaf]. }
  step; [|leaf].
  apply quiet_run_fold; [by destruct (startrev <? 0)|].
  intros acc d. step; [leaf|]. step; [apply steps_int, _|]. destruct (_ || _); leaf.
Qed.

(** The loop of [_pullcommon]: what it appends was listed by the depot and
    is not the sync point, unless [startrev] is set. *)
Lemma pullcommon_loop abort startrev p4id ds : forall acc w acc' w',
  run_records abort ds
    (fun changes d =>
       bind (getitem d "change") (fun cb =>
       bind (int py_int cb) (fun c =>
       if negb (startrev =? 0) || negb (c =? p4id)
       then ret (changes ++ [c])%list
       else ret changes))) acc w = (Ok acc', w') ->
  forall c, c ∈ acc' ->
    c ∈ acc
    \/ ((startrev <> 0 \/ c <> p4id)
        /\ exists d cb, d ∈ ds /\ d !! "change" = Some cb /\ py_int cb = Some c).
Proof.
  induction ds as [|d ds IH]; intros acc w acc' w' H c Hc; cbn [run_records] in H.
  - injection H as <- _. by left.
  - apply bind_ok_inv in H as ([] & w1 & _ & H).
    apply bind_ok_inv in H as (acc1 & w2 & Hbody & H).
    apply bind_ok_inv in Hbody as (cb & w3 & Hcb & Hbody). apply getitem_inv in Hcb as [Hcb _].
    apply bind_ok_inv in Hbody as (x & w4 & Hx & Hbody). apply (int_inv py_int) in Hx as [Hx _].
    destruct (IH _ _ _ _ H c Hc) as [Hin|(Hne & d' & cb' & Hd' & Hrest)].
    + destruct (negb (startrev =? 0) || negb (x =? p4id)) eqn:E;
        unfold ret in Hbody; injection Hbody as <- _; [|by left].
      apply elem_of_app in Hin as [Hin|Hin]; [by left|].
      apply list_elem_of_singleton in Hin as ->. right. split.
      * apply orb_true_iff in E as [E|E]; apply negb_true_iff in E; lia.
      * exists d, cb. split; [by left|done].
    + right. split; [done|]. exists d', cb'. split; [by right|done].
Qed.

Lemma same_log_pull_loop abort startrev p4id ds : forall acc,
  steps same_log
    (run_records abort ds
       (fun changes d =>
          bind (getitem d "change") (fun cb =>
          bind (int py_int cb) (fun c =>
          if negb (startrev =? 0) || negb (c =? p4id)
          then ret (changes ++ [c])%list
          else ret changes))) acc).
Proof.
  induction ds as [|d ds IH]; intros acc; cbn [run_records]; [leaf|].
  step; [eapply steps_weaken; [apply same_but_ui_same_log|apply run_check_same]|].
  apply steps_bind; [apply _| |intros acc1; apply IH].
  step; [leaf|]. step; [apply steps_int, _|]. destruct (_ || _); leaf.
Qed.

(** X15. The changelists [_pullcommon] returns are numbers the depot
    listed, in ascending order, without the changelist the repository is
    synced to; getting them only asks the depot questions. *)
Theorem pullcommon_changes cl nonempty opts startrev w p4rev changes w' :
  _pullcommon py_int cl nonempty opts startrev w = (Ok (p4rev, changes), w') ->
  increasing changes
  /\ quiet w w'
  /\ (nonempty = false -> p4rev = None)
  /\ exists p4id cmd,
       last (w_log w') = Some cmd
       /\ (nonempty = true ->
           exists r w0, find py_int cl None true None (negb (l_force opts)) w = (Ok r, w0)
                        /\ p4rev = Some r.1 /\ p4id = Z.max r.2 startrev)
       /\ (startrev = 0 -> p4id ∉ changes)
       /\ forall c, c ∈ changes ->
            exists d cb, d ∈ loaditer (w_depot w (w_log w) cmd)
                         /\ d !! "change" = Some cb /\ py_int cb = Some c.
Proof.
  intros H. split; [|split; [eapply quiet_pullcommon, H|]].
  { unfold _pullcommon in H.
    apply bind_ok_inv in H as (revs & w1 & _ & H).
    apply bind_ok_inv in H as (found & w2 & _ & H).
    apply bind_ok_inv in H as (raw & w3 & _ & H). injection H as _ <- _.
    apply sort_changes_increasing. }
  unfold _pullcommon in H.
  apply bind_ok_inv in H as (revs & w1 & Hrevs & H).
  assert (w1 = w) as ->.
  { symmetry. revert Hrevs. apply (steps_map_m eq). intros x. apply steps_int, _. }
  apply bind_ok_inv in H as (found & w2 & Hfound & H).
  apply bind_ok_inv in H as (raw & w3 & Hrun & H). injection H as <- <- <-.
  assert (Hw2 : same_but_ui w w2).
  { destruct nonempty; [|by injection Hfound as _ <-].
    apply bind_ok_inv in Hfound as (r & w0 & Hfind & Hfound). injection Hfound as _ <-.
    eapply find_same, Hfind. }
  destruct Hw2 as (Hdepot & Hlog & _).
  split. { intros ->. by injection Hfound as <- _. }
  unfold run_fold in Hrun. rewrite bind_unfold in Hrun. cbn [popen] in Hrun.
  match type of Hrun with
  | run_records _ (loaditer (_ _ ?c)) _ _ _ = _ => set (cmd := c) in *
  end.
  exists (Z.max found.2 startrev), cmd. split; [|split; [|split]].
  - pose proof (same_log_pull_loop _ _ _ _ _ _ _ _ Hrun) as Hs.
    unfold same_log in Hs. cbn in Hs. by rewrite Hs, last_snoc.
  - intros ->. apply bind_ok_inv in Hfound as (r & w0 & Hfind & Hfound).
    injection Hfound as <- <-. exists r, w0. done.
  - intros Hstart Hin. rewrite sort_changes_elem in Hin.
    destruct (pullcommon_loop _ _ _ _ _ _ _ _ Hrun _ Hin) as [Hnil|[[?|?] _]]; [|done..].
    by apply elem_of_nil in Hnil.
  - intros c Hin. rewrite sort_changes_elem in Hin.
    destruct (pullcommon_loop _ _ _ _ _ _ _ _ Hrun _ Hin) as [Hnil|[_ Hd]].
    + by apply elem_of_nil in Hnil.
    + by rewrite <- Hdepot, <- Hlog.
Qed.
End PullCommon.

(** * Outgoing changes and the changelists of the command line *)

Section Outgoing.
Variable py_int : bytes -> option Z.

(** X16. [outgoing] only asks the depot questions and commits nothing.
    It returns 1, having reported twice that no changes were found, when
    there is nothing to push, and otherwise writes the description and the
    files of the plan, marked 77, 65 and 82 for modified, added and
    removed.  For a client without a name it ends in a [TypeError]. *)
Theorem outgoing_reads_only cl opts pathto w r w' :
  outgoing py_int cl opts pathto w = (r, w') ->
  quiet w w'
  /\ (c_client cl = EmptyString -> r = Raise TypeError)
  /\ forall code out, r = Ok (code, out) ->
       exists wa,
         same_but_ui w wa
         /\ ((code = 1 /\ out = []
              /\ exists w1, _pushcommon py_int cl opts wa = (Ok None, w1)
                            /\ last (w_ui w1) = Some no_changes_found
                            /\ w_ui w' = (w_ui w1 ++ [no_changes_found])%list)
             \/ (code = 0
                 /\ exists plan,
                      _pushcommon py_int cl opts wa = (Ok (Some plan), w')
                      /\ out = ([pp_desc plan; nl +:+ "affected files:" +:+ nl]
                                ++ map (fun f => "77 " +:+ pathto f.1 +:+ nl) (pp_mod plan)
                                ++ map (fun f => "65 " +:+ pathto f.1 +:+ nl) (pp_add plan)
                                ++ map (fun f => "82 " +:+ pathto f.1 +:+ nl) (pp_rem plan)
                                ++ [nl])%list)).
Proof.
  intros H. split; [|split].
  - revert H. unfold outgoing. step.
    { destruct (c_client cl); [leaf|apply quiet_ui_emit]. }
    step; [apply quiet_pushcommon|]. destruct a0; [leaf|]. step; [apply quiet_ui_emit|leaf].
  - intros Hc. unfold outgoing in H. rewrite Hc in H. by injection H as <- _.
  - intros code out ->. unfold outgoing in H.
    apply bind_ok_inv in H as ([] & wa & Hwa & H). exists wa. split.
    { destruct (c_client cl); [discriminate|]. eapply ui_emit_same, Hwa. }
    apply bind_ok_inv in H as ([plan|] & w1 & Hplan & H).
    + injection H as <- <- <-. right. split; [done|]. exists plan. by split.
    + rewrite bind_unfold in H. unfold ui_status, ui_emit in H. injection H as <- <- <-.
      left. split; [done|]. split; [done|]. exists w1. split; [done|]. split; [|done].
      unfold _pushcommon in Hplan.
      apply bind_ok_inv in Hplan as ([[[[p4rev p4id] ctx1] ctx2] nodes] & w2 & _ & Hplan).
      destruct nodes as [|x nodes].
      { rewrite bind_unfold in Hplan. unfold ui_status, ui_emit in Hplan.
        injection Hplan as <-. cbn. by rewrite last_snoc. }
      destruct (changed_files (c_repo cl) ctx1 ctx2) as [[[mod_ add_] rem_] cpy].
      destruct (mod_ ++ add_ ++ rem_)%list.
      { rewrite bind_unfold in Hplan. unfold ui_status, ui_emit in Hplan.
        injection Hplan as <-. cbn. by rewrite last_snoc. }
      apply bind_ok_inv in Hplan as ([] & w3 & _ & Hplan).
      apply bind_ok_inv in Hplan as (desc & w4 & _ & Hplan). discriminate.
Qed.

Lemma filter_map_increasing (pl : list pending_entry) (keep : pending_entry -> bool) :
  ascending pl -> increasing (map entry_change (List.filter keep pl)).
Proof.
  induction pl as [|e pl IH]; intros Hpl; [done|]. destruct Hpl as [He Hpl].
  cbn [List.filter]. destruct (keep e); [|by apply IH].
  cbn [map]. split; [|by apply IH].
  rewrite Forall_forall in He. apply Forall_forall. intros c Hc.
  apply list_elem_of_fmap in Hc as (x & -> & Hx).
  apply list_elem_of_In, filter_In in Hx as [Hx _]. by apply He, list_elem_of_In.
Qed.

(** X17. With [--all] and no changelist given, the changelists to submit
    or revert are those of the pending list that are not submitted, in
    ascending order; for lack of any the call ends in a [TypeError]. *)
Theorem subrevcommon_all cl w r w' :
  w_p4stat w = None ->
  subrevcommon py_int cl [] true w = (r, w') ->
  (forall cs, r = Ok cs ->
     cs <> [] /\ increasing cs
     /\ forall c, c ∈ cs <->
          exists e, e ∈ w_p4pending w' /\ entry_change e = c /\ entry_submitted e = false)
  /\ (forall pl, getpendinglist py_int cl w = (Ok pl, w') ->
        Forall (fun e => entry_submitted e = true) pl -> r = Raise TypeError).
Proof.
  intros Hnone H. unfold subrevcommon in H. rewrite bind_unfold in H.
  destruct (getpendinglist py_int cl w) as [[pl|e] w1] eqn:Hpl.
  2:{ injection H as <- <-. split; [done|]. intros pl [=]. }
  assert (Hw1 : w_p4pending w1 = pl).
  { unfold getpendinglist in Hpl. apply bind_ok_inv in Hpl as ([] & wa & _ & Hpl).
    unfold bind, get_world, ret in Hpl. by injection Hpl as <- <-. }
  pose proof (pending_list_sorted py_int cl w pl w1 Hnone Hpl) as Hasc.
  split.
  - intros cs ->.
    destruct (map entry_change (List.filter (fun e => negb (entry_submitted e)) pl))
      as [|c cs'] eqn:E; [discriminate|].
    injection H as <- <-. split; [done|]. rewrite <- E, Hw1. split.
    + by apply filter_map_increasing.
    + intros c'. rewrite list_elem_of_fmap. split.
      * intros (e & -> & He). apply list_elem_of_In, filter_In in He as [He Hs].
        exists e. split; [by apply list_elem_of_In|]. split; [done|].
        by apply negb_true_iff in Hs.
      * intros (e & He & <- & Hs). exists e. split; [done|].
        apply list_elem_of_In, filter_In. split; [by apply list_elem_of_In|by rewrite Hs].
  - intros pl' Heq Hall. assert (pl' = pl) as -> by congruence.
    assert (E : List.filter (fun e => negb (entry_submitted e)) pl = []).
    { clear -Hall. induction Hall as [|e pl He _ IH]; [done|]. cbn. by rewrite He. }
    rewrite E in H. by injection H as <- _.
Qed.
End Outgoing.

(** * The path of a client *)

Lemma occurs_app_l p a b : occurs p a = true -> occurs p (a +:+ b) = true.
Proof.
  induction a as [|c a IH]; intros H.
  - change (EmptyString +:+ b) with b. destruct p as [|x p]; [destruct b; reflexivity|cbn in H; discriminate].
  - cbn [occurs] in H. rewrite append_cons. cbn [occurs]. rewrite <- append_cons.
    destruct (strip_prefix p (String c a)) as [r|] eqn:E.
    + apply strip_prefix_Some in E. rewrite E, append_assoc, strip_prefix_app. done.
    + rewrite IH by done. by destruct (strip_prefix p (String c a +:+ b)).
Qed.

Lemma occurs_app_r p a b : occurs p b = true -> occurs p (a +:+ b) = true.
Proof.
  intros H. induction a as [|c a IH]; [done|]. rewrite append_cons. cbn [occurs].
  rewrite IH. by destruct (strip_prefix p _).
Qed.

Lemma split1_spec sep s :
  match split1 sep s with
  | (a, None) => s = a /\ occurs (String sep EmptyString) s = false
  | (a, Some b) => s = a +:+ String sep b /\ occurs (String sep EmptyString) a = false
  end.
Proof.
  induction s as [|c s IH]; [done|]. cbn [split1].
  destruct (Ascii.eqb_spec c sep) as [->|Hne]; [done|].
  destruct (split1 sep s) as [a [b|]].
  - destruct IH as [-> Ha]. split; [by rewrite append_cons|].
    cbn [occurs strip_prefix]. by destruct (Ascii.eqb_spec sep c); [congruence|].
  - destruct IH as [-> Ha]. split; [done|].
    cbn [occurs strip_prefix]. by destruct (Ascii.eqb_spec sep c); [congruence|].
Qed.

Lemma split_byte_no_sep sep s :
  Forall (fun q => occurs (String sep EmptyString) q = false) (split_byte sep s).
Proof.
  induction s as [|c s IH]; [by repeat constructor|]. cbn [split_byte].
  destruct (Ascii.eqb_spec c sep) as [->|Hne]; [by constructor|].
  assert (Hc : forall x, occurs (String sep EmptyString) x = false ->
                 occurs (String sep EmptyString) (String c x) = false).
  { intros x Hx. cbn [occurs strip_prefix]. by destruct (Ascii.eqb_spec sep c); [congruence|]. }
  destruct (split_byte sep s) as [|x xs]; [by repeat constructor; apply Hc|].
  apply Forall_cons in IH as [Hx Hxs]. constructor; [by apply Hc|done].
Qed.

Lemma startswith_drop p s : startswith p s = true -> s = p +:+ drop_bytes (String.length p) s.
Proof.
  unfold startswith. revert s. induction p as [|a p IH]; intros s H; [done|].
  destruct s as [|b s]; [done|]. cbn in H.
  destruct (Ascii.ascii_dec a b) as [->|]; [|discriminate].
  rewrite append_cons. cbn [String.length drop_bytes]. f_equal. by apply IH.
Qed.

(** X18. What the constructor of the client reads off a path: the server
    always has a port, the client is the first component after it, and the
    partial path is the remaining components that are not empty, each
    followed by a slash.  A path that does not start with [p4:] is not a
    client, one that does not go on with [//] is a bad client, and one
    without a slash after the server cannot be unpacked. *)
Theorem parse_path_fields path :
  match parse_path path with
  | inl (NotClient msg) =>
      startswith "p4:" path = false /\ msg = path +:+ " not a p4 repository"
  | inl (BadClient msg) =>
      startswith "p4:" path = true /\ startswith "p4://" path = false
      /\ msg = path +:+ " not a p4 repository"
  | inl Unpack => startswith "p4://" path = true /\ occurs "/" (drop_bytes 5 path) = false
  | inr (server, found) =>
      exists host rest,
        path = "p4://" +:+ host +:+ "/" +:+ rest
        /\ occurs "/" host = false
        /\ occurs ":" server = true
        /\ (server = host \/ server = host +:+ ":1666")
        /\ match found with
           | None => rest = EmptyString
           | Some (client, partial) =>
               rest <> EmptyString /\ occurs "/" client = false
               /\ exists comps,
                    Forall (fun q => q <> EmptyString /\ occurs "/" q = false) comps
                    /\ partial = match comps with
                                 | [] => EmptyString
                                 | _ => join "/" comps +:+ "/"
                                 end
                    /\ (rest = client /\ comps = []
                        \/ exists p, rest = client +:+ "/" +:+ p
                             /\ comps = List.filter (fun q => negb (String.eqb q EmptyString))
                                          (split_byte "/" p))
           end
  end.
Proof.
  unfold parse_path.
  destruct (startswith "p4:" path) eqn:E1; [|done]. cbn [negb].
  destruct (startswith "p4://" path) eqn:E2; [|done]. cbn [negb].
  pose proof (startswith_drop _ _ E2) as Hpath. cbn [String.length] in Hpath.
  pose proof (split1_spec "/" (drop_bytes 5 path)) as Hs.
  destruct (split1 "/" (drop_bytes 5 path)) as [s [c|]]; [|by destruct Hs].
  destruct Hs as [Hrest Hhost].
  assert (Hserver : occurs ":" (if occurs ":" s then s else s +:+ ":1666") = true
                    /\ ((if occurs ":" s then s else s +:+ ":1666") = s
                        \/ (if occurs ":" s then s else s +:+ ":1666") = s +:+ ":1666")).
  { destruct (occurs ":" s) eqn:E; [by split; [|left]|]. split; [|by right].
    by apply occurs_app_r. }
  destruct Hserver as [Hport Hserver].
  destruct c as [|c0 c].
  { exists s, EmptyString. rewrite Hpath at 1. by rewrite Hrest. }
  pose proof (split1_spec "/" (String c0 c)) as Hc.
  destruct (split1 "/" (String c0 c)) as [client [p|]].
  - destruct Hc as [Hc Hclient].
    exists s, (String c0 c). rewrite Hpath at 1. rewrite Hrest. split; [done|].
    split; [done|]. split; [done|]. split; [done|].
    split; [done|]. split; [done|].
    pose proof (split_byte_no_sep "/" p) as Hp.
    cbv zeta.
    set (comps := List.filter (fun q => negb (String.eqb q EmptyString)) (split_byte "/" p)).

    assert (Hcomps : Forall (fun q => q <> EmptyString /\ occurs "/" q = false) comps).
    { apply Forall_forall. intros q Hq. apply list_elem_of_In, filter_In in Hq as [Hq Hne].
      split; [by intros ->|]. rewrite Forall_forall in Hp. by apply Hp, list_elem_of_In. }
    exists comps. split; [done|]. split.
    + destruct comps as [|q qs]; [done|]. apply Forall_cons in Hcomps as [[Hq _] _].
      unfold join. cbn [concat].
      destruct q as [|x q]; [done|]. by destruct qs.
    + right. by exists p.
  - destruct Hc as [<- Hclient].
    exists s, (String c0 c). rewrite Hpath at 1. rewrite Hrest. split; [done|].
    split; [done|]. split; [done|]. split; [done|]. split; [done|]. split; [done|].
    exists []. split; [done|]. split; [done|]. by left.
Qed.

(** * Local names of the files of a changelist *)

Lemma repopath_ok_inv cl path w r w' :
  repopath cl path w = (Ok r, w') -> w' = w /\ c_pconvert cl path = c_rootpart cl +:+ r.
Proof.
  unfold repopath, ret, raise. destruct (startswith _ _) eqn:E; [|discriminate].
  intros [= <- <-]. split; [done|]. by apply startswith_drop.
Qed.

(** X19. [repopath] takes the root of the client off a path: the root
    followed by the result is the converted path, and a path outside the
    root is refused. *)
Theorem repopath_strips_root cl path w :
  (exists r, repopath cl path w = (Ok r, w) /\ c_pconvert cl path = c_rootpart cl +:+ r)
  \/ (repopath cl path w
      = (Raise (Abort ("invalid p4 local path " +:+ c_pconvert cl path)), w)
      /\ startswith (c_rootpart cl) (c_pconvert cl path) = false).
Proof.
  unfold repopath. destruct (startswith _ _) eqn:E; [left|by right].
  eexists. split; [reflexivity|]. by apply startswith_drop.
Qed.

Lemma getitem_ok_inv (d : gmap bytes bytes) (key : bytes) w v w' :
  getitem d key w = (Ok v, w') -> d !! key = Some v /\ w' = w.
Proof.
  unfold getitem, ret, raise. destruct (d !! key); [|discriminate]. by intros [= -> ->].
Qed.

Section Fstat.
Variable py_int : bytes -> option Z.

Lemma fstat_loop cl ds : forall acc w files w',
  run_records true ds
    (fun result d =>
       if bool_decide (is_Some (d !! "desc")) then ret result
       else
         bind (getitem d "depotFile") (fun df =>
         bind (getitem d "clientFile") (fun cf =>
         if startswith ".hg" cf then ret result
         else
           bind (repopath cl cf) (fun lf =>
           bind (match d !! "headRev" with
                 | Some b => int py_int b
                 | None => ret 0
                 end) (fun rv =>
           bind (getitem actions (default "add" (d !! "headAction"))) (fun a =>
           ret (result ++ [ {| f_depot := df; f_rev := rv;
                               f_type := default EmptyString (d !! "headType");
                               f_action := a; f_local := Some lf |} ])%list)))))) acc w
  = (Ok files, w') ->
  same_but_ui w w'
  /\ exists new, files = (acc ++ new)%list
       /\ Forall (fun f => exists d, d ∈ ds /\ fstat_entry cl d f) new.
Proof.
  induction ds as [|d ds IH]; intros acc w files w' H.
  - injection H as <- <-. split; [done|]. exists []. by rewrite app_nil_r.
  - cbn [run_records] in H.
    apply bind_ok_inv in H as ([] & w1 & Hc & H).
    apply run_check_same in Hc.
    apply bind_ok_inv in H as (acc' & w2 & Hb & H).
    apply IH in H as (Hui & new & -> & Hnew).
    assert (Hrest : Forall (fun f => exists d0, d0 ∈ d :: ds /\ fstat_entry cl d0 f) new).
    { eapply Forall_impl; [exact Hnew|]. intros f (d0 & ? & ?). exists d0. split; [by right|done]. }
    case_bool_decide as Hdesc.
    { unfold ret in Hb. injection Hb as <- <-. split; [by etrans|]. by exists new. }
    apply bind_ok_inv in Hb as (df & w3 & Hdf & Hb).
    apply bind_ok_inv in Hb as (cf & w4 & Hcf & Hb).
    apply getitem_ok_inv in Hdf as [Edf ->]. apply getitem_ok_inv in Hcf as [Ecf ->].
    destruct (startswith ".hg" cf) eqn:Ehg.
    { unfold ret in Hb. injection Hb as <- <-. split; [by etrans|]. by exists new. }
    apply bind_ok_inv in Hb as (lf & w5 & Hlf & Hb).
    apply repopath_ok_inv in Hlf as [-> Hroot].
    apply bind_ok_inv in Hb as (rv & w6 & Hrv & Hb).
    assert (w6 = w1) as ->.
    { destruct (d !! "headRev"); [|unfold ret in Hrv; congruence].
      unfold int, raise in Hrv. destruct (py_int _); [unfold ret in Hrv; congruence|discriminate]. }
    apply bind_ok_inv in Hb as (a & w7 & Ha & Hb).
    apply getitem_ok_inv in Ha as [Ea ->].
    unfold ret in Hb. injection Hb as <- <-.
    split; [by etrans|]. eexists (_ :: new). split; [by rewrite <- app_assoc|].
    constructor; [|done]. exists d. split; [by left|].
    split; [by apply eq_None_not_Some|]. split; [done|]. split; [done|]. split; [done|].
    by exists cf, lf.
Qed.

(** X20. The files [fstat] returns are made from records of the answer
    to its one command: none from a description record or from a client
    file under [.hg], each with the depot name of its record and, as
    local name, the client file of the record relative to the root of the
    client.  The number of files is noted last. *)
Theorem fstat_files_have_local_names cl chg all fs w files w' :
  fstat py_int cl chg all fs w = (Ok files, w') ->
  exists c,
    w_log w' = (w_log w ++ [c])%list /\ cmd_files c = fs
    /\ Forall (fun f => exists d, d ∈ loaditer (w_depot w (w_log w) c) /\ fstat_entry cl d f)
         files
    /\ last (w_ui w')
       = Some (UiNote (fmt_d (Z.of_nat (length files)) +:+ " files " +:+ nl)).
Proof.
  intros H. unfold fstat in H.
  apply bind_ok_inv in H as (result & w1 & Hrun & H).
  unfold bind, ui_note, ui_emit, ret in H. injection H as <- <-. cbn [w_log w_ui].
  unfold run_fold in Hrun. rewrite bind_unfold in Hrun. cbn [popen] in Hrun.
  apply fstat_loop in Hrun as ((_ & Hlog & _) & new & -> & Hnew). cbn [w_log] in Hlog.
  eexists. split; [exact Hlog|]. split; [done|]. split; [done|]. by rewrite last_snoc.
Qed.
End Fstat.

(** * The entries of a commit *)

Lemma odict_set_keys key f entries :
  key ∉ map fst entries -> odict_set key f entries = (entries ++ [(key, f)])%list.
Proof.
  induction entries as [|[k v] rest IH]; intros Hk; [done|]. cbn [odict_set].
  rewrite fmap_cons, not_elem_of_cons in Hk. destruct Hk as [Hne Hk].
  rewrite bool_decide_eq_false_2 by done. by rewrite IH.
Qed.

Lemma odict_set_nodup key f entries :
  NoDup (map fst entries) -> NoDup (map fst (odict_set key f entries)).
Proof.
  induction entries as [|[k v] rest IH]; intros Hnd.
  - cbn. apply NoDup_singleton.
  - cbn [odict_set]. case_bool_decide as Hk; [done|].
    cbn in Hnd |- *. apply NoDup_cons in Hnd as [Hnotin Hnd].
    apply NoDup_cons. split; [|by apply IH].
    clear IH Hnd. induction rest as [|[k' v'] rest IH]; cbn.
    + rewrite list_elem_of_singleton. congruence.
    + cbn in Hnotin. rewrite not_elem_of_cons in Hnotin. destruct Hnotin as [Hne Hnotin].
      case_bool_decide; cbn; rewrite not_elem_of_cons; split; auto.
Qed.

Lemma odict_set_elem key f entries k g :
  NoDup (map fst entries) ->
  (k, g) ∈ odict_set key f entries <-> (k = key /\ g = f) \/ (k <> key /\ (k, g) ∈ entries).
Proof.
  induction entries as [|[k0 v0] rest IH]; intros Hnd.
  - cbn. rewrite list_elem_of_singleton. split.
    + intros [= -> ->]. by left.
    + intros [[-> ->]|[_ H]]; [done|by apply elem_of_nil in H].
  - cbn in Hnd. apply NoDup_cons in Hnd as [Hnotin Hnd]. cbn [odict_set].
    case_bool_decide as Hk.
    + subst k0. rewrite !elem_of_cons. split.
      * intros [[= -> ->]|Hin]; [by left|]. right. split; [|by right].
        intros ->. apply Hnotin. apply list_elem_of_fmap. by exists (key, g).
      * intros [[-> ->]|[Hne [[= -> ->]|Hin]]]; [by left|done|by right].
    + rewrite !elem_of_cons, (IH Hnd). split.
      * intros [[= -> ->]|[[-> ->]|[Hne Hin]]]; [right; split; [done|by left]|by left|].
        right. split; [done|by right].
      * intros [[-> ->]|[Hne [[= -> ->]|Hin]]]; [right; by left|by left|]. right. by right.
Qed.

Lemma last_named_cons f files k g :
  last_named (f :: files) k g
  <-> last_named files k g
      \/ (g = f /\ f_local f = Some k /\ Forall (fun x => f_local x <> Some k) files).
Proof.
  split.
  - intros (l1 & l2 & Heq & Hk & Hl2). destruct l1 as [|x l1].
    + injection Heq as -> ->. by right.
    + injection Heq as -> ->. left. by exists l1, l2.
  - intros [(l1 & l2 & -> & Hk & Hl2)|(-> & Hk & Hl2)].
    + by exists (f :: l1), l2.
    + by exists [], files.
Qed.

Lemma entries_update_spec files : forall acc w,
  Forall (fun f => is_Some (f_local f)) files ->
  NoDup (map fst acc) ->
  exists entries,
    entries_update files acc w = (Ok entries, w)
    /\ NoDup (map fst entries)
    /\ forall k g, (k, g) ∈ entries
         <-> last_named files k g
             \/ ((k, g) ∈ acc /\ Forall (fun x => f_local x <> Some k) files).
Proof.
  induction files as [|f files IH]; intros acc w Hloc Hnd.
  - exists acc. split; [done|]. split; [done|]. intros k g. split.
    + intros H. by right.
    + intros [(l1 & l2 & Heq & _)|[H _]]; [by destruct l1|done].
  - apply Forall_cons in Hloc as [[lf Hlf] Hloc]. cbn [entries_update].
    unfold localname. rewrite Hlf, bind_unfold. cbn [ret].
    destruct (IH (odict_set lf f acc) w Hloc (odict_set_nodup lf f acc Hnd))
      as (entries & Hrun & Hnd' & Hiff).
    exists entries. split; [done|]. split; [done|]. intros k g.
    rewrite Hiff, last_named_cons, (odict_set_elem _ _ _ _ _ Hnd), Forall_cons.
    split.
    + intros [H|[[[-> ->]|[Hne Hin]] Hrest]]; [by left; left|left; by right|].
      right. split; [done|]. split; [congruence|done].
    + intros [[H|(-> & Hk & Hrest)]|(Hin & Hne & Hrest)]; [by left| |].
      * right. split; [|done]. left. split; [congruence|done].
      * right. split; [|done]. right. split; [congruence|done].
Qed.

(** X21. Without [ignorecase] the entries of a commit are keyed by the
    local names of the files, once each, and a name that several files
    carry keeps the last of them. *)
Theorem entries_keep_last_file cl files p1 p2 w :
  c_ignorecase cl = false ->
  Forall (fun f => is_Some (f_local f)) files ->
  exists entries,
    _entries cl files p1 p2 w = (Ok entries, w)
    /\ NoDup (map fst entries)
    /\ forall k f, (k, f) ∈ entries <-> last_named files k f.
Proof.
  intros Hcase Hloc. unfold _entries. rewrite Hcase.
  destruct (entries_update_spec files [] w Hloc NoDup_nil_2)
    as (entries & Hrun & Hnd & Hiff).
  exists entries. split; [done|]. split; [done|]. intros k f. rewrite Hiff.
  split; [|by left]. intros [H|[H _]]; [done|by apply elem_of_nil in H].
Qed.

Lemma first_named_cons cl f lf0 files lf g :
  f_local f = Some lf0 ->
  first_named cl (f :: files) lf g
  <-> (g = f /\ lf = lf0)
      \/ (first_named cl files lf g /\ c_normcase cl lf0 <> c_normcase cl lf).
Proof.
  intros Hlf. split.
  - intros (l1 & l2 & Heq & Hk & Hl1). destruct l1 as [|x l1].
    + injection Heq as -> ->. left. split; [done|congruence].
    + injection Heq as -> ->. apply Forall_cons in Hl1 as [Hx Hl1]. right.
      split; [by exists l1, l2|by apply Hx].
  - intros [[-> ->]|[(l1 & l2 & -> & Hk & Hl1) Hne]].
    + by exists [], files.
    + exists (f :: l1), l2. split; [done|]. split; [done|]. constructor; [|done].
      intros lg Hlg. congruence.
Qed.

Lemma manifiles_normcase cl (l : list bytes) : forall m : gmap bytes bytes,
  (forall g f, m !! g = Some f -> c_normcase cl f = g) ->
  forall g f, foldl (fun m f => <[c_normcase cl f := f]> m) m l !! g = Some f ->
              c_normcase cl f = g.
Proof.
  induction l as [|x l IH]; intros m Hm; [done|]. cbn [foldl]. apply IH.
  intros g f. destruct (decide (c_normcase cl x = g)) as [<-|Hne].
  - rewrite lookup_insert_eq. by intros [= ->].
  - rewrite lookup_insert_ne by done. apply Hm.
Qed.

Lemma entries_ignorecase_spec cl (manifiles : gmap bytes bytes) files :
  (forall g f, manifiles !! g = Some f -> c_normcase cl f = g) ->
  forall seen acc w entries w',
    (forall g, g ∈ seen <-> exists e, e ∈ acc /\ c_normcase cl e.1 = g) ->
    NoDup (map (fun e => c_normcase cl e.1) acc) ->
    entries_ignorecase cl manifiles files seen acc w = (Ok entries, w') ->
    w' = w
    /\ NoDup (map (fun e => c_normcase cl e.1) entries)
    /\ forall k g, (k, g) ∈ entries
         <-> (k, g) ∈ acc
             \/ exists lf, first_named cl files lf g /\ (c_normcase cl lf ∉ seen)
                           /\ k = default lf (manifiles !! c_normcase cl lf).
Proof.
  intros Hm. induction files as [|f files IH]; intros seen acc w entries w' Hseen Hnd H.
  - cbn in H. unfold ret in H. injection H as <- <-. split; [done|]. split; [done|].
    intros k g. split; [by left|].
    intros [H|(lf & (l1 & l2 & Heq & _) & _)]; [done|by destruct l1].
  - cbn [entries_ignorecase] in H. apply bind_ok_inv in H as (lf0 & w1 & Hlf & H).
    unfold localname, ret, raise in Hlf.
    destruct (f_local f) as [lf0'|] eqn:Elf; [|discriminate]. injection Hlf as -> <-.
    case_bool_decide as Hin.
    + apply IH in H as (-> & Hnd' & Hiff); [|done..].
      split; [done|]. split; [done|]. intros k g. rewrite Hiff. split.
      * intros [?|(lf & Hfirst & Hnot & ->)]; [by left|]. right. exists lf.
        split; [|done]. apply (first_named_cons _ _ _ _ _ _ Elf). right.
        split; [done|]. intros Heq. by rewrite Heq in Hin.
      * intros [?|(lf & Hfirst & Hnot & ->)]; [by left|]. right. exists lf.
        apply (first_named_cons _ _ _ _ _ _ Elf) in Hfirst as [[-> ->]|[Hfirst _]]; done.
    + set (key := default lf0 (manifiles !! c_normcase cl lf0)) in *.
      assert (Hkey : c_normcase cl key = c_normcase cl lf0).
      { unfold key. destruct (manifiles !! c_normcase cl lf0) as [x|] eqn:Ex; [|done].
        by apply Hm in Ex. }
      assert (Hfresh : key ∉ map fst acc).
      { intros Hk. apply list_elem_of_fmap in Hk as (e & He & Hk). apply Hin, Hseen.
        exists e. split; [done|]. by rewrite <- He, Hkey. }
      rewrite (odict_set_keys _ _ _ Hfresh) in H.
      apply IH in H as (-> & Hnd' & Hiff).
      * split; [done|]. split; [done|]. intros k g. rewrite Hiff, elem_of_app.
        rewrite list_elem_of_singleton. split.
        -- intros [[?|[= -> ->]]|(lf & Hfirst & Hnot & ->)].
           ++ by left.
           ++ right. exists lf0. split; [|done].
              apply (first_named_cons _ _ _ _ _ _ Elf). by left.
           ++ right. exists lf. rewrite not_elem_of_union, not_elem_of_singleton in Hnot.
              destruct Hnot as [Hne Hnot]. split; [|done].
              apply (first_named_cons _ _ _ _ _ _ Elf). right. split; [done|congruence].
        -- intros [?|(lf & Hfirst & Hnot & ->)]; [by left; left|].
           apply (first_named_cons _ _ _ _ _ _ Elf) in Hfirst as [[-> ->]|[Hfirst Hne]].
           ++ left. by right.
           ++ right. exists lf. split; [done|]. split; [|done].
              rewrite not_elem_of_union, not_elem_of_singleton. split; [congruence|done].
      * intros g. rewrite elem_of_union, elem_of_singleton, Hseen. split.
        -- intros [->|(e & He & Hg)].
           ++ exists (key, f). split; [|done]. apply elem_of_app. right.
              by apply list_elem_of_singleton.
           ++ exists e. split; [|done]. apply elem_of_app. by left.
        -- intros (e & He & Hg). apply elem_of_app in He as [He|He].
           ++ right. by exists e.
           ++ apply list_elem_of_singleton in He as ->. left. by rewrite <- Hg.
      * rewrite map_app. cbn [map fst]. apply NoDup_app. split; [done|]. split.
        -- intros x Hx Hx'. apply list_elem_of_singleton in Hx' as ->.
           apply list_elem_of_fmap in Hx as (e & He & Hx). apply Hin, Hseen.
           exists e. split; [done|]. by rewrite <- He, Hkey.
        -- apply NoDup_singleton.
Qed.

(** X22. With [ignorecase] the entries of a commit are keyed by names
    that differ in more than case, and of the files whose local names
    differ only in case the first is kept. *)
Theorem entries_ignorecase_keep_first_file cl files p1 p2 w entries w' :
  c_ignorecase cl = true ->
  _entries cl files p1 p2 w = (Ok entries, w') ->
  w' = w
  /\ NoDup (map (fun e => c_normcase cl e.1) entries)
  /\ (forall k f, (k, f) ∈ entries ->
        exists lf, first_named cl files lf f /\ c_normcase cl k = c_normcase cl lf)
  /\ (forall lf f, first_named cl files lf f ->
        exists k, (k, f) ∈ entries /\ c_normcase cl k = c_normcase cl lf).
Proof.
  intros Hcase H. unfold _entries in H. rewrite Hcase in H.
  apply bind_ok_inv in H as (manifiles & w1 & Hman & H).
  unfold manifiles_of in Hman. apply bind_ok_inv in Hman as (ms & w2 & Hms & Hman).
  unfold ret in Hman. injection Hman as <- <-.
  assert (w2 = w) as ->.
  { cbn [map_m] in Hms.
    apply bind_ok_inv in Hms as (m1 & w3 & H1 & Hms).
    apply bind_ok_inv in Hms as (ms' & w4 & H2 & Hms).
    apply bind_ok_inv in H2 as (m2 & w5 & H2 & H3).
    apply bind_ok_inv in H3 as (ms'' & w6 & H3 & H4).
    unfold ret in Hms, H3, H4. injection Hms as _ <-. injection H3 as _ <-.
    injection H4 as _ <-.
    assert (Hpar : forall (n : option bytes) m wa wb,
              match n with
              | None | Some EmptyString => ret []
              | Some key =>
                  bind (repo_getitem (c_repo cl) key)
                    (fun c => ret (ctx_manifest (c_repo cl) c))
              end wa = (Ok m, wb) -> wb = wa).
    { intros [[|a n]|] m wa wb Hn; try (unfold ret in Hn; congruence).
      apply bind_ok_inv in Hn as (c & wc & Hc & Hn). unfold ret in Hn.
      unfold repo_getitem, ret, raise in Hc.
      destruct (repo_lookup _ _); [congruence|discriminate]. }
    apply Hpar in H1, H2. congruence. }
  set (manifiles := foldl _ ∅ (concat ms)) in H.
  assert (Hm : forall g f, manifiles !! g = Some f -> c_normcase cl f = g).
  { apply manifiles_normcase. intros g f Hg. by rewrite lookup_empty in Hg. }
  apply (entries_ignorecase_spec cl manifiles files Hm) in H as (-> & Hnd & Hiff).
  - split; [done|]. split; [done|]. split.
    + intros k f Hin. apply Hiff in Hin as [Hin|(lf & Hfirst & _ & ->)];
        [by apply elem_of_nil in Hin|].
      exists lf. split; [done|].
      destruct (manifiles !! c_normcase cl lf) as [x|] eqn:Ex; [|done]. by apply Hm in Ex.
    + intros lf f Hfirst. exists (default lf (manifiles !! c_normcase cl lf)). split.
      * apply Hiff. right. exists lf. split; [done|]. split; [set_solver|done].
      * destruct (manifiles !! c_normcase cl lf) as [x|] eqn:Ex; [|done]. by apply Hm in Ex.
  - intros g. split; [set_solver|]. intros (e & He & _). by apply elem_of_nil in He.
  - constructor.
Qed.

(** * Synchronizing the client *)

Lemma sync_loop ds : forall (n : nat) w r w',
  run_records false ds
    (fun (n : nat) d =>
       bind (if bool_decide (d !! "code" = Some "error")
             then
               bind (getitem d "data") (fun data =>
               bind (getitem d "generic") (fun generic =>
               if bool_decide (generic = "17") then ui_note ("p4: " +:+ strip data +:+ nl)
               else
                 bind (getitem d "severity") (fun severity =>
                 if bool_decide (severity = "2") then ui_note ("p4: " +:+ strip data +:+ nl)
                 else raise (Abort ("p4: " +:+ strip data)))))
             else ret tt) (fun _ => ret (S n))) n w
  = (r, w') ->
  same_but_ui w w'
  /\ (forall m, r = Ok m ->
        m = (n + length ds)%nat
        /\ Forall (fun d => d !! "code" = Some "error" ->
                     d !! "generic" = Some "17" \/ d !! "severity" = Some "2") ds)
  /\ (Forall (fun d => d !! "code" <> Some "error") ds -> r = Ok (n + length ds)%nat).
Proof.
  induction ds as [|d ds IH]; intros n w r w' H.
  - cbn in H. unfold ret in H. injection H as <- <-. split; [done|].
    split; [|by rewrite Nat.add_0_r]. intros m [= <-]. by rewrite Nat.add_0_r.
  - cbn [run_records] in H.
    destruct (run_check_noabort d w) as (w1 & Hc & Hui1).
    rewrite bind_unfold, Hc in H. rewrite bind_unfold in H.
    match type of H with
    | match ?b w1 with _ => _ end = _ => destruct (b w1) as [[n'|e] w2] eqn:Hb
    end.
    + assert (Hn : n' = S n /\ same_but_ui w1 w2
                   /\ (d !! "code" = Some "error" ->
                       d !! "generic" = Some "17" \/ d !! "severity" = Some "2")).
      { apply bind_ok_inv in Hb as ([] & w3 & Hb & Hret).
        unfold ret in Hret. injection Hret as <- <-. split; [done|].
        case_bool_decide as Herr; [|unfold ret in Hb; injection Hb as <-; by split].
        apply bind_ok_inv in Hb as (data & w4 & Hdata & Hb).
        apply getitem_ok_inv in Hdata as [Hdata ->].
        apply bind_ok_inv in Hb as (generic & w5 & Hgen & Hb).
        apply getitem_ok_inv in Hgen as [Hgen ->].
        case_bool_decide as H17.
        { subst generic. split; [eapply ui_emit_same, Hb|]. by left. }
        apply bind_ok_inv in Hb as (severity & w6 & Hsev & Hb).
        apply getitem_ok_inv in Hsev as [Hsev ->].
        case_bool_decide as H2; [|by unfold raise in Hb].
        subst severity. split; [eapply ui_emit_same, Hb|]. by right. }
      destruct Hn as (-> & Hui2 & Htol).
      apply IH in H as (Hui3 & Hok & Hall).
      split; [by etrans; [|etrans]|]. split.
      * intros m Hm. destruct (Hok m Hm) as [-> Hds]. split; [cbn; lia|by constructor].
      * intros Hne. apply Forall_cons in Hne as [_ Hne]. rewrite (Hall Hne).
        f_equal. cbn. lia.
    + injection H as <- <-.
      assert (Herr : d !! "code" = Some "error" /\ same_but_ui w1 w2).
      { unfold bind in Hb.
        case_bool_decide as Herr; [|by unfold ret in Hb].
        split; [done|].
        assert (Hsteps : steps same_but_ui
                  (bind (getitem d "data") (fun data =>
                   bind (getitem d "generic") (fun generic =>
                   if bool_decide (generic = "17")
                   then ui_note ("p4: " +:+ strip data +:+ nl)
                   else
                     bind (getitem d "severity") (fun severity =>
                     if bool_decide (severity = "2")
                     then ui_note ("p4: " +:+ strip data +:+ nl)
                     else raise (Abort ("p4: " +:+ strip data))))))).
        { step; [leaf|]. step; [leaf|]. destruct (bool_decide _); [apply ui_emit_same|].
          step; [leaf|]. destruct (bool_decide _); [apply ui_emit_same|leaf]. }
        unfold bind in Hsteps.
        match type of Hb with
        | match ?m with _ => _ end = _ => destruct m as [[u|e'] w3] eqn:Hm
        end.
        - unfold ret in Hb. discriminate.
        - injection Hb as <- <-. eapply Hsteps. unfold bind. exact Hm. }
      destruct Herr as [Herr Hui2]. split; [by etrans|]. split; [done|].
      intros Hne. apply Forall_cons in Hne as [Hne _]. done.
Qed.

(** X23. [sync] counts the records of the answer to its one command.
    When it returns, every error record was one of the two kinds it takes
    for a note, and files named one by one were answered by at least as
    many records; an answer without error records that is shorter than the
    list of files makes it abort. *)
Theorem sync_checks_reply cl chg fake force files w r w' :
  sync cl chg fake force files w = (r, w') ->
  exists c,
    w_log w' = (w_log w ++ [c])%list
    /\ head (cmd_argv c) = Some "sync"
    /\ (r = Ok tt ->
        (files = [] \/ (length files <= length (loaditer (w_depot w (w_log w) c)))%nat)
        /\ Forall (fun d => d !! "code" = Some "error" ->
                     d !! "generic" = Some "17" \/ d !! "severity" = Some "2")
             (loaditer (w_depot w (w_log w) c)))
    /\ (files <> [] ->
        (length (loaditer (w_depot w (w_log w) c)) < length files)%nat ->
        Forall (fun d => d !! "code" <> Some "error") (loaditer (w_depot w (w_log w) c)) ->
        r = Raise (Abort "incomplete reply from p4, reduce maxargs")).
Proof.
  intros H. unfold sync in H. rewrite bind_unfold in H.
  unfold run_fold in H. rewrite bind_unfold in H. cbn [popen] in H.
  match type of H with
  | match run_records _ ?ds _ _ ?w0 with _ => _ end = _ =>
      destruct (run_records false ds _ O w0) as [r1 w1] eqn:Hrun;
      set (records := ds) in *
  end.
  apply sync_loop in Hrun as ((_ & Hlog & _) & Hok & Hall). cbn [w_log] in Hlog.
  eexists. split; [|split; [|split]].
  - destruct r1 as [n|e]; [|injection H as _ <-; exact Hlog].
    destruct files; [unfold ret in H; injection H as _ <-; exact Hlog|].
    destruct (n <? _)%nat; injection H as _ <-; exact Hlog.
  - reflexivity.
  - intros ->. destruct r1 as [n|e]; [|discriminate].
    destruct (Hok n eq_refl) as [-> Htol]. split; [|exact Htol].
    destruct files as [|f files]; [by left|]. right.
    destruct (0 + length records <? length (f :: files))%nat eqn:E; [discriminate|].
    apply Nat.ltb_ge in E. exact E.
  - intros Hne Hlt Herr. rewrite (Hall Herr) in H.
    destruct files as [|f files]; [done|].
    destruct (0 + length records <? length (f :: files))%nat eqn:E.
    + by injection H as <- _.
    + apply Nat.ltb_ge in E. change (length records < length (f :: files))%nat in Hlt.
      cbn [Nat.add] in E. lia.
Qed.

(** * The changeset committed for a changelist *)

Lemma take_bytes_app a b : take_bytes (String.length a) (a +:+ b) = a.
Proof. induction a as [|c a IH]; [by destruct b|]. rewrite append_cons. cbn. by rewrite IH. Qed.

Lemma drop_bytes_app a b : drop_bytes (String.length a) (a +:+ b) = b.
Proof. induction a as [|c a IH]; [by destruct b|]. by rewrite append_cons. Qed.

Section Committed.
Variable py_int : bytes -> option Z.

Lemma pull_changelist_inv cl c p4rev startrev w d w1 ctx w' :
  describe py_int cl (fmt_d c) false false w = (Ok d, w1) ->
  pull_changelist py_int cl c p4rev startrev w = (Ok ctx, w') ->
  exists d' files,
    ctx = {| mc_p1 := p4rev; mc_p2 := last (marker_nodes (c_repo cl) (d_desc d));
             mc_desc := d_desc d'; mc_files := files; mc_user := d_user d;
             mc_date := d_date d;
             mc_extra := match d_jobs d with
                         | [] => if startrev then ∅ else {[ "p4" := fmt_d c ]}
                         | _ :: _ => <["p4jobs" := join " " (d_jobs d)]>
                                       (if startrev then ∅ else {[ "p4" := fmt_d c ]})
                         end |}
    /\ match last (marker_nodes (c_repo cl) (d_desc d)), re_hgid_search (d_desc d) with
       | Some _, Some m =>
           if c_pull_trim_log cl
           then
             d_desc d'
             = (let desc := take_bytes (m_start m) (d_desc d)
                            +:+ drop_bytes (m_end m) (d_desc d) in
                if endswith (nl +:+ nl +:+ nl) desc
                then take_bytes (String.length desc - 2) desc
                else desc)
           else d' = d
       | _, _ => d' = d
       end.
Proof.
  intros Hd H. unfold pull_changelist in H.
  rewrite (bind_ok _ _ _ _ _ Hd) in H.
  apply bind_ok_inv in H as (files & w2 & _ & H).
  apply bind_ok_inv in H as ([] & w3 & _ & H).
  apply bind_ok_inv in H as (nm & w4 & Hnm & H).
  apply parsenodes_nodes in Hnm. injection Hnm as ->.
  apply bind_ok_inv in H as (pd & w5 & Hpd & H).
  cbn [fst snd] in Hpd.
  assert (Hparent : pd.1.1 = last (marker_nodes (c_repo cl) (d_desc d))
            /\ d_user pd.2 = d_user d /\ d_date pd.2 = d_date d /\ d_jobs pd.2 = d_jobs d
            /\ match last (marker_nodes (c_repo cl) (d_desc d)),
                     re_hgid_search (d_desc d) with
               | Some _, Some m =>
                   if c_pull_trim_log cl
                   then
                     d_desc pd.2
                     = (let desc := take_bytes (m_start m) (d_desc d)
                                    +:+ drop_bytes (m_end m) (d_desc d) in
                        if endswith (nl +:+ nl +:+ nl) desc
                        then take_bytes (String.length desc - 2) desc
                        else desc)
                   else pd.2 = d
               | _, _ => pd.2 = d
               end).
  { unfold marker_nodes in Hpd |- *.
    destruct (re_hgid_search (d_desc d)) as [m|] eqn:Em.
    - destruct (last (default [] (resolve_marker (c_repo cl) m))) as [parent|].
      + apply bind_ok_inv in Hpd as (pctx & w6 & _ & Hpd).
        apply bind_ok_inv in Hpd as (d' & w7 & Hd' & Hpd).
        unfold ret in Hpd. injection Hpd as <- _. cbn [fst snd].
        destruct (c_pull_trim_log cl).
        * apply bind_ok_inv in Hd' as (chg' & w8 & _ & Hd').
          unfold ret in Hd'. injection Hd' as <- _. by repeat split.
        * unfold ret in Hd'. injection Hd' as <- _. by repeat split.
      + unfold ret in Hpd. injection Hpd as <- _. by repeat split.
    - cbn [last] in Hpd |- *. unfold ret in Hpd. injection Hpd as <- _. by repeat split. }
  destruct pd as [[parent hgfiles] d']. cbn [fst snd] in Hparent.
  destruct Hparent as (-> & Huser & Hdate & Hjobs & Hdesc).
  apply bind_ok_inv in H as (entries & w6 & _ & H).
  unfold _common_commit, bind, commitctx, ret in H. injection H as <- _.
  exists d', (map fst entries ++ hgfiles)%list. rewrite Huser, Hdate, Hjobs.
  split; [by destruct (d_jobs d)|done].
Qed.

(** X24. The changeset committed for a changelist records the number of
    the changelist as its [p4] extra, unless it folds the initial history,
    and the jobs of the changelist, when there are some, as [p4jobs]; its
    user and date are those of the changelist. *)
Theorem pull_records_changelist cl c p4rev startrev w d w1 ctx w' :
  describe py_int cl (fmt_d c) false false w = (Ok d, w1) ->
  pull_changelist py_int cl c p4rev startrev w = (Ok ctx, w') ->
  mc_extra ctx !! "p4" = (if startrev then None else Some (fmt_d c))
  /\ mc_extra ctx !! "p4jobs" = match d_jobs d with
                                | [] => None
                                | _ :: _ => Some (join " " (d_jobs d))
                                end
  /\ mc_user ctx = d_user d /\ mc_date ctx = d_date d
  /\ (c_pull_trim_log cl = false -> mc_desc ctx = d_desc d).
Proof.
  intros Hd H. destruct (pull_changelist_inv _ _ _ _ _ _ _ _ _ Hd H) as (d' & files & -> & Hd').
  cbn [mc_extra mc_user mc_date mc_desc]. split; [|split; [|split; [|split]]]; try done.
  - destruct (d_jobs d), startrev; try done.
  - destruct (d_jobs d), startrev; try done.
  - intros Htrim. rewrite Htrim in Hd'.
    destruct (last _); [destruct (re_hgid_search _)|]; by subst d'.
Qed.

(** X25. With [pull_trim_log] the marker that a push wrote after a
    description is taken off again: a changelist described by a text, two
    newlines, the marker and a newline, whose marker resolves, is
    committed with the text followed by one newline. *)
Theorem pull_trims_pushed_marker cl c p4rev startrev w d w1 ctx w' body dsc anc :
  c_pull_trim_log cl = true ->
  describe py_int cl (fmt_d c) false false w = (Ok d, w1) ->
  d_desc d = body +:+ nl +:+ nl +:+ encode_marker dsc anc +:+ nl ->
  occurs "{{mercurial " body = false ->
  all_hexdigits dsc = true -> String.length dsc = 40%nat ->
  (forall x, anc = Some x -> all_hexdigits x = true /\ String.length x = 40%nat) ->
  marker_nodes (c_repo cl) (d_desc d) <> [] ->
  pull_changelist py_int cl c p4rev startrev w = (Ok ctx, w') ->
  mc_desc ctx = body +:+ nl.
Proof.
  intros Htrim Hd Hdesc Hbody Hdsc Hlen Hanc Hnodes H.
  destruct (pull_changelist_inv _ _ _ _ _ _ _ _ _ Hd H) as (d' & files & -> & Hd').
  cbn [mc_desc]. rewrite Htrim in Hd'.
  destruct (last (marker_nodes (c_repo cl) (d_desc d))) as [parent|] eqn:Elast;
    [|by apply last_None in Elast].
  assert (Hpre : occurs "{{mercurial " (body +:+ nl +:+ nl) = false).
  { replace (body +:+ nl +:+ nl)
      with (body +:+ String "010"%char (String "010"%char EmptyString)) by reflexivity.
    rewrite occurs_sep; [|done|].
    - rewrite Hbody. reflexivity.
    - cbn. intros Hin. repeat (destruct Hin as [Hin|Hin]; [discriminate|]). done. }
  assert (Hsearch := re_hgid_search_marker (body +:+ nl +:+ nl) dsc anc nl 0 Hpre Hdsc Hlen Hanc).
  unfold re_hgid_search in Hd'.
  replace (d_desc d)
    with ((body +:+ nl +:+ nl) +:+ encode_marker dsc anc +:+ nl) in Hd'
    by (by rewrite Hdesc, !append_assoc).
  rewrite Hsearch in Hd'. cbn [m_start m_end Nat.add] in Hd'.
  rewrite take_bytes_app in Hd'.
  rewrite <- app_length in Hd'.
  rewrite <- (append_assoc (body +:+ nl +:+ nl) (encode_marker dsc anc) nl) in Hd'.
  rewrite drop_bytes_app in Hd'.
  rewrite Hd'. clear.
  assert (Hlen3 : forall b, String.length (b +:+ nl +:+ nl +:+ nl) = (String.length b + 3)%nat).
  { intros b. rewrite !app_length. cbn. lia. }
  assert (Hends : endswith (nl +:+ nl +:+ nl) ((body +:+ nl +:+ nl) +:+ nl) = true).
  { unfold endswith. rewrite !append_assoc, Hlen3.
    replace (String.length (nl +:+ nl +:+ nl)) with 3%nat by reflexivity.
    replace (String.length body + 3 - 3)%nat with (String.length body) by lia.
    rewrite drop_bytes_app.
    apply andb_true_intro. split; [apply Nat.leb_le; lia|by apply bool_decide_eq_true_2]. }
  cbv zeta. rewrite Hends. rewrite !append_assoc, Hlen3.
  replace (String.length body + 3 - 2)%nat with (String.length (body +:+ nl))
    by (rewrite app_length; cbn; lia).
  by rewrite <- (append_assoc body nl), take_bytes_app.
Qed.
End Committed.

(** * What a push syncs to, and what the depot can do *)

Lemma last_submitted_snoc p4id pl e :
  last_submitted p4id (pl ++ [e])
  = if entry_submitted e then entry_change e else last_submitted p4id pl.
Proof. unfold last_submitted. by rewrite foldl_app. Qed.

Lemma ascending_snoc pl e :
  ascending (pl ++ [e]) -> ascending pl /\ Forall (fun x => entry_change x <= entry_change e) pl.
Proof.
  induction pl as [|a pl IH]; [done|]. cbn [app ascending]. intros [Ha Hpl].
  destruct (IH Hpl) as [Hasc Hle]. apply Forall_app in Ha as [Ha He].
  split; [by split|]. constructor; [|done]. by inversion He.
Qed.

(** X26. Before it opens files a push syncs to the highest submitted
    changelist of the pending list, and to its sync point when none of the
    list is submitted. *)
Theorem last_submitted_is_highest p4id pl :
  ascending pl ->
  (Forall (fun e => entry_submitted e = false) pl -> last_submitted p4id pl = p4id)
  /\ (forall e, e ∈ pl -> entry_submitted e = true ->
        entry_change e <= last_submitted p4id pl
        /\ exists x, x ∈ pl /\ entry_submitted x = true
                     /\ last_submitted p4id pl = entry_change x).
Proof.
  induction pl as [|a pl IH] using rev_ind; intros Hasc.
  - split; [done|]. intros e He. by apply elem_of_nil in He.
  - apply ascending_snoc in Hasc as [Hasc Hle]. destruct (IH Hasc) as [Hnone Hsome].
    rewrite last_submitted_snoc. split.
    + intros Hall. apply Forall_app in Hall as [Hall Ha].
      apply Forall_inv in Ha. rewrite Ha. by apply Hnone.
    + intros e He Hsub. apply elem_of_app in He as [He|He].
      * destruct (entry_submitted a) eqn:Ea.
        -- split; [rewrite Forall_forall in Hle; by apply Hle|].
           exists a. split; [set_solver|done].
        -- destruct (Hsome e He Hsub) as (Hle' & x & Hx & Hxs & Heq).
           split; [done|]. exists x. split; [set_solver|done].
      * apply list_elem_of_singleton in He as ->. rewrite Hsub. split; [lia|].
        exists a. split; [set_solver|done].
Qed.

Lemma has_op_reads op cfg : steps reads (has_op op cfg).
Proof.
  unfold has_op. destruct cfg; [leaf|]. step; [apply reads_ui_emit|].
  step.
  { unfold runone. step; [by apply reads_popen|]. step.
    - generalize (@None p4record). induction a0 as [|d ds IH]; intros v; cbn [runone_records].
      + leaf.
      + step; [apply reads_run_check|]. destruct v; [leaf|apply IH].
    - destruct a1; leaf. }
  step; [leaf|]. step; [apply reads_ui_emit|leaf].
Qed.

Lemma bind_assoc {A B C} (m : M A) (f : A -> M B) (g : B -> M C) w :
  bind (bind m f) g w = bind m (fun x => bind (f x) g) w.
Proof. unfold bind. by destruct (m w) as [[a|e] w1]. Qed.

Lemma reads_from_popen {A} c (k : list p4record -> M A) w r w' :
  (forall ds, steps reads (k ds)) ->
  bind (popen c) k w = (r, w') ->
  exists l, w_log w' = (w_log w ++ c :: l)%list.
Proof.
  intros Hk H. rewrite bind_unfold in H. cbn [popen] in H.
  apply Hk in H as (_ & (l & Hl & _) & _). cbn [w_log] in Hl.
  exists l. by rewrite Hl, <- app_assoc.
Qed.

Lemma reads_runone_records name abort ds : forall v,
  steps reads (runone_records name abort ds v).
Proof.
  induction ds as [|d ds IH]; intros v; cbn [runone_records]; [leaf|].
  step; [apply reads_run_check|]. destruct v; [leaf|apply IH].
Qed.

Lemma has_op_asks op (k : bool -> M (bool * bool)) w r w' :
  (forall v, steps reads (k v)) ->
  bind (has_op op None) k w = (r, w') ->
  exists l, w_log w' = (w_log w ++ p4 ["help"; op] :: l)%list.
Proof.
  intros Hk H. unfold has_op in H. rewrite bind_assoc in H.
  rewrite bind_unfold in H. unfold ui_note at 1, ui_emit at 1 in H.
  unfold runone in H. rewrite !bind_assoc in H.
  apply reads_from_popen in H; [exact H|].
  intros ds. step.
  { step; [apply reads_runone_records|]. destruct a; leaf. }
  step; [|apply Hk]. step; [leaf|]. step; [apply reads_ui_emit|leaf].
Qed.

(** X27. [hasmovecopy] answers from the configuration where it is set,
    without a word to the depot; what is not configured it asks the depot
    with [help], and it changes nothing. *)
Theorem hasmovecopy_asks_only cl w r w' :
  hasmovecopy cl w = (r, w') ->
  reads w w'
  /\ (forall m c, c_move cl = Some m -> c_copy cl = Some c -> r = Ok (m, c) /\ w' = w)
  /\ (c_move cl = None -> exists l, w_log w' = (w_log w ++ p4 ["help"; "move"] :: l)%list)
  /\ (forall m, c_move cl = Some m -> c_copy cl = None ->
        exists l, w_log w' = (w_log w ++ p4 ["help"; "copy"] :: l)%list).
Proof.
  intros H. split; [|split; [|split]].
  - revert H. unfold hasmovecopy. step; [apply has_op_reads|].
    step; [apply has_op_reads|leaf].
  - intros m c Hm Hc. unfold hasmovecopy in H. rewrite Hm, Hc in H.
    by injection H as <- <-.
  - intros Hm. unfold hasmovecopy in H. rewrite Hm in H.
    eapply has_op_asks, H. intros v. step; [apply has_op_reads|leaf].
  - intros m Hm Hc. unfold hasmovecopy in H. rewrite Hm, Hc in H.
    rewrite bind_unfold in H. cbn [has_op ret] in H.
    eapply has_op_asks, H. intros v. leaf.
Qed.

(** * Submitting a changelist *)

Lemma only_raises_bind {A B} P (m : M A) (k : A -> M B) :
  only_raises P m -> (forall a, only_raises P (k a)) -> only_raises P (bind m k).
Proof.
  intros Hm Hk w e w' H. unfold bind in H. destruct (m w) as [[a|e'] w1] eqn:E.
  - eapply Hk, H.
  - injection H as <- <-. eapply Hm, E.
Qed.

Lemma only_raises_ret {A} P (a : A) : only_raises P (ret a).
Proof. intros w e w' H. discriminate. Qed.

Lemma only_raises_raise {A} (P : exn -> Prop) e : P e -> only_raises P (@raise A e).
Proof. intros He w e' w' H. by injection H as <- _. Qed.

Lemma only_raises_ui_emit P ev : only_raises P (ui_emit ev).
Proof. intros w e w' H. discriminate. Qed.

Lemma only_raises_getitem d key : only_raises submit_error (getitem d key).
Proof.
  unfold getitem. destruct (d !! key); [apply only_raises_ret|by apply only_raises_raise].
Qed.

Lemma only_raises_run_check abort d : only_raises submit_error (run_check abort d).
Proof.
  unfold run_check. destruct (d !! "code"); [|apply only_raises_ret].
  destruct (d !! "data"); [|apply only_raises_ret].
  destruct (_ && _); [apply only_raises_raise; by eexists|].
  destruct (bool_decide _); [apply only_raises_ui_emit|apply only_raises_ret].
Qed.

Lemma only_raises_run_fold {S} c abort (body : S -> p4record -> M S) acc :
  (forall s d, only_raises submit_error (body s d)) ->
  only_raises submit_error (run_fold c abort body acc).
Proof.
  intros Hb. unfold run_fold. apply only_raises_bind; [by intros w e w' H|]. intros ds.
  revert acc. induction ds as [|d ds IH]; intros acc; cbn [run_records].
  - apply only_raises_ret.
  - apply only_raises_bind; [apply only_raises_run_check|]. intros _.
    apply only_raises_bind; [apply Hb|]. intros s. apply IH.
Qed.

Lemma only_raises_sync cl chg fake force : only_raises submit_error (sync cl chg fake force []).
Proof.
  unfold sync. apply only_raises_bind; [|intros n; apply only_raises_ret].
  apply only_raises_run_fold. intros n d.
  apply only_raises_bind; [|intros _; apply only_raises_ret].
  destruct (bool_decide _); [|apply only_raises_ret].
  apply only_raises_bind; [apply only_raises_getitem|]. intros data.
  apply only_raises_bind; [apply only_raises_getitem|]. intros generic.
  destruct (bool_decide _); [apply only_raises_ui_emit|].
  apply only_raises_bind; [apply only_raises_getitem|]. intros severity.
  destruct (bool_decide _); [apply only_raises_ui_emit|apply only_raises_raise; by eexists].
Qed.

Lemma submit_loop ds : forall (n : option bytes) w n' w',
  run_records true ds
    (fun (n : option bytes) d =>
       bind (getitem d "code") (fun code =>
       if bool_decide (code = "error") then raise (KeyError "data")
       else ret (match d !! "submittedChange" with
                 | Some v => Some v
                 | None => n
                 end))) n w = (Ok n', w') ->
  n' = n \/ exists d v, d ∈ ds /\ d !! "submittedChange" = Some v /\ n' = Some v.
Proof.
  induction ds as [|d ds IH]; intros n w n' w' H.
  - unfold run_records, ret in H. injection H as <- _. by left.
  - cbn [run_records] in H. apply bind_ok_inv in H as ([] & w1 & _ & H).
    apply bind_ok_inv in H as (n1 & w2 & Hb & H).
    apply bind_ok_inv in Hb as (code & w3 & _ & Hb).
    destruct (bool_decide _); [discriminate|]. unfold ret in Hb. injection Hb as <- _.
    apply IH in H as [->|(d' & v & Hd' & Hv & ->)].
    + destruct (d !! "submittedChange") as [v|] eqn:Ev; [|by left].
      right. exists d, v. split; [by left|done].
    + right. exists d', v. split; [by right|done].
Qed.

(** X28. A changelist counts as submitted when a record of the answer
    names the submitted change; the pending cache is then dropped.
    [submit] raises nothing but the abort of an error of the depot, a
    missing key or a [TypeError]: the abort with the message of its own,
    ["error submitting p4 change"], is never raised. *)
Theorem submit_drops_cache cl chg w r w' :
  submit cl chg w = (r, w') ->
  (r = Ok tt ->
   w_p4stat w' = None
   /\ exists d v, d ∈ loaditer (w_depot w (w_log w) (p4 ["submit"; "-c"; chg]))
                  /\ d !! "submittedChange" = Some v)
  /\ (forall e, r = Raise e -> submit_error e).
Proof.
  intros H. split.
  - intros ->. unfold submit in H.
    apply bind_ok_inv in H as (n & w1 & Hrun & H).
    apply bind_ok_inv in H as ([] & w2 & Hnote & H).
    apply bind_ok_inv in H as ([] & w3 & _ & H).
    unfold set_p4stat in H. injection H as <-. split; [done|].
    unfold run_fold in Hrun. rewrite bind_unfold in Hrun. cbn [popen] in Hrun.
    apply submit_loop in Hrun as [->|(d & v & Hd & Hv & _)]; [discriminate|].
    by exists d, v.
  - intros e ->. revert H. generalize w e w'. change (only_raises submit_error (submit cl chg)).
    unfold submit. apply only_raises_bind.
    { apply only_raises_run_fold. intros n d.
      apply only_raises_bind; [apply only_raises_getitem|]. intros code.
      destruct (bool_decide _); [by apply only_raises_raise|apply only_raises_ret]. }
    intros n. apply only_raises_bind.
    { destruct n; [apply only_raises_ui_emit|by apply only_raises_raise]. }
    intros _. apply only_raises_bind.
    { destruct (c_keep cl); [apply only_raises_ret|apply only_raises_sync]. }
    intros _. by intros w0 e0 w0' H.
Qed.

(** * Pushing what the depot already lists *)

Global Instance grows_preorder : PreOrder grows.
Proof.
  split.
  - intros w. by repeat split.
  - intros w1 w2 w3 (Hd1 & Hl1 & H1) (Hd2 & Hl2 & H2).
    split; [congruence|]. split; [congruence|]. intros Hs.
    destruct (H1 Hs) as [Hs2 Hsub1]. destruct (H2 Hs2) as [Hs3 Hsub2].
    split; [done|]. set_solver.
Qed.

Lemma same_but_ui_grows w w' : same_but_ui w w' -> grows w w'.
Proof.
  intros (Hd & Hl & Hs & _). split; [done|]. split; [done|].
  unfold p4stat_of. by rewrite Hs.
Qed.

Section Listed.
Variable py_int : bytes -> option Z.

Lemma grows_helper cl p4id d : steps grows (readp4stat_helper py_int cl p4id d).
Proof.
  unfold readp4stat_helper. step; [leaf|]. step; [apply steps_int, _|].
  destruct (_ =? p4id); [leaf|].
  step; [leaf|].
  step; [eapply steps_weaken; [apply same_but_ui_grows|apply parsenodes_same]|].
  step; [leaf|]. step; [leaf|].
  intros w r w' H. unfold p4pending_append in H. rewrite bind_unfold in H.
  unfold bind at 1, get_world, set_p4pending in H.
  rewrite (for_each_p4stat_add py_int) in H. injection H as _ <-. cbn.
  split; [done|]. split; [done|]. intros Hs.
  destruct a2.1 as [|n nodes]; [done|]. split; [by eexists|].
  unfold p4stat_of. cbn. set_solver.
Qed.

(** The helper enters the nodes of the record it is given. *)
Lemma helper_enters cl p4id d w w' x :
  readp4stat_helper py_int cl p4id d w = (Ok tt, w') ->
  records_node py_int cl p4id d x -> x ∈ p4stat_of w'.
Proof.
  intros H (c & cn & desc & Hc & Hcn & Hne & Hdesc & Hx).
  unfold readp4stat_helper in H.
  apply bind_ok_inv in H as (c' & w1 & Hc' & H).
  apply getitem_inv in Hc' as [Hc' ->].
  pose proof (eq_trans (eq_sym Hc') Hc) as Heq. injection Heq as ->.
  apply bind_ok_inv in H as (cn' & w1 & Hint & H).
  apply int_inv in Hint as [Hint ->]. assert (cn' = cn) as -> by congruence.
  destruct (Z.eqb_spec cn p4id) as [|_]; [done|].
  apply bind_ok_inv in H as (desc' & w1 & Hd & H).
  apply getitem_inv in Hd as [Hd ->].
  pose proof (eq_trans (eq_sym Hd) Hdesc) as Heq. injection Heq as ->.
  apply bind_ok_inv in H as (nm & w1 & Hnm & H).
  pose proof (parsenodes_nodes _ _ _ _ _ Hnm) as Hnodes. injection Hnodes as ->.
  apply bind_ok_inv in H as (status & w2 & Hst & H). apply getitem_inv in Hst as [_ ->].
  apply bind_ok_inv in H as (client & w2 & Hcl & H). apply getitem_inv in Hcl as [_ ->].
  unfold p4pending_append in H. rewrite bind_unfold in H.
  unfold bind at 1, get_world, set_p4pending in H.
  rewrite (for_each_p4stat_add py_int) in H. injection H as <-.
  destruct (marker_nodes (c_repo cl) desc) as [|n nodes] eqn:E;
    [by apply elem_of_nil in Hx|].
  change (x ∈ list_to_set (n :: nodes) ∪ p4stat_of w1). set_solver.
Qed.

Lemma run_records_enters cl p4id ds : forall u w u' w',
  run_records true ds (fun (_ : unit) d => readp4stat_helper py_int cl p4id d) u w
  = (Ok u', w') ->
  is_Some (w_p4stat w) ->
  grows w w'
  /\ forall d x, d ∈ ds -> records_node py_int cl p4id d x -> x ∈ p4stat_of w'.
Proof.
  induction ds as [|d ds IH]; intros u w u' w' H Hs.
  - cbn in H. unfold ret in H. injection H as _ <-. split; [done|].
    intros d x Hd. by apply elem_of_nil in Hd.
  - cbn [run_records] in H.
    apply bind_ok_inv in H as ([] & w1 & Hc & H).
    apply run_check_same, same_but_ui_grows in Hc.
    apply bind_ok_inv in H as ([] & w2 & Hh & H).
    pose proof (grows_helper _ _ _ _ _ _ Hh) as Hg.
    destruct Hc as (Hd1 & Hl1 & Hs1). destruct (Hs1 Hs) as [Hs1' Hsub1].
    destruct Hg as (Hd2 & Hl2 & Hs2). destruct (Hs2 Hs1') as [Hs2' Hsub2].
    destruct (IH _ _ _ _ H Hs2') as [(Hd3 & Hl3 & Hs3) Hin].
    destruct (Hs3 Hs2') as [Hs3' Hsub3].
    split.
    + split; [congruence|]. split; [congruence|]. intros _. split; [done|]. set_solver.
    + intros d' x Hd' Hrec. apply elem_of_cons in Hd' as [->|Hd']; [|by eapply Hin].
      apply Hsub3. by eapply helper_enters.
Qed.

Lemma run_enters c cl p4id w w' :
  run c true (readp4stat_helper py_int cl p4id) w = (Ok tt, w') ->
  is_Some (w_p4stat w) ->
  w_depot w' = w_depot w /\ w_log w' = (w_log w ++ [c])%list
  /\ is_Some (w_p4stat w') /\ p4stat_of w ⊆ p4stat_of w'
  /\ forall d x, d ∈ loaditer (w_depot w (w_log w) c) ->
       records_node py_int cl p4id d x -> x ∈ p4stat_of w'.
Proof.
  unfold run, run_fold. rewrite bind_unfold. cbn [popen]. intros H Hs.
  apply run_records_enters in H as [(Hd & Hl & Hg) Hin]; [|done].
  destruct (Hg Hs) as [Hs' Hsub]. done.
Qed.

(** Every node that a record listed by the depot resolves to is in the
    membership set once the cache is read. *)
Lemma readp4stat_listed cl w w' r wf d x :
  _readp4stat py_int cl w = (Ok tt, w') ->
  find py_int cl None false None false w = (Ok r, wf) ->
  d ∈ listed cl w r.2 -> records_node py_int cl r.2 d x -> x ∈ p4stat_of w'.
Proof.
  rewrite readp4stat_unfold. unfold read_changes. intros H Hfind Hd Hrec.
  apply bind_ok_inv in H as (r' & w1 & Hfind' & H).
  assert (r' = r) as ->.
  { pose proof (find_result_world py_int cl None false None false w
                  {| w_depot := w_depot w; w_log := w_log w; w_ui := w_ui w;
                     w_p4stat := Some ∅; w_p4pending := []; w_commits := w_commits w |})
      as Heq.
    rewrite Hfind, Hfind' in Heq. by injection Heq. }
  apply find_same in Hfind' as (Hd1 & Hl1 & Hs1 & _). cbn in Hd1, Hl1, Hs1.
  apply bind_ok_inv in H as ([] & w2 & Hrun1 & H).
  apply run_enters in Hrun1 as (Hd2 & Hl2 & Hs2 & Hsub2 & Hin2); [|by rewrite Hs1].
  apply bind_ok_inv in H as ([] & w3 & Hrun2 & H).
  apply run_enters in Hrun2 as (Hd3 & Hl3 & Hs3 & Hsub3 & Hin3); [|done].
  unfold bind, get_world, set_p4pending in H. injection H as <-.
  unfold p4stat_of at 1. cbn [w_p4stat]. fold (p4stat_of w3).
  unfold listed in Hd. apply elem_of_app in Hd as [Hd|Hd].
  - apply Hsub3. eapply Hin2; [|done]. by rewrite Hd1, Hl1.
  - eapply Hin3; [|done]. by rewrite Hd2, Hl2, Hd1, Hl1.
Qed.

(** The first node the trimming looks at makes it read the cache, and
    nothing else changes the world afterwards. *)
Lemma trim_pushed_reads cl nodes w tr w' :
  trim_pushed py_int cl nodes w = (Ok tr, w') ->
  w_p4stat w = None -> nodes <> [] ->
  _readp4stat py_int cl w = (Ok tt, w').
Proof.
  unfold trim_pushed. intros H Hnone Hne. destruct tr as [kept trim].
  apply bind_ok_inv in H as ([l t] & w1 & H1 & H2). cbn [fst snd] in H2.
  destruct nodes as [|x nodes]; [done|]. cbn [length trim_end end_item head] in H1.
  apply bind_ok_inv in H1 as (n & wa & Hl & H1). apply repo_getitem_inv in Hl as [_ ->].
  apply bind_ok_inv in H1 as (b & wb & Hg & H1).
  assert (Hread : _readp4stat py_int cl w = (Ok tt, wb)).
  { unfold getpending in Hg. apply bind_ok_inv in Hg as ([] & wc & He & Hg).
    unfold bind, get_world, ret in Hg. injection Hg as _ <-.
    unfold ensure_p4stat, bind, get_world in He. by rewrite Hnone in He. }
  pose proof (readp4stat_populates _ _ _ _ _ Hread) as Hs.
  assert (w1 = wb) as ->.
  { destruct b.
    - eapply trim_end_spec in H1 as (_ & _ & Hsame); [by apply Hsame|].
      cbn. by rewrite drop_0.
    - unfold ret in H1. by injection H1. }
  eapply trim_end_spec in H2 as (_ & _ & Hsame); [|done].
  by rewrite (Hsame Hs).
Qed.

Lemma push_range_same cl opts : steps same_but_ui (push_range py_int cl opts).
Proof.
  unfold push_range. step; [apply find_same|]. step; [|leaf].
  destruct (o_rev opts); [step; [leaf|]; step; leaf|].
  destruct (revpair _ _) as [[c1 c2]|]; [|leaf]. step; leaf.
Qed.

Lemma change_unreads cl chg description update jobs w n w' :
  change cl chg description update jobs w = (Ok n, w') -> w_p4stat w' = None.
Proof.
  unfold change. intros H.
  apply bind_ok_inv in H as (changelist & w1 & _ & H).
  apply bind_ok_inv in H as (d & w2 & _ & H).
  apply bind_ok_inv in H as (data & w3 & _ & H).
  apply bind_ok_inv in H as (code & w4 & _ & H).
  apply bind_ok_inv in H as (chg' & w5 & _ & H).
  destruct chg' as [|c0 chg']; [discriminate|].
  unfold bind, set_p4stat, ret in H. by injection H as _ <-.
Qed.

(** A push that created a changelist leaves the cache unread. *)
Lemma push_unreads cl opts w ps w' :
  push py_int cl opts w = (Ok (Some ps), w') -> w_p4stat w' = None.
Proof.
  unfold push. intros H.
  apply bind_ok_inv in H as ([] & w1 & _ & H).
  apply bind_ok_inv in H as ([plan|] & w2 & _ & H); [|discriminate].
  apply bind_ok_inv in H as (mc & w3 & _ & H).
  apply bind_ok_inv in H as (pending & w4 & _ & H).
  apply bind_ok_inv in H as ([] & w5 & _ & H).
  apply bind_ok_inv in H as (use & w6 & _ & H).
  apply bind_ok_inv in H as ([] & w7 & _ & H).
  apply bind_ok_inv in H as ([] & w8 & _ & H).
  apply bind_ok_inv in H as (use' & w9 & Hchange & H).
  unfold ret in H. injection H as _ <-. by eapply change_unreads.
Qed.

(** C2. A push without force trims the changesets recorded as
    pending or submitted off both ends of its range: the range is
    [front ++ kept ++ back] with every changeset of [front] and [back]
    pending and neither end of [kept] pending.  When nothing is kept the
    push reports "no changes found" and returns having only asked the depot
    questions, so without creating or reusing a changelist; this is the case
    whenever every changeset of the range is recorded as pending.  It is so
    in a push that starts with the cache unread when for every changeset of
    the range the depot lists a changelist, other than the one synced to,
    whose marker resolves to nodes with that changeset among them; and a
    push that created a changelist leaves the cache unread for the next.
    A forced push does not trim: it goes on with the whole range, which is
    what its plan holds. *)
Theorem push_trims_pushed_ends cl opts w rg w0 :
  push_range py_int cl opts (push_announce cl opts w).2 = (Ok rg, w0) ->
  (o_force opts = false ->
   forall tr w1,
     trim_pushed py_int cl rg.2 w0 = (Ok tr, w1) ->
     (exists front back,
        rg.2 = (front ++ tr.1 ++ back)%list
        /\ Forall (pending_at cl w1) front /\ Forall (pending_at cl w1) back)
     /\ (forall x, head tr.1 = Some x \/ last tr.1 = Some x -> not_pending_at cl w1 x)
     /\ (tr.1 = [] ->
         exists w', push py_int cl opts w = (Ok None, w')
                    /\ w_ui w' = (w_ui w1 ++ [no_changes_found])%list
                    /\ quiet w w')
     /\ (Forall (pending_at cl w1) rg.2 -> tr.1 = [])
     /\ (w_p4stat w = None ->
         forall r wf,
           find py_int cl None false None false w = (Ok r, wf) ->
           Forall (fun x => exists n d,
                      repo_lookup (c_repo cl) x = Some n
                      /\ d ∈ listed cl w r.2
                      /\ records_node py_int cl r.2 d (ctx_node (c_repo cl) n)) rg.2 ->
           exists w', push py_int cl opts w = (Ok None, w')
                      /\ last (w_ui w') = Some no_changes_found
                      /\ quiet w w'))
  /\ (o_force opts = true ->
      push_revisions py_int cl opts (push_announce cl opts w).2 = (Ok rg, w0)
      /\ forall plan w',
           _pushcommon py_int cl opts (push_announce cl opts w).2 = (Ok (Some plan), w') ->
           pp_nodes plan = rg.2)
  /\ (forall ps w', push py_int cl opts w = (Ok (Some ps), w') -> w_p4stat w' = None).
Proof.
  intros Hrange. split; [|split; [|by intros ps w'; apply push_unreads]].
  - intros Hforce tr w1 Htrim.
    destruct rg as [[[[p4rev p4id] ctx1] ctx2] nodes]. destruct tr as [kept trim].
    cbn [fst snd] in *.
    destruct (trim_pushed_spec py_int _ _ _ _ _ _ Htrim) as [(front & back & Hsplit & Hf & Hb) Hends].
    destruct (push_announce_ok cl opts w) as [Hann Hui].
    set (wa := (push_announce cl opts w).2) in *.
    assert (Hnone : kept = [] ->
              exists w', push py_int cl opts w = (Ok None, w')
                         /\ w_ui w' = (w_ui w1 ++ [no_changes_found])%list
                         /\ quiet w w').
    { intros ->.
      assert (Hc : _pushcommon py_int cl opts wa
                   = (Ok None, (ui_status ("no changes found" +:+ nl) w1).2)).
      { unfold _pushcommon, push_revisions.
        rewrite (bind_unfold (bind _ _)), (bind_ok _ _ _ _ _ Hrange). rewrite Hforce.
        unfold trim_and_check. rewrite (bind_unfold (bind _ _)), (bind_ok _ _ _ _ _ Htrim).
        simpl. by destruct trim. }
      eexists. split; [|split].
      + unfold push. rewrite (bind_ok _ _ _ _ _ Hann). fold wa.
        by rewrite (bind_ok _ _ _ _ _ Hc).
      + done.
      + etrans; [apply same_but_ui_quiet, Hui|]. eapply quiet_pushcommon, Hc. }
    assert (Hall : Forall (pending_at cl w1) nodes -> kept = []).
    { intros Hall. destruct kept as [|x kept]; [done|]. exfalso.
      destruct (Hends x) as (n & Hn & Hnot); [by left|].
      rewrite Hsplit in Hall. apply Forall_app in Hall as [_ Hall].
      apply Forall_app in Hall as [Hall _].
      apply Forall_cons in Hall as [(n' & Hn' & Hin) _]. congruence. }
    split; [by exists front, back|]. split; [done|]. split; [done|]. split; [done|].
    intros Hunread r wf Hfind Hlisted.
    assert (Hkept : kept = []).
    { destruct (decide (nodes = [])) as [Hnil|Hne].
      { rewrite Hnil in Hsplit. by destruct front, kept. }
      apply Hall.
      pose proof (push_range_same _ _ _ _ _ Hrange) as Hsame.
      assert (Hw0 : same_but_ui w w0) by (by etrans).
      destruct Hw0 as (Hd0 & Hl0 & Hs0 & _).
      pose proof (trim_pushed_reads _ _ _ _ _ Htrim) as Hread.
      rewrite Hs0 in Hread. specialize (Hread Hunread Hne).
      assert (Hfind0 : find py_int cl None false None false w0
                       = (Ok r, (find py_int cl None false None false w0).2)).
      { apply run_eq.
        by rewrite (find_result_world py_int cl None false None false w0 w), Hfind. }
      eapply Forall_impl; [exact Hlisted|]. intros x (n & d & Hn & Hd & Hrec).
      exists n. split; [done|].
      eapply (readp4stat_listed _ _ _ _ _ d); [exact Hread|exact Hfind0| |exact Hrec].
      unfold listed in *. by rewrite Hd0, Hl0. }
    destruct (Hnone Hkept) as (w' & Hpush & Hw' & Hq).
    exists w'. split; [done|]. split; [|done]. rewrite Hw'. apply last_snoc.
  - intros Hforce.
    assert (Hrev : push_revisions py_int cl opts (push_announce cl opts w).2 = (Ok rg, w0)).
    { unfold push_revisions. rewrite (bind_ok _ _ _ _ _ Hrange).
      destruct rg as [[[[p4rev p4id] ctx1] ctx2] nodes]. by rewrite Hforce. }
    split; [done|]. intros plan w' Hplan.
    unfold _pushcommon in Hplan. rewrite (bind_ok _ _ _ _ _ Hrev) in Hplan.
    destruct rg as [[[[p4rev p4id] ctx1] ctx2] nodes]. cbn [fst snd].
    destruct nodes as [|x nodes]; [discriminate|].
    destruct (changed_files (c_repo cl) ctx1 ctx2) as [[[mod_ add_] rem_] cpy].
    destruct (mod_ ++ add_ ++ rem_)%list; [discriminate|].
    apply bind_ok_inv in Hplan as ([] & w2 & _ & Hplan).
    apply bind_ok_inv in Hplan as (desc & w3 & _ & Hplan).
    unfold ret in Hplan. by injection Hplan as <- _.
Qed.
End Listed.

(** * The properties on the example repository *)

Import Example.
Import Samples.

(** Revision 2 of the range [1..3] is in the pending changelist 101: the
    push raises, and has only asked the depot questions. *)
Lemma push_aborts_on_pushed_changeset_witness :
  exists e w', push decimal (client changed) (opts false) pushed_once = (Raise e, w')
               /\ quiet pushed_once w'.
Proof.
  edestruct (push_aborts_on_pushed_changeset decimal (client changed) (opts false) pushed_once)
    as (e & w' & H & Hq & _).
  - reflexivity.
  - apply run_eq. vm_compute. reflexivity.
  - apply run_eq. vm_compute. reflexivity.
  - exists (node_of 2), 2. split; [|split; [reflexivity|left]].
    + apply (bool_decide_unpack _). vm_compute. exact I.
    + apply (bool_decide_unpack _). vm_compute. exact I.
  - exists e, w'. split; assumption.
Defined.

(** A first push of the range [1..3] creates changelist 102, which the
    depot then lists as pending with the marker of the range; the marker
    resolves to the three changesets, and a second push right after the
    first trims the whole range and reports that no changes were found. *)
Lemma push_trims_pushed_ends_witness :
  (exists ps, (push decimal (client changed) (opts false) fresh).1 = Ok (Some ps)
              /\ ps_change ps = "102")
  /\ exists w', push decimal (client changed) (opts false) pushed_linear = (Ok None, w')
                /\ last (w_ui w') = Some no_changes_found
                /\ quiet pushed_linear w'.
Proof.
  split; [eexists; split; vm_compute; reflexivity|].
  assert (Hunread : w_p4stat pushed_linear = None).
  { edestruct (push_trims_pushed_ends decimal (client changed) (opts false) fresh)
      as (_ & _ & Hfirst).
    - apply run_eq. vm_compute. reflexivity.
    - eapply Hfirst. unfold pushed_linear. apply run_eq. vm_compute. reflexivity. }
  edestruct (push_trims_pushed_ends decimal (client changed) (opts false) pushed_linear)
    as (Hunforced & _ & _).
  - apply run_eq. vm_compute. reflexivity.
  - edestruct (Hunforced eq_refl) as (_ & _ & _ & _ & Hlisted).
    + apply run_eq. vm_compute. reflexivity.
    + apply (Hlisted Hunread (node_of 0, 100)
               (find decimal (client changed) None false None false pushed_linear).2).
      * apply run_eq. vm_compute. reflexivity.
      * assert (Hl : listed (client changed) pushed_linear 100
                     = [changelist "102"
                          ("change 1" +:+ nl +:+ "* * *" +:+ nl +:+ "change 2" +:+ nl
                           +:+ "* * *" +:+ nl +:+ "change 3" +:+ nl +:+ nl
                           +:+ marker 1 3 +:+ nl)])
          by (vm_compute; reflexivity).
        cbn [fst snd]. rewrite Hl.
        repeat constructor.
        -- exists 1. eexists. split; [vm_compute; reflexivity|]. split; [by left|].
           eexists "102", 102, _. split; [vm_compute; reflexivity|].
           split; [vm_compute; reflexivity|]. split; [discriminate|].
           split; [vm_compute; reflexivity|].
           apply (bool_decide_unpack _). vm_compute. exact I.
        -- exists 2. eexists. split; [vm_compute; reflexivity|]. split; [by left|].
           eexists "102", 102, _. split; [vm_compute; reflexivity|].
           split; [vm_compute; reflexivity|]. split; [discriminate|].
           split; [vm_compute; reflexivity|].
           apply (bool_decide_unpack _). vm_compute. exact I.
        -- exists 3. eexists. split; [vm_compute; reflexivity|]. split; [by left|].
           eexists "102", 102, _. split; [vm_compute; reflexivity|].
           split; [vm_compute; reflexivity|]. split; [discriminate|].
           split; [vm_compute; reflexivity|].
           apply (bool_decide_unpack _). vm_compute. exact I.
Defined.

(** In the history where [3] merges [1] and [2], a first push of the
    range [1..3] writes the marker of [1] and [3], which resolves to the
    nodes between the two: [1] and [3].  Changeset [2] is not recorded, and
    a second push right after the first keeps it, creates changelist 103
    for it and never reports that no changes were found. *)
Lemma second_push_of_a_merge_pushes_again :
  (exists plan,
     (_pushcommon decimal merging (opts false)
        (push_announce merging (opts false) fresh).2).1 = Ok (Some plan)
     /\ pp_nodes plan = map node_of [1; 2; 3]
     /\ marker_nodes merged (pp_desc plan) = map node_of [1; 3])
  /\ (exists ps, (push decimal merging (opts false) fresh).1 = Ok (Some ps)
                 /\ ps_change ps = "102")
  /\ (exists plan,
        (_pushcommon decimal merging (opts false)
           (push_announce merging (opts false) pushed_merged).2).1 = Ok (Some plan)
        /\ pp_nodes plan = [node_of 2])
  /\ (exists ps, (push decimal merging (opts false) pushed_merged).1 = Ok (Some ps)
                 /\ ps_change ps = "103")
  /\ (no_changes_found ∉ w_ui (push decimal merging (opts false) pushed_merged).2).
Proof.
  split; [|split; [|split; [|split]]].
  - eexists. split; [vm_compute; reflexivity|]. split; vm_compute; reflexivity.
  - eexists. split; vm_compute; reflexivity.
  - eexists. split; vm_compute; reflexivity.
  - eexists. split; vm_compute; reflexivity.
  - apply (bool_decide_unpack _). vm_compute. exact I.
Qed.

(** With force the same push keeps the three changesets, each recorded as
    pending, in its plan and creates changelist 102 for them. *)
Lemma forced_push_keeps_pushed_changesets :
  (forall r, r ∈ [1; 2; 3] -> (getpending decimal (client changed) r pushed_all).1 = Ok true)
  /\ (exists plan,
        (_pushcommon decimal (client changed) (opts true)
           (push_announce (client changed) (opts true) pushed_all).2).1 = Ok (Some plan)
        /\ pp_nodes plan = map node_of [1; 2; 3])
  /\ (exists ps, (push decimal (client changed) (opts true) pushed_all).1 = Ok (Some ps)
        /\ ps_change ps = "102")
  /\ (no_changes_found ∉ w_ui (push decimal (client changed) (opts true) pushed_all).2)
  /\ cmd_argv <$> last (w_log (push decimal (client changed) (opts true) pushed_all).2)
     = Some ["change"; "-i"].
Proof.
  split; [|split; [|split; [|split]]].
  - intros r Hr. repeat (apply elem_of_cons in Hr as [->|Hr]); try (vm_compute; reflexivity).
    by apply elem_of_nil in Hr.
  - eexists. split; [vm_compute; reflexivity|]. vm_compute. reflexivity.
  - eexists. split; [vm_compute; reflexivity|]. reflexivity.
  - apply (bool_decide_unpack _). vm_compute. exact I.
  - vm_compute. reflexivity.
Qed.

(** The pending list read from the depot holds changelist 101, and
    [getpending] answers from the same cache. *)
Lemma pending_membership_consistent_witness :
  exists pl w',
    getpendinglist decimal (client changed) pushed_all = (Ok pl, w')
    /\ getpendinglist decimal (client changed) w' = (Ok pl, w')
    /\ forall n : rev,
         exists b, getpending decimal (client changed) n w' = (Ok b, w')
           /\ (b = true <-> exists e, e ∈ pl /\ node_of n ∈ entry_nodes e).
Proof.
  eexists _, _. split; [apply run_eq; vm_compute; reflexivity|].
  apply (pending_membership_consistent decimal (client changed) pushed_all).
  - reflexivity.
  - apply run_eq. vm_compute. reflexivity.
Defined.

(** The file of the record [imported] is entered with the action of the
    verb [import]. *)
Lemma action_is_function_of_verb_witness :
  exists f, (describe_files decimal 2 imported 0 (world0 [])).1 = Ok [f]
            /\ actions !! "import" = Some (f_action f).
Proof.
  pose proof (fun fs w' => action_is_function_of_verb decimal 2 imported 0 (world0 []) fs w' 0%nat)
    as Hentry.
  edestruct Hentry as (verb & Hverb & Hact & _).
  - apply run_eq. vm_compute. reflexivity.
  - reflexivity.
  - eexists. split; [vm_compute; reflexivity|].
    vm_compute in Hverb. injection Hverb as <-. exact Hact.
Defined.

(** A file the depot reports as imported is entered as added, not as
    modified. *)
Lemma import_is_classified_as_add :
  actions !! "import" = Some "A"
  /\ (describe_files decimal 2 imported 0 (world0 [])).1
     = Ok [{| f_depot := "//depot/a.txt"; f_rev := 3; f_type := "text"; f_action := "A";
              f_local := None |}]
  /\ (exists d, (describe decimal (client changed) "101" false false pushed_all).1 = Ok d
        /\ map f_action (d_files d) = ["A"]).
Proof.
  split; [|split]; try (vm_compute; reflexivity).
  eexists. split; vm_compute; reflexivity.
Qed.

(** A marker whose ends are not in the repository: no nodes, and the note
    that the range is ignored. *)
Lemma parsenodes_never_raises_witness :
  exists w' m,
    parsenodes (client changed) ("fix {{mercurial " +:+ hex "eeeeeeeeeeeeeeeeeeee" +:+ "}}")
      (world0 [])
    = (Ok ([], Some m), w')
    /\ w_ui w' = [ignoring_note m].
Proof.
  destruct (parsenodes_never_raises (client changed)
              ("fix {{mercurial " +:+ hex "eeeeeeeeeeeeeeeeeeee" +:+ "}}") (world0 []))
    as (nodes & w' & Hrun & _ & _ & _ & Hnone & _).
  destruct (re_hgid_search ("fix {{mercurial " +:+ hex "eeeeeeeeeeeeeeeeeeee" +:+ "}}"))
    as [m|] eqn:Em; [|vm_compute in Em; discriminate].
  destruct (Hnone m eq_refl) as [-> Hui].
  { left. vm_compute in Em. injection Em as <-. vm_compute. reflexivity. }
  exists w', m. split; [exact Hrun|exact Hui].
Defined.

(** Changelist 101 carries the marker of the range [1..3]: it is committed
    on the sync point with revision 3 as second parent. *)
Lemma pull_second_parent_witness :
  exists ctx, (pull_changelist decimal (client changed) 101 (Some (node_of 0)) false
                 pushed_all).1 = Ok ctx
              /\ mc_p1 ctx = Some (node_of 0) /\ mc_p2 ctx = Some (node_of 3).
Proof.
  eexists. split; [vm_compute; reflexivity|].
  edestruct (pull_second_parent decimal (client changed) 101 (Some (node_of 0)) false pushed_all)
    as (Hp1 & Hp2 & _).
  - apply run_eq. vm_compute. reflexivity.
  - apply run_eq. vm_compute. reflexivity.
  - split; [exact Hp1|]. rewrite Hp2. vm_compute. reflexivity.
Defined.

(** A push of the range [1..3] to a depot without pending changelists
    writes the three descriptions and the marker of the range. *)
Lemma push_writes_marked_description_witness :
  exists ps plan,
    (push decimal (client changed) (opts false) (world0 [])).1 = Ok (Some ps)
    /\ (_pushcommon decimal (client changed) (opts false)
          (push_announce (client changed) (opts false) (world0 [])).2).1 = Ok (Some plan)
    /\ pp_desc plan
       = "change 1" +:+ nl +:+ "* * *" +:+ nl +:+ "change 2" +:+ nl +:+ "* * *" +:+ nl
         +:+ "change 3" +:+ nl +:+ nl +:+ marker 1 3 +:+ nl.
Proof.
  edestruct (push_writes_marked_description decimal (client changed) (opts false) (world0 []))
    as (plan & ctxs & first & last_ & [w1 Hplan] & _).
  - apply run_eq. vm_compute. reflexivity.
  - eexists _, plan. split; [vm_compute; reflexivity|]. split; [by rewrite Hplan|].
    apply (f_equal fst) in Hplan. vm_compute in Hplan. injection Hplan as <-.
    vm_compute. reflexivity.
Defined.

(** The walk from the merge [3] goes through [3], then [1] and [2], then
    their shared parent [0] once. *)
Lemma find_visits_each_changeset_once_witness :
  find_walk decimal diamond false None 3 = (Exhausted, [[3]; [1; 2]; [0]])
  /\ NoDup (concat (find_walk decimal diamond false None 3).2).
Proof.
  split; [vm_compute; reflexivity|].
  apply (find_visits_each_changeset_once decimal diamond false None 3).
  intros r p Hp Hn. cbn [diamond ctx_parents] in Hp.
  destruct (Z.eqb_spec r 3) as [->|_]; [set_solver by lia|].
  destruct (Z.eqb_spec r 1) as [->|_]; [set_solver by lia|].
  destruct (Z.eqb_spec r 2) as [->|_]; [set_solver by lia|].
  apply list_elem_of_singleton in Hp. contradiction.
Defined.

(** [b.txt] is added as a copy of [a.txt], which is removed: a move, and
    [a.txt] is not deleted on its own. *)
Lemma copied_add_is_classified_witness :
  ("a.txt", "b.txt", EmptyString)
    ∈ g_moves (sort_copies true true two_copies [] [("b.txt", EmptyString)]
                 [("a.txt", EmptyString)])
  /\ g_rem (sort_copies true true two_copies [] [("b.txt", EmptyString)]
              [("a.txt", EmptyString)]) = [].
Proof.
  destruct (copied_add_is_classified true true two_copies [("a.txt", EmptyString)] []
              [("b.txt", EmptyString)] "b.txt" EmptyString "a.txt" false)
    as (_ & _ & Hmove & _).
  - apply (bool_decide_unpack _). vm_compute. exact I.
  - vm_compute. reflexivity.
  - split; [|vm_compute; reflexivity]. apply Hmove.
    + reflexivity.
    + apply (bool_decide_unpack _). vm_compute. exact I.
    + exists [], []. split; [reflexivity|]. intros f' g' chg' Hin. by apply elem_of_nil in Hin.
Defined.

(** [b.txt] and [c.txt] are both added as copies of [a.txt], which is
    removed, and the depot supports moves: [b.txt] is a move, [c.txt] a
    copy. *)
Lemma second_copy_of_removed_source_is_not_a_move :
  two_copies !! "c.txt" = Some ("a.txt", false)
  /\ g_moves (sort_copies true true two_copies []
                [("b.txt", EmptyString); ("c.txt", EmptyString)] [("a.txt", EmptyString)])
     = [("a.txt", "b.txt", EmptyString)]
  /\ g_copies (sort_copies true true two_copies []
                 [("b.txt", EmptyString); ("c.txt", EmptyString)] [("a.txt", EmptyString)])
     = [("a.txt", "c.txt")]
  /\ g_ntg (sort_copies true false two_copies []
                 [("b.txt", EmptyString); ("c.txt", EmptyString)] [("a.txt", EmptyString)])
     = [("a.txt", "c.txt")].
Proof. repeat split; vm_compute; reflexivity. Qed.

(** A push whose changed files are [.hgtags] and [.hgignore] finds no
    changes. *)
Lemma dothg_files_are_left_out_witness :
  exists w', push decimal (client metadata_only) (opts false) (world0 []) = (Ok None, w')
             /\ last (w_ui w') = Some no_changes_found.
Proof.
  edestruct (dothg_files_are_left_out decimal (client metadata_only) (opts false) (world0 []))
    as (_ & _ & Hnone).
  - apply run_eq. vm_compute. reflexivity.
  - apply Hnone. apply (bool_decide_unpack _). vm_compute. exact I.
Defined.

(** * The properties of the rest of the client on the examples *)


Lemma linear_precedes status : parents_precede (repo status).
Proof.
  intros r p Hp Hn. cbn [repo ctx_parents] in Hp.
  destruct (Z.ltb_spec 0 r) as [Hr|Hr]; apply list_elem_of_singleton in Hp; subst p;
    [lia|contradiction].
Qed.

Lemma diamond_precedes : parents_precede diamond.
Proof.
  intros r p Hp Hn. cbn [diamond ctx_parents] in Hp.
  destruct (Z.eqb_spec r 3) as [->|_]; [set_solver by lia|].
  destruct (Z.eqb_spec r 1) as [->|_]; [set_solver by lia|].
  destruct (Z.eqb_spec r 2) as [->|_]; [set_solver by lia|].
  apply list_elem_of_singleton in Hp. contradiction.
Qed.

(** The description of a push of the range [1..3] carries the marker of
    the range, which [parsenodes] resolves to the three changesets. *)
Lemma pushed_marker_is_read_back_witness :
  exists desc m,
    (push_description (repo changed) (map node_of [1; 2; 3]) (world0 [])).1 = Ok desc
    /\ re_hgid_search desc = Some m
    /\ group1 m = hex (node_of 1) +:+ ":" +:+ hex (node_of 3)
    /\ (parsenodes (client changed) desc (world0 [])).1
       = Ok (map node_of [1; 2; 3], Some m).
Proof.
  edestruct (pushed_marker_is_read_back (client changed) (map node_of [1; 2; 3]) (world0 []))
    as (first & last_ & m & Hf & Hl & Hs & Hg & Hp).
  - apply run_eq. vm_compute. reflexivity.
  - intros x c Hx Hc.
    repeat (apply elem_of_cons in Hx as [->|Hx]); try (by apply elem_of_nil in Hx);
      vm_compute in Hc; injection Hc as <-; repeat split; vm_compute; reflexivity.
  - vm_compute in Hf. injection Hf as <-. vm_compute in Hl. injection Hl as <-.
    eexists _, m. split; [vm_compute; reflexivity|]. split; [exact Hs|].
    split; [exact Hg|]. rewrite Hp. reflexivity.
Defined.

(** The marker of the range [1..3] after the text [fix] is emptied. *)
Lemma noid_forgets_marker_ids_witness :
  noid ("fix " +:+ encode_marker (hex (node_of 3)) (Some (hex (node_of 1))) +:+ nl)
  = "fix {{}}" +:+ nl.
Proof.
  rewrite (noid_forgets_marker_ids "fix " (hex (node_of 3)) (Some (hex (node_of 1))) nl).
  - reflexivity.
  - vm_compute. reflexivity.
  - vm_compute. reflexivity.
  - vm_compute. reflexivity.
  - intros x [= <-]. split; vm_compute; reflexivity.
Defined.

(** From the tip of the linear history the search passes over [3], [2]
    and [1] and stops at [0], pulled from changelist 100. *)
Lemma find_returns_nearest_witness :
  (find decimal (client changed) None false None true (world0 [])).1 = Ok (node_of 0, 100)
  /\ exists before ctx after,
       concat (find_walk decimal (repo changed) false None 3).2 = (before ++ ctx :: after)%list
       /\ Forall (passed_over decimal (repo changed) None) before
       /\ ctx_extra (repo changed) ctx !! "p4" = Some "100".
Proof.
  split; [vm_compute; reflexivity|].
  edestruct (find_returns_nearest decimal (client changed) None false None true (world0 []))
    as (start & Hstart & _ & [(Habort & _)|(before & ctx & after & v & Hwalk & Hpass & Hv & Hint & _)]).
  - apply run_eq. vm_compute. reflexivity.
  - discriminate.
  - vm_compute in Hstart. injection Hstart as <-.
    exists before, ctx, after. split; [exact Hwalk|]. split; [exact Hpass|].
    transitivity (Some v); [exact Hv|]. f_equal.
    cbn [client c_repo repo ctx_extra] in Hv.
    destruct (ctx =? 0); [|by rewrite lookup_empty in Hv].
    rewrite lookup_singleton_eq in Hv. by injection Hv as <-.
Defined.

(** In the repository with the merge nothing was pulled: the search from
    its tip raises, or returns the null id when told not to abort. *)
Lemma find_without_sync_point_witness :
  exists w',
    find decimal unsynced None false None true (world0 [])
    = (Raise (Abort "no p4 changelist revision found"), w')
    /\ find decimal unsynced None false None false (world0 []) = (Ok (nullid, 0), w').
Proof.
  edestruct (find_without_sync_point decimal unsynced None false None (world0 []) 3)
    as (w' & _ & Hraise & Hok).
  - exact diamond_precedes.
  - intros r. reflexivity.
  - vm_compute. reflexivity.
  - exists w'. split; [exact Hraise|exact Hok].
Defined.

(** The search from a revision the repository does not know raises the
    lookup error. *)
Lemma find_raises_only_witness :
  exists e, (find decimal (client changed) (Some "nowhere") false None true (world0 [])).1
            = Raise e
            /\ e = RepoLookupError "nowhere".
Proof.
  exists (RepoLookupError "nowhere"). split; [vm_compute; reflexivity|].
  edestruct (find_raises_only decimal (client changed) (Some "nowhere") false true (world0 []))
    as [He|[[He _]|[He _]]].
  - apply linear_precedes.
  - apply run_eq. vm_compute. reflexivity.
  - reflexivity.
  - discriminate.
  - discriminate.
Defined.

(** An unforced push from the repository with the merge aborts with
    nothing sent to the depot. *)
Lemma push_needs_a_sync_point_witness :
  exists w',
    push decimal unsynced (opts false) (world0 [])
    = (Raise (Abort "no p4 changelist revision found"), w')
    /\ w_log w' = [].
Proof.
  edestruct (push_needs_a_sync_point decimal unsynced (opts false) (world0 []) 3)
    as (w' & Hpush & (_ & Hlog & _)).
  - exact diamond_precedes.
  - intros r. reflexivity.
  - vm_compute. reflexivity.
  - reflexivity.
  - exists w'. split; [exact Hpush|exact Hlog].
Defined.

(** The pending changelists the depot lists as 103, 100 and 101 are read
    as 101 and 103: in ascending order, and without 100, which the
    repository is synced to. *)
Lemma pending_list_ascending_witness :
  exists pl,
    (getpendinglist decimal (client changed) three_pending).1 = Ok pl
    /\ map entry_change pl = [101; 103]
    /\ ascending pl.
Proof.
  eexists. split; [vm_compute; reflexivity|]. split; [vm_compute; reflexivity|].
  eapply (pending_list_ascending decimal (client changed) three_pending).
  - reflexivity.
  - apply run_eq. vm_compute. reflexivity.
Defined.

Lemma pending_list_skips_sync_point_witness :
  exists pl,
    (getpendinglist decimal (client changed) three_pending).1 = Ok pl
    /\ (find decimal (client changed) None false None false three_pending).1
       = Ok (node_of 0, 100)
    /\ Forall (fun e => entry_change e <> 100) pl.
Proof.
  eexists. split; [vm_compute; reflexivity|]. split; [vm_compute; reflexivity|].
  eapply (pending_list_skips_sync_point decimal (client changed) three_pending _ _
            (node_of 0, 100)).
  - reflexivity.
  - apply run_eq. vm_compute. reflexivity.
  - apply run_eq. vm_compute. reflexivity.
Defined.

(** A new changelist gets the number 102 the depot announces, and the
    pending cache is dropped. *)
Lemma change_invalidates_cache_witness :
  exists n w',
    change (client changed) EmptyString (Some "fix") false [] pushed_all = (Ok n, w')
    /\ n <> EmptyString /\ w_p4stat w' = None.
Proof.
  eexists _, _. split; [apply run_eq; vm_compute; reflexivity|].
  edestruct (change_invalidates_cache decimal (client changed) EmptyString (Some "fix") false []
               pushed_all) as (Hn & _ & Hstat & _).
  - apply run_eq. vm_compute. reflexivity.
  - split; [exact Hn|exact Hstat].
Defined.

Lemma change_returns_announced_number_witness :
  exists reply,
    loaditer
      (w_depot pushed_all [p4 ["change"; "-o"]]
         {| cmd_argv := ["change"; "-i"]; cmd_files := []; cmd_client := None;
            cmd_input := Some (<["Description" := "fix"]>
                                 (list_to_map [("Change", "new"); ("Client", "ws")])) |})
    = [reply]
    /\ (change (client changed) EmptyString (Some "fix") false [] pushed_all).1 = Ok "102"
    /\ exists c tail,
         reply !! "data" = Some ("Change " +:+ "102" +:+ " created" +:+ String c tail).
Proof.
  edestruct (change_returns_announced_number (client changed) (Some "fix") false [] pushed_all)
    as (form & reply & c & tail & Hform & Hreply & _ & Hdata & _).
  - apply run_eq. vm_compute. reflexivity.
  - exists reply. split; [|split; [vm_compute; reflexivity|by exists c, tail]].
    vm_compute in Hform. injection Hform as <-. exact Hreply.
Defined.

(** Synced to changelist 100, with the depot listing 103, 101 and 100 as
    submitted, the changelists to pull are 101 and 103. *)
Lemma pullcommon_changes_witness :
  (_pullcommon decimal (client changed) true
     {| l_rev := []; l_force := false; l_limit := None |} 0 three_pending).1
  = Ok (Some (node_of 0), [101; 103])
  /\ increasing [101; 103]
  /\ quiet three_pending
       (_pullcommon decimal (client changed) true
          {| l_rev := []; l_force := false; l_limit := None |} 0 three_pending).2.
Proof.
  split; [vm_compute; reflexivity|].
  edestruct (pullcommon_changes decimal (client changed) true
               {| l_rev := []; l_force := false; l_limit := None |} 0 three_pending)
    as (Hinc & Hquiet & _).
  - apply run_eq. vm_compute. reflexivity.
  - split; [exact Hinc|exact Hquiet].
Defined.

(** With the range [1..3] to push, [outgoing] returns 0 and has only
    asked the depot questions. *)
Lemma outgoing_reads_only_witness :
  exists out,
    (outgoing decimal (client changed) (opts false) id (world0 [])).1 = Ok (0, out)
    /\ quiet (world0 []) (outgoing decimal (client changed) (opts false) id (world0 [])).2.
Proof.
  eexists. split; [vm_compute; reflexivity|].
  edestruct (outgoing_reads_only decimal (client changed) (opts false) id (world0 []))
    as (Hquiet & _).
  - apply run_eq. vm_compute. reflexivity.
  - exact Hquiet.
Defined.

(** Of the pending changelists 103, 100 and 101, [--all] takes 101 and
    103. *)
Lemma subrevcommon_all_witness :
  (subrevcommon decimal (client changed) [] true three_pending).1 = Ok [101; 103]
  /\ increasing [101; 103].
Proof.
  split; [vm_compute; reflexivity|].
  edestruct (subrevcommon_all decimal (client changed) three_pending) as (Hok & _).
  - reflexivity.
  - apply run_eq. vm_compute. reflexivity.
  - destruct (Hok [101; 103] eq_refl) as (_ & Hinc & _). exact Hinc.
Defined.

(** The depot answers [fstat] with a description record and three files
    under the root [/ws/]: the three files come back with their local
    names. *)
Lemma fstat_files_have_local_names_witness :
  exists files,
    (fstat decimal (client changed) 101 false [] three_pending).1 = Ok files
    /\ map f_local files = [Some "a.txt"; Some "README"; Some "Readme"]
    /\ Forall (fun f => exists d, fstat_entry (client changed) d f) files.
Proof.
  eexists. split; [vm_compute; reflexivity|]. split; [vm_compute; reflexivity|].
  edestruct (fstat_files_have_local_names decimal (client changed) 101 false [] three_pending)
    as (c & _ & _ & Hfiles & _).
  - apply run_eq. vm_compute. reflexivity.
  - eapply Forall_impl; [exact Hfiles|]. intros f (d & _ & Hd). by exists d.
Defined.

(** Two files named [a.txt]: the entry keeps the second. *)
Lemma entries_keep_last_file_witness :
  exists entries,
    _entries (client changed) some_files None None (world0 []) = (Ok entries, world0 [])
    /\ map fst entries = ["a.txt"; "README"; "Readme"]
    /\ ("a.txt", named "//depot/old/a.txt" "a.txt") ∈ entries.
Proof.
  edestruct (entries_keep_last_file (client changed) some_files None None (world0 []))
    as (entries & Hrun & _ & Hiff).
  - reflexivity.
  - repeat constructor; by eexists.
  - exists entries. split; [exact Hrun|]. split.
    + apply (f_equal fst) in Hrun. vm_compute in Hrun. injection Hrun as <-. reflexivity.
    + apply Hiff. exists (removelast some_files), []. split; [reflexivity|].
      split; [reflexivity|constructor].
Defined.

(** With case ignored, [README] and [Readme] are one name: the entry
    keeps the first. *)
Lemma entries_ignorecase_keep_first_file_witness :
  exists entries,
    (_entries trimming some_files None None (world0 [])).1 = Ok entries
    /\ map fst entries = ["a.txt"; "README"]
    /\ NoDup (map (fun e => lower e.1) entries).
Proof.
  eexists. split; [vm_compute; reflexivity|]. split; [vm_compute; reflexivity|].
  edestruct (entries_ignorecase_keep_first_file trimming some_files None None (world0 []))
    as (_ & Hnd & _).
  - reflexivity.
  - apply run_eq. vm_compute. reflexivity.
  - exact Hnd.
Defined.

(** The depot does not answer [sync]: asked for one file, [sync] aborts
    for the incomplete reply. *)
Lemma sync_checks_reply_witness :
  (sync (client changed) 100 false false ["a.txt"] (world0 [])).1
  = Raise (Abort "incomplete reply from p4, reduce maxargs").
Proof.
  edestruct (sync_checks_reply (client changed) 100 false false ["a.txt"] (world0 []))
    as (c & Hlog & _ & _ & Hshort).
  - apply run_eq. vm_compute. reflexivity.
  - vm_compute in Hlog. injection Hlog as <-. apply Hshort.
    + discriminate.
    + vm_compute. lia.
    + vm_compute. constructor.
Defined.

(** Changelist 101 is committed with [p4] extra [101], by the user and at
    the date the depot gives. *)
Lemma pull_records_changelist_witness :
  exists ctx,
    (pull_changelist decimal (client changed) 101 (Some (node_of 0)) false pushed_all).1
    = Ok ctx
    /\ mc_extra ctx !! "p4" = Some "101" /\ mc_user ctx = "alice".
Proof.
  eexists. split; [vm_compute; reflexivity|].
  edestruct (pull_records_changelist decimal (client changed) 101 (Some (node_of 0)) false
               pushed_all) as (Hp4 & _ & Huser & _).
  - apply run_eq. vm_compute. reflexivity.
  - apply run_eq. vm_compute. reflexivity.
  - split; [exact Hp4|]. rewrite Huser. vm_compute. reflexivity.
Defined.

(** Changelist 101 was pushed with the description [fix]: pulled by the
    client that trims, it is committed as [fix] and a newline. *)
Lemma pull_trims_pushed_marker_witness :
  exists ctx,
    (pull_changelist decimal trimming 101 (Some (node_of 0)) false pushed_range).1 = Ok ctx
    /\ mc_desc ctx = "fix" +:+ nl.
Proof.
  eexists. split; [vm_compute; reflexivity|].
  eapply (pull_trims_pushed_marker decimal trimming 101 (Some (node_of 0)) false pushed_range
            _ _ _ _ "fix" (hex (node_of 3)) (Some (hex (node_of 1)))).
  - reflexivity.
  - apply run_eq. vm_compute. reflexivity.
  - vm_compute. reflexivity.
  - vm_compute. reflexivity.
  - vm_compute. reflexivity.
  - vm_compute. reflexivity.
  - intros x [= <-]. split; vm_compute; reflexivity.
  - vm_compute. discriminate.
  - apply run_eq. vm_compute. reflexivity.
Defined.

(** Of the submitted changelists 100 and 103 of the list, a push syncs
    to 103. *)
Lemma last_submitted_is_highest_witness :
  last_submitted 100 some_pending = 103
  /\ forall e, e ∈ some_pending -> entry_submitted e = true ->
       entry_change e <= last_submitted 100 some_pending.
Proof.
  split; [reflexivity|]. intros e He Hs.
  edestruct (last_submitted_is_highest 100 some_pending) as (_ & Hle).
  - vm_compute. repeat split; repeat constructor; discriminate.
  - destruct (Hle e He Hs) as [H _]. exact H.
Defined.

(** The client that is not told about [move] asks the depot for it, and
    learns that it is supported. *)
Lemma hasmovecopy_asks_only_witness :
  (hasmovecopy probing (world1 [])).1 = Ok (true, false)
  /\ exists l, w_log (hasmovecopy probing (world1 [])).2
               = (w_log (world1 []) ++ p4 ["help"; "move"] :: l)%list.
Proof.
  split; [vm_compute; reflexivity|].
  edestruct (hasmovecopy_asks_only probing (world1 [])) as (_ & _ & Hask & _).
  - apply run_eq. vm_compute. reflexivity.
  - exact (Hask eq_refl).
Defined.

(** The depot answers [submit] with the submitted change 104: the
    changelist is submitted and the pending cache dropped. *)
Lemma submit_drops_cache_witness :
  (submit (client changed) "101" pushed_range).1 = Ok tt
  /\ w_p4stat (submit (client changed) "101" pushed_range).2 = None.
Proof.
  split; [vm_compute; reflexivity|].
  edestruct (submit_drops_cache (client changed) "101" pushed_range) as (Hok & _).
  - apply run_eq. vm_compute. reflexivity.
  - destruct (Hok eq_refl) as [Hstat _]. exact Hstat.
Defined.
